(** * Transcript loader of MindDish.ai: a model of [notebooks/lib/youtube_loader.py]

    The Python module is embedded function by function.  A Python [str] is a
    list of Unicode code points, an exception is a value of [exn] carried by
    [result], and the process environment (the files under [data/], the
    transcript service, the log) is a record [world] threaded through the
    stateful functions. *)

From Stdlib Require Import NArith ZArith QArith Qabs List String Ascii Bool Lia.
From stdpp Require Import base option list gmap.

Close Scope Q_scope.
Open Scope N_scope.

(** ** Python strings *)

(** A [str] is a sequence of code points. *)
Abbreviation pystr := (list N).

Definition py (s : string) : pystr :=
  List.map N_of_ascii (list_ascii_of_string s).

Definition ch (a : ascii) : N := N_of_ascii a.
Arguments ch a%_char.

Module Str.

Definition eqb (a b : pystr) : bool := bool_decide (a = b).

(** [s.startswith(p)] *)
Fixpoint startswith (p s : pystr) : bool :=
  match p, s with
  | [], _ => true
  | _ :: _, [] => false
  | a :: p', b :: s' => (a =? b) && startswith p' s'
  end.

(** [sub in s] *)
Fixpoint contains (sub s : pystr) : bool :=
  startswith sub s ||
  match s with
  | [] => false
  | _ :: s' => contains sub s'
  end.

(** [c in s] for a single character. *)
Definition has (c : N) (s : pystr) : bool := existsb (N.eqb c) s.

(** [s.find(c)]; [None] stands for Python's [-1]. *)
Fixpoint find (c : N) (s : pystr) : option nat :=
  match s with
  | [] => None
  | a :: s' => if a =? c then Some O else S <$> find c s'
  end.

(** [s.find(c, start)] for [0 <= start]. *)
Definition find_from (c : N) (s : pystr) (start : nat) : option nat :=
  if decide (start ≤ length s)%nat
  then Nat.add start <$> find c (drop start s)
  else None.

(** [s.rfind(c)] *)
Fixpoint rfind (c : N) (s : pystr) : option nat :=
  match s with
  | [] => None
  | a :: s' =>
      match rfind c s' with
      | Some i => Some (S i)
      | None => if a =? c then Some O else None
      end
  end.

(** [s.lstrip(chars)], [s.rstrip(chars)], [s.strip(chars)] with the set of
    characters given by its membership test. *)
Fixpoint lstrip (drop_it : N → bool) (s : pystr) : pystr :=
  match s with
  | [] => []
  | a :: s' => if drop_it a then lstrip drop_it s' else s
  end.

Definition rstrip (drop_it : N → bool) (s : pystr) : pystr :=
  rev (lstrip drop_it (rev s)).

Definition strip (drop_it : N → bool) (s : pystr) : pystr :=
  rstrip drop_it (lstrip drop_it s).

(** [s.split(sep)] for a one-character separator: always at least one
    field. *)
Fixpoint split (sep : N) (s : pystr) : list pystr :=
  match s with
  | [] => [[]]
  | a :: s' =>
      if a =? sep then [] :: split sep s'
      else match split sep s' with
           | f :: fs => (a :: f) :: fs
           | [] => [[a]]
           end
  end.

(** [s.split(sep, 1)]: one or two fields. *)
Definition split1 (sep : N) (s : pystr) : list pystr :=
  match find sep s with
  | Some i => [take i s; drop (S i) s]
  | None => [s]
  end.

(** [sep.join(parts)] *)
Fixpoint join (sep : pystr) (parts : list pystr) : pystr :=
  match parts with
  | [] => []
  | [p] => p
  | p :: ps => p ++ sep ++ join sep ps
  end.

(** [s.replace(a, b)] for one-character [a] and [b]. *)
Definition replace (a b : N) (s : pystr) : pystr :=
  List.map (fun c => if c =? a then b else c) s.

(** [s.replace(a, empty)]: every occurrence of the character [a] is
    removed. *)
Definition remove (a : N) (s : pystr) : pystr :=
  List.filter (fun c => negb (c =? a)) s.

(** Whether no character of [s] is one of [chars]. *)
Definition none_of (chars s : pystr) : bool :=
  forallb (fun c => negb (has c chars)) s.

(** [s.isascii()] *)
Definition isascii (s : pystr) : bool := forallb (fun c => c <? 128) s.

(** [s.lower()] on ASCII text. *)
Definition lower_ascii (s : pystr) : pystr :=
  List.map (fun c => if (65 <=? c) && (c <=? 90) then c + 32 else c) s.

(** The characters [str.strip()] removes when called without argument:
    those for which [str.isspace()] holds. *)
Definition isspace (c : N) : bool :=
  ((9 <=? c) && (c <=? 13)) || ((28 <=? c) && (c <=? 32))
  || (c =? 0x85) || (c =? 0xA0) || (c =? 0x1680)
  || ((0x2000 <=? c) && (c <=? 0x200A))
  || (c =? 0x2028) || (c =? 0x2029) || (c =? 0x202F)
  || (c =? 0x205F) || (c =? 0x3000).

End Str.

(** ** Exceptions *)

Inductive exn : Type :=
  | ValueError          (* also UnicodeEncodeError, UnicodeDecodeError *)
  | KeyError
  | AttributeError
  | IndexError
  | OSError
  | OverflowError
  | ServiceError        (* whatever the transcript service raises *)
  | JSONDecodeError.

Inductive result (A : Type) : Type :=
  | Ok (a : A)
  | Raise (e : exn).
Arguments Ok {A} a.
Arguments Raise {A} e.

Definition rbind {A B} (r : result A) (k : A → result B) : result B :=
  match r with
  | Ok a => k a
  | Raise e => Raise e
  end.

(** ** UTF-8, as [str.encode] and [bytes.decode] implement it

    Bytes are numbers below 256. *)

Module Utf8.

Definition cont (b : N) : bool := (0x80 <=? b) && (b <=? 0xBF).

Definition surrogate (c : N) : bool := (0xD800 <=? c) && (c <=? 0xDFFF).

(** One code point; [None] where Python raises [UnicodeEncodeError] (a
    surrogate) and above [0x10FFFF], where a [str] has no code point. *)
Definition encode_char (c : N) : option (list N) :=
  if c <? 0x80 then Some [c]
  else if c <? 0x800 then Some [0xC0 + c / 64; 0x80 + c mod 64]
  else if c <? 0x10000 then
    if surrogate c then None
    else Some [0xE0 + c / 4096; 0x80 + (c / 64) mod 64; 0x80 + c mod 64]
  else if c <? 0x110000 then
    Some [0xF0 + c / 262144; 0x80 + (c / 4096) mod 64;
          0x80 + (c / 64) mod 64; 0x80 + c mod 64]
  else None.

Fixpoint encode (s : pystr) : option (list N) :=
  match s with
  | [] => Some []
  | c :: s' =>
      match encode_char c, encode s' with
      | Some bs, Some r => Some (bs ++ r)
      | _, _ => None
      end
  end.

(** The range of the second byte after the lead byte [b1] of a sequence
    of three or four bytes. *)
Definition second_ok (b1 b2 : N) : bool :=
  if b1 =? 0xE0 then (0xA0 <=? b2) && (b2 <=? 0xBF)
  else if b1 =? 0xED then (0x80 <=? b2) && (b2 <=? 0x9F)
  else if b1 =? 0xF0 then (0x90 <=? b2) && (b2 <=? 0xBF)
  else if b1 =? 0xF4 then (0x80 <=? b2) && (b2 <=? 0x8F)
  else cont b2.

(** The decoder's pass over the bytes: a code point for each well-formed
    sequence, [None] for each maximal ill-formed one (the span the error
    handler is called with). *)
Fixpoint scan (bs : list N) : list (option N) :=
  match bs with
  | [] => []
  | b1 :: r1 =>
      if b1 <? 0x80 then Some b1 :: scan r1
      else if (0xC2 <=? b1) && (b1 <=? 0xDF) then
        match r1 with
        | [] => [None]
        | b2 :: r2 =>
            if cont b2
            then Some ((b1 - 0xC0) * 64 + (b2 - 0x80)) :: scan r2
            else None :: scan r1
        end
      else if (0xE0 <=? b1) && (b1 <=? 0xEF) then
        match r1 with
        | [] => [None]
        | b2 :: r2 =>
            if second_ok b1 b2 then
              match r2 with
              | [] => [None]
              | b3 :: r3 =>
                  if cont b3
                  then Some ((b1 - 0xE0) * 4096 + (b2 - 0x80) * 64
                             + (b3 - 0x80)) :: scan r3
                  else None :: scan r2
              end
            else None :: scan r1
        end
      else if (0xF0 <=? b1) && (b1 <=? 0xF4) then
        match r1 with
        | [] => [None]
        | b2 :: r2 =>
            if second_ok b1 b2 then
              match r2 with
              | [] => [None]
              | b3 :: r3 =>
                  if cont b3 then
                    match r3 with
                    | [] => [None]
                    | b4 :: r4 =>
                        if cont b4
                        then Some ((b1 - 0xF0) * 262144 + (b2 - 0x80) * 4096
                                   + (b3 - 0x80) * 64 + (b4 - 0x80))
                               :: scan r4
                        else None :: scan r3
                    end
                  else None :: scan r2
              end
            else None :: scan r1
        end
      else None :: scan r1
  end.

(** [bs.decode("utf-8")]: strict, [None] where Python raises
    [UnicodeDecodeError]. *)
Fixpoint all_some (l : list (option N)) : option pystr :=
  match l with
  | [] => Some []
  | Some c :: l' => cons c <$> all_some l'
  | None :: _ => None
  end.

Definition decode (bs : list N) : option pystr := all_some (scan bs).

(** [bs.decode("utf-8", "replace")] *)
Definition decode_replace (bs : list N) : pystr :=
  List.map (fun o => default 0xFFFD o) (scan bs).

End Utf8.

(** ** JSON values, as [json.loads] returns them *)

#[local] Set Warnings "-register-all".
Inductive json : Type :=
  | JNull
  | JBool (b : bool)
  | JInt (z : Z)
  | JFloat (literal : pystr)
  | JStr (s : pystr)
  | JArr (items : list json)
  | JObj (members : list (pystr * json)).

(** ** The parts of the Python library that stay abstract

    Three library functions are taken as they come: Unicode normalisation
    (used by [urllib.parse._checknetloc] on a host that is not ASCII), the
    validation of a bracketed host (an IPv6 or IPvFuture literal), and the
    JSON decoder. *)

Class PyLib : Type := {
  (** [unicodedata.normalize("NFKC", s)] *)
  nfkc_normalize : pystr → pystr;
  (** whether [urllib.parse._check_bracketed_host(s)] returns (it raises
      [ValueError] otherwise) *)
  bracketed_host_ok : pystr → bool;
  (** [json.loads(s)] *)
  json_loads : pystr → result json;
}.

(** ** [urllib.parse] (CPython 3.12) *)

Module Url.

Definition hexval (c : N) : option N :=
  if (48 <=? c) && (c <=? 57) then Some (c - 48)
  else if (65 <=? c) && (c <=? 70) then Some (c - 55)
  else if (97 <=? c) && (c <=? 102) then Some (c - 87)
  else None.

(** One item of [string.split(b"%")] after the first: the byte its two
    leading hex digits name and the rest, or a literal [%] and the item. *)
Definition unquote_item (item : list N) : list N :=
  match item with
  | h :: l :: rest =>
      match hexval h, hexval l with
      | Some x, Some y => (16 * x + y) :: rest
      | _, _ => ch "%" :: item
      end
  | _ => ch "%" :: item
  end.

(** [_unquote_impl] on ASCII text. *)
Definition unquote_to_bytes (s : list N) : list N :=
  match Str.split (ch "%") s with
  | [] => []
  | first :: items => first ++ concat (List.map unquote_item items)
  end.

(** [_generate_unquoted_parts]: each maximal run of ASCII characters is
    unquoted to bytes and decoded, the other characters stay. [run] holds
    the current ASCII run, last character first. *)
Fixpoint unquoted_parts (s : pystr) (run : pystr) : pystr :=
  match s with
  | [] => Utf8.decode_replace (unquote_to_bytes (rev run))
  | c :: s' =>
      if c <? 128 then unquoted_parts s' (c :: run)
      else Utf8.decode_replace (unquote_to_bytes (rev run))
             ++ c :: unquoted_parts s' []
  end.

(** [unquote(string)] with its defaults (UTF-8, errors replaced). *)
Definition unquote (s : pystr) : pystr :=
  if negb (Str.has (ch "%") s) then s else unquoted_parts s [].

(** [parse_qsl(qs)] with its defaults: fields separated by [&], blank
    values dropped, no strict parsing. *)
Definition parse_field (name_value : pystr) : list (pystr * pystr) :=
  match name_value with
  | [] => []
  | _ =>
      match Str.split1 (ch "=") name_value with
      | [name; value] =>
          match value with
          | [] => []
          | _ => [(unquote (Str.replace (ch "+") (ch " ") name),
                   unquote (Str.replace (ch "+") (ch " ") value))]
          end
      | _ => []
      end
  end.

Definition parse_qsl (qs : pystr) : list (pystr * pystr) :=
  let query_args := match qs with [] => [] | _ => Str.split (ch "&") qs end in
  concat (List.map parse_field query_args).

(** [parse_qs(qs)]: the values of each name, in order of appearance.
    [collect] is the body of its loop over the pairs. *)
Definition collect (parsed_result : gmap pystr (list pystr))
    (pair : pystr * pystr) : gmap pystr (list pystr) :=
  let '(name, value) := pair in
  match parsed_result !! name with
  | Some values => <[name := values ++ [value]]> parsed_result
  | None => <[name := [value]]> parsed_result
  end.

Definition parse_qs (qs : pystr) : gmap pystr (list pystr) :=
  fold_left collect (parse_qsl qs) ∅.

Record SplitResult : Type := {
  s_scheme : pystr; s_netloc : pystr; s_path : pystr;
  s_query : pystr; s_fragment : pystr
}.

Record ParseResult : Type := {
  scheme : pystr; netloc : pystr; path : pystr; params : pystr;
  query : pystr; fragment : pystr
}.

Definition c0_control_or_space (c : N) : bool := c <=? 0x20.

Definition ascii_alpha (c : N) : bool :=
  ((65 <=? c) && (c <=? 90)) || ((97 <=? c) && (c <=? 122)).

Definition scheme_char (c : N) : bool :=
  ascii_alpha c || ((48 <=? c) && (c <=? 57))
  || (c =? ch "+") || (c =? ch "-") || (c =? ch ".").

(** [_splitnetloc(url, start)]: the host part ends at the first of
    [/], [?], [#]. *)
Definition splitnetloc (url : pystr) (start : nat) : pystr * pystr :=
  let delim :=
    fold_left
      (fun delim c =>
         match Str.find_from c url start with
         | Some wdelim => Nat.min delim wdelim
         | None => delim
         end)
      [ch "/"; ch "?"; ch "#"] (length url) in
  (drop start (take delim url), drop delim url).

(** [netloc.partition("[")[2].partition("]")[0]] *)
Definition bracketed_host (netloc : pystr) : pystr :=
  let after :=
    match Str.find (ch "[") netloc with
    | Some i => drop (S i) netloc
    | None => []
    end in
  match Str.find (ch "]") after with
  | Some j => take j after
  | None => after
  end.

Section WithLibrary.
Context `{PyLib}.

(** [_checknetloc(netloc)]: [true] when it returns. *)
Definition checknetloc (netloc : pystr) : bool :=
  match netloc with
  | [] => true
  | _ =>
      if Str.isascii netloc then true
      else
        let n := Str.remove (ch "?") (Str.remove (ch "#")
                   (Str.remove (ch ":") (Str.remove (ch "@") netloc))) in
        let netloc2 := nfkc_normalize n in
        if Str.eqb n netloc2 then true
        else negb (existsb (fun c => Str.has c netloc2)
                     [ch "/"; ch "?"; ch "#"; ch "@"; ch ":"])
  end.

(** [urlsplit(url)] *)
Definition urlsplit (url0 : pystr) : result SplitResult :=
  let url := Str.lstrip c0_control_or_space url0 in
  let url := Str.remove 10 (Str.remove 13 (Str.remove 9 url)) in
  let '(scheme, url) :=
    match Str.find (ch ":") url with
    | Some (S i) =>
        if forallb ascii_alpha (take 1 url)
           && forallb scheme_char (take (S i) url)
        then (Str.lower_ascii (take (S i) url), drop (S (S i)) url)
        else ([], url)
    | _ => ([], url)
    end in
  rbind
    (if Str.eqb (take 2 url) (py "//") then
       let '(netloc, url) := splitnetloc url 2 in
       let lb := Str.has (ch "[") netloc in
       let rb := Str.has (ch "]") netloc in
       if (lb && negb rb) || (rb && negb lb) then Raise ValueError
       else if lb && rb && negb (bracketed_host_ok (bracketed_host netloc))
       then Raise ValueError
       else Ok (netloc, url)
     else Ok ([], url))
    (fun '(netloc, url) =>
       let '(url, fragment) :=
         match Str.split1 (ch "#") url with
         | [u; f] => (u, f)
         | _ => (url, [])
         end in
       let '(url, query) :=
         match Str.split1 (ch "?") url with
         | [u; q] => (u, q)
         | _ => (url, [])
         end in
       if checknetloc netloc
       then Ok {| s_scheme := scheme; s_netloc := netloc; s_path := url;
                  s_query := query; s_fragment := fragment |}
       else Raise ValueError).

(** [uses_params]: the empty scheme and fourteen named ones. *)
Definition uses_params : list pystr :=
  [] :: List.map py ["ftp"; "hdl"; "prospero"; "http"; "imap"; "https";
                     "shttp"; "rtsp"; "rtspu"; "sip"; "sips"; "mms";
                     "sftp"; "tel"]%string.

(** [_splitparams(url)], called when [;] occurs in [url]. *)
Definition splitparams (url : pystr) : pystr * pystr :=
  if Str.has (ch "/") url then
    match Str.find_from (ch ";") url (default O (Str.rfind (ch "/") url)) with
    | Some i => (take i url, drop (S i) url)
    | None => (url, [])
    end
  else
    match Str.find (ch ";") url with
    | Some i => (take i url, drop (S i) url)
    | None => (removelast url, url)
    end.

(** [urlparse(url)] *)
Definition urlparse (url : pystr) : result ParseResult :=
  rbind (urlsplit url) (fun r =>
    let '(url, params) :=
      if existsb (Str.eqb (s_scheme r)) uses_params
         && Str.has (ch ";") (s_path r)
      then splitparams (s_path r)
      else (s_path r, []) in
    Ok {| scheme := s_scheme r; netloc := s_netloc r; path := url;
          params := params; query := s_query r;
          fragment := s_fragment r |}).

End WithLibrary.

End Url.

(** ** Video ID extractor *)

Section Extractor.
Context `{PyLib}.

(** [extract_video_id(video_url_or_id)] *)
Definition extract_video_id (video_url_or_id : pystr) : result pystr :=
  if negb (Str.contains (py "youtube.com") video_url_or_id)
     && negb (Str.contains (py "youtu.be") video_url_or_id)
  then Ok (Str.strip Str.isspace video_url_or_id)
  else
    rbind (Url.urlparse video_url_or_id) (fun parsed =>
      let short_or_fallback :=
        (* Short URL *)
        if Str.contains (py "youtu.be") (Url.netloc parsed)
        then Ok (Str.lstrip (N.eqb (ch "/")) (Url.path parsed))
        (* Fallback *)
        else Ok (List.last
                   (Str.split (ch "/")
                      (Str.strip (N.eqb (ch "/")) (Url.path parsed))) []) in
      (* Standard URL *)
      if Str.contains (py "youtube.com") (Url.netloc parsed) then
        let params := Url.parse_qs (Url.query parsed) in
        match params !! py "v" with
        | Some (v0 :: _) => Ok v0
        | Some [] => Raise IndexError
        | None => short_or_fallback
        end
      else short_or_fallback).

End Extractor.

(** ** [pathlib] paths (POSIX flavour) *)

Module Pathlib.

(** A parsed path: its root (empty, ["/"] or ["//"]) and its components. *)
Record Path : Type := { root : pystr; parts : list pystr }.

Definition is_component (x : pystr) : bool :=
  negb (Str.eqb x []) && negb (Str.eqb x (py ".")).

(** [Path(s)] *)
Definition parse (s : pystr) : Path :=
  let stripped := Str.lstrip (N.eqb (ch "/")) s in
  let slashes := (length s - length stripped)%nat in
  {| root := match slashes with
             | O => []
             | 2%nat => py "//"
             | _ => py "/"
             end;
     parts := List.filter is_component (Str.split (ch "/") stripped) |}.

(** [p / s] *)
Definition joinpath (p : Path) (s : pystr) : Path :=
  let q := parse s in
  match root q with
  | [] => {| root := root p; parts := parts p ++ parts q |}
  | _ => q
  end.

(** [str(p)] *)
Definition str (p : Path) : pystr :=
  match root p, parts p with
  | [], [] => py "."
  | _, _ => root p ++ Str.join (py "/") (parts p)
  end.

End Pathlib.

(** ** Directory setup *)

Definition DATA_DIR : Pathlib.Path := Pathlib.parse (py "data").
Definition TRANSCRIPTS_DIR : Pathlib.Path :=
  Pathlib.joinpath DATA_DIR (py "transcripts").

(** ** The environment *)

(** What the operating system answers for a path: a regular file with its
    bytes and whether the process may read and write it; something else
    that exists (a directory, say); or an error on every access, [stat]
    included (a name that is too long, a directory on the way that may not
    be searched). *)
Inductive node : Type :=
  | File (content : list N) (readable writable : bool)
  | Other
  | Denied.

(** A value inside a caption segment. *)
Inductive pyval : Type :=
  | VStr (s : pystr)
  | VFloat (q : Q).

(** A caption segment as the service returns it: a dict. *)
Abbreviation segment := (gmap pystr pyval).

(** A [float] argument: a number (every finite float is a rational), an
    infinity or a NaN. *)
Inductive pyfloat : Type :=
  | FFinite (q : Q)
  | FInf (negative : bool)
  | FNaN.

Inductive log_record : Type :=
  | ERROR_read_failed (video_id : pystr)
  | ERROR_save_failed (video_id : pystr)
  | ERROR_index_not_found
  | INFO_processing (collection : pystr) (videos : nat)
  | INFO_saved_index (entries : nat).

Record world : Type := {
  (** the files, by path as handed to the operating system *)
  files : gmap pystr node;
  (** whether a file that does not exist can be created at a path *)
  creatable : pystr → bool;
  (** [YT_AVAILABLE]: whether [youtube_transcript_api] was imported *)
  YT_AVAILABLE : bool;
  (** what [YouTubeTranscriptApi.get_transcript] answers on its [n]-th
      call *)
  service : nat → pystr → list pystr → result (list segment);
  (** the calls of [YouTubeTranscriptApi.get_transcript] so far *)
  service_calls : list (pystr * list pystr);
  (** the calls of [fetch_youtube_transcript] so far *)
  fetch_calls : list (pystr * option (list pystr));
  (** what [logger] has received *)
  log : list log_record;
  (** the delays [sleep] has waited *)
  slept : list pyfloat;
  (** whether the operating system refuses the [n]-th sleep, of a delay
      that Python has accepted: [clock_nanosleep] answers [EINVAL] when the
      deadline, the monotonic clock plus the delay, is past what the kernel
      represents *)
  sleep_refused : nat → pyfloat → bool;
}.

Definition set_files (f : gmap pystr node) (w : world) : world :=
  {| files := f; creatable := creatable w; YT_AVAILABLE := YT_AVAILABLE w;
     service := service w; service_calls := service_calls w;
     fetch_calls := fetch_calls w; log := log w; slept := slept w;
     sleep_refused := sleep_refused w |}.

Definition add_log (r : log_record) (w : world) : world :=
  {| files := files w; creatable := creatable w;
     YT_AVAILABLE := YT_AVAILABLE w;
     service := service w; service_calls := service_calls w;
     fetch_calls := fetch_calls w; log := log w ++ [r]; slept := slept w;
     sleep_refused := sleep_refused w |}.

Definition add_service_call (c : pystr * list pystr) (w : world) : world :=
  {| files := files w; creatable := creatable w;
     YT_AVAILABLE := YT_AVAILABLE w;
     service := service w; service_calls := service_calls w ++ [c];
     fetch_calls := fetch_calls w; log := log w; slept := slept w;
     sleep_refused := sleep_refused w |}.

Definition add_fetch_call (c : pystr * option (list pystr)) (w : world)
  : world :=
  {| files := files w; creatable := creatable w;
     YT_AVAILABLE := YT_AVAILABLE w;
     service := service w; service_calls := service_calls w;
     fetch_calls := fetch_calls w ++ [c]; log := log w; slept := slept w;
     sleep_refused := sleep_refused w |}.

Definition add_slept (d : pyfloat) (w : world) : world :=
  {| files := files w; creatable := creatable w;
     YT_AVAILABLE := YT_AVAILABLE w;
     service := service w; service_calls := service_calls w;
     fetch_calls := fetch_calls w; log := log w; slept := slept w ++ [d];
     sleep_refused := sleep_refused w |}.

(** ** Computations: a result and the environment after it

    An exception leaves the effects that came before it in place. *)

Definition M (A : Type) : Type := world → result A * world.

#[global] Instance M_ret : MRet M := λ A a w, (Ok a, w).

#[global] Instance M_bind : MBind M := λ A B k m w,
  match m w with
  | (Ok a, w') => k a w'
  | (Raise e, w') => (Raise e, w')
  end.

Definition raise {A} (e : exn) : M A := λ w, (Raise e, w).

Definition lift {A} (r : result A) : M A := λ w, (r, w).

(** [try: body except Exception as e: handler] *)
Definition try_except {A} (body : M A) (handler : exn → M A) : M A := λ w,
  match body w with
  | (Ok a, w') => (Ok a, w')
  | (Raise e, w') => handler e w'
  end.

Definition logger (r : log_record) : M unit := λ w, (Ok (), add_log r w).

(** ** Files *)

(** [path.exists()]: [stat] decides.  Of its errors, those that say that
    nothing is there give [False]; every other [OSError] is raised. *)
Definition path_exists (p : Pathlib.Path) : M bool := λ w,
  match files w !! Pathlib.str p with
  | Some Denied => (Raise OSError, w)
  | _ => (Ok (bool_decide (is_Some (files w !! Pathlib.str p))), w)
  end.

(** The translation of line ends a text-mode read applies: [\r\n] and a
    lone [\r] become [\n]. *)
Fixpoint universal_newlines (s : pystr) : pystr :=
  match s with
  | [] => []
  | c :: rest =>
      if c =? 13 then
        10 :: match rest with
              | [] => []
              | c' :: rest' =>
                  if c' =? 10 then universal_newlines rest'
                  else universal_newlines rest
              end
      else c :: universal_newlines rest
  end.

(** [path.read_text(encoding="utf-8")] *)
Definition read_text (p : Pathlib.Path) : M pystr := λ w,
  match files w !! Pathlib.str p with
  | Some (File content true _) =>
      match Utf8.decode content with
      | Some s => (Ok (universal_newlines s), w)
      | None => (Raise ValueError, w)
      end
  | _ => (Raise OSError, w)
  end.

(** [path.write_text(text, encoding="utf-8")]: the file is opened (created
    or emptied), then the encoded text is written; line ends are written
    as they are. *)
Definition open_w (p : pystr) : M unit := λ w,
  match files w !! p with
  | Some (File _ r true) => (Ok (), set_files (<[p := File [] r true]> (files w)) w)
  | Some _ => (Raise OSError, w)
  | None =>
      if creatable w p
      then (Ok (), set_files (<[p := File [] true true]> (files w)) w)
      else (Raise OSError, w)
  end.

Definition put_content (p : pystr) (bs : list N) : M unit := λ w,
  match files w !! p with
  | Some (File _ r wr) => (Ok (), set_files (<[p := File bs r wr]> (files w)) w)
  | _ => (Raise OSError, w)
  end.

Definition write_text (p : Pathlib.Path) (text : pystr) : M unit :=
  _ ← open_w (Pathlib.str p);
  match Utf8.encode text with
  | Some bs => put_content (Pathlib.str p) bs
  | None => raise ValueError
  end.

(** ** [time.sleep] *)

(** What [time.sleep] raises before it asks the operating system (CPython
    3.11, [_PyTime_FromSecondsObject] with rounding away from zero).  A NaN
    is refused.  The count of nanoseconds is the floating-point product of
    the delay and 1e9: it must lie between -2^63 and 2^63, both included,
    and the product is rounded to 2^63 from 2^63 - 512 to 2^63 + 1024, the
    floats next to 2^63 being 2^63 - 1024 and 2^63 + 2048.  The count is
    then converted to a 64-bit integer, which makes 2^63 negative, and a
    negative count is refused.  Here [q] is the value of the float, and the
    bounds are put on the exact product. *)
Definition sleep_argument_error (secs : pyfloat) : option exn :=
  match secs with
  | FNaN => Some ValueError
  | FInf _ => Some OverflowError
  | FFinite q =>
      let ns := (q * (1000000000 # 1))%Q in
      if negb (Qle_bool (Qabs ns) (9223372036854776832 # 1))
      then Some OverflowError
      else if negb (Qle_bool 0 q) then Some ValueError
      else if Qle_bool (9223372036854775296 # 1) ns then Some ValueError
      else None
  end.

(** [time.sleep(secs)]: a delay that Python accepts is handed to the
    operating system, which may refuse it ([OSError]). *)
Definition sleep (secs : pyfloat) : M unit := λ w,
  match sleep_argument_error secs with
  | Some e => (Raise e, w)
  | None =>
      if sleep_refused w (length (slept w)) secs then (Raise OSError, w)
      else (Ok (), add_slept secs w)
  end.

(** ** [json.dumps(index, indent=2)] on a list of index entries *)

(** An index entry: the dict built for each catalog entry, its keys in
    insertion order. *)
Record IndexEntry : Type := {
  collection : pystr;
  title : pystr;
  url : pystr;
  entry_video_id : pystr;
  transcript_source : pystr;
  transcript_path : option pystr
}.

Module Json.

Definition hex_digit (n : N) : N := if n <? 10 then 48 + n else 87 + n.

(** A backslash, [u] and four lower-case hex digits. *)
Definition u_escape (n : N) : pystr :=
  [92; ch "u"; hex_digit (n / 4096 mod 16); hex_digit (n / 256 mod 16);
   hex_digit (n / 16 mod 16); hex_digit (n mod 16)].

(** [py_encode_basestring_ascii] on one character. *)
Definition escape_char (c : N) : pystr :=
  if c =? 34 then [92; 34]
  else if c =? 92 then [92; 92]
  else if c =? 10 then [92; ch "n"]
  else if c =? 13 then [92; ch "r"]
  else if c =? 9 then [92; ch "t"]
  else if c =? 8 then [92; ch "b"]
  else if c =? 12 then [92; ch "f"]
  else if (32 <=? c) && (c <=? 126) then [c]
  else if c <? 0x10000 then u_escape c
  else
    let n := c - 0x10000 in
    u_escape (N.lor 0xD800 (N.land (N.shiftr n 10) 0x3FF))
      ++ u_escape (N.lor 0xDC00 (N.land n 0x3FF)).

Definition dumps_str (s : pystr) : pystr :=
  [34] ++ concat (List.map escape_char s) ++ [34].

Definition dumps_optional_str (v : option pystr) : pystr :=
  match v with
  | Some s => dumps_str s
  | None => py "null"
  end.

Definition newline_indent (level : nat) : pystr :=
  10 :: concat (repeat (py "  ") level).

(** A dict of the list, at nesting level 1. *)
Definition dumps_entry (e : IndexEntry) : pystr :=
  py "{" ++ newline_indent 2
  ++ Str.join (py "," ++ newline_indent 2)
       [ dumps_str (py "collection") ++ py ": " ++ dumps_str (collection e);
         dumps_str (py "title") ++ py ": " ++ dumps_str (title e);
         dumps_str (py "url") ++ py ": " ++ dumps_str (url e);
         dumps_str (py "video_id") ++ py ": " ++ dumps_str (entry_video_id e);
         dumps_str (py "transcript_source") ++ py ": "
           ++ dumps_str (transcript_source e);
         dumps_str (py "transcript_path") ++ py ": "
           ++ dumps_optional_str (transcript_path e) ]
  ++ newline_indent 1 ++ py "}".

Definition dumps_index (index : list IndexEntry) : pystr :=
  match index with
  | [] => py "[]"
  | _ =>
      py "[" ++ newline_indent 1
      ++ Str.join (py "," ++ newline_indent 1) (List.map dumps_entry index)
      ++ newline_indent 0 ++ py "]"
  end.

End Json.

(** ** The loader *)

(** [meta] of [get_or_create_transcript]. *)
Record Meta : Type := {
  video_id : pystr;
  source : pystr;
  saved_locally : bool
}.

Definition set_source (s : pystr) (m : Meta) : Meta :=
  {| video_id := video_id m; source := s; saved_locally := saved_locally m |}.

Definition set_saved_locally (b : bool) (m : Meta) : Meta :=
  {| video_id := video_id m; source := source m; saved_locally := b |}.

(** Truth value of an [Optional[str]]: [None] and the empty string are
    false. *)
Definition truthy (t : option pystr) : bool :=
  match t with
  | Some (_ :: _) => true
  | _ => false
  end.

(** A catalog entry is a dict of strings; the catalog maps a collection to
    its entries and is traversed in insertion order. *)
Abbreviation video := (gmap pystr pystr).
Abbreviation catalog := (list (pystr * list video)).

(** *** Curated collections *)

Definition entry (title url : string) : video :=
  {[ py "title" := py title; py "url" := py url ]}.

Definition curated_videos : catalog :=
  [ (py "african_cuisine",
     [ entry "Nigerian Efo Riro" "https://youtu.be/vIIyn8LH1_E";
       entry "Nigerian Moi-Moi" "https://youtu.be/8ACC_oqhQRQ";
       entry "Ghanaian Kontomire Stew" "https://youtu.be/6VXYzN_gDNs";
       entry "South African Chakalaka" "https://youtu.be/FiiTy8FpxqY" ]);
    (py "french_cuisine",
     [ entry "Flognarde Dessert" "https://youtu.be/Q5uBEWjNeTw";
       entry "Coq au Vin" "https://youtu.be/GFuBsSrIVaE";
       entry "Poulet au Vinaigre" "https://youtu.be/tOgH_ElyGQg";
       entry "Ratatouille" "https://youtu.be/9qCO2qKrfr4" ]);
    (py "portuguese_cuisine",
     [ entry "Bacalhau" "https://youtu.be/xuUelAOuH3o";
       entry "Carne Estufada" "https://youtu.be/4sRwu9BnLAU";
       entry "Pastel de Nata" "https://youtu.be/MA4LEjxZ7io";
       entry "Bifanas" "https://youtu.be/2PoVTipLxoI" ]);
    (py "jamaican_cuisine",
     [ entry "Pork Shoulder" "https://youtu.be/d6IKVNRDjUk";
       entry "Jamaican Curry Chicken" "https://youtu.be/QIG6weWWB4Q";
       entry "Sweet and Sour Fish" "https://youtu.be/RlZx52eyW4M";
       entry "Rice and Peas" "https://youtu.be/qHC2WBx8Cvg" ]);
    (py "syrian_cuisine",
     [ entry "Shrakiye" "https://youtu.be/tB5XsB91-fQ";
       entry "Tabouleh" "https://youtu.be/HMXByWj_TAY";
       entry "Knafe Nabulsieh" "https://youtu.be/DJD4QQkItT4";
       entry "Fatteh" "https://youtu.be/xF4XRASGaC0" ]);
    (py "italian_cuisine",
     [ entry "Chicken Cacciatore" "https://youtu.be/bGJMHjG85BM";
       entry "Cannelloni" "https://youtu.be/E--DfY3w15k";
       entry "Zozzona" "https://youtu.be/WttUeyXPCbU";
       entry "Gnocchi alla Sorrentina" "https://youtu.be/llV1kYg5zNo" ]);
    (py "indian_cuisine",
     [ entry "Chana Masala" "https://youtu.be/PRw88q0NkiY";
       entry "Chilli Garlic Tawa Chicken" "https://youtu.be/nilVmkdmabs";
       entry "Coconut Dosa" "https://youtu.be/s6h3b4tuhCE";
       entry "Garlic Naan Bread" "https://youtu.be/wmbpOb9neLY" ]) ].

Section Loader.
Context `{PyLib}.

(** [TRANSCRIPTS_DIR / f"{video_id}.txt"] *)
Definition transcript_file (video_id : pystr) : Pathlib.Path :=
  Pathlib.joinpath TRANSCRIPTS_DIR (video_id ++ py ".txt").

(** *** Local transcript loading/saving *)

Definition load_local_transcript (video_id : pystr) : M (option pystr) :=
  let path := transcript_file video_id in
  present ← path_exists path;
  if negb present then mret None
  else
    try_except
      (text ← read_text path; mret (Some text))
      (λ e, _ ← logger (ERROR_read_failed video_id); mret None).

Definition save_local_transcript (video_id text : pystr)
  : M Pathlib.Path :=
  let path := transcript_file video_id in
  try_except
    (_ ← write_text path text; mret path)
    (λ e, _ ← logger (ERROR_save_failed video_id); mret path).

(** *** YouTubeTranscriptApi wrapper *)

(** [YouTubeTranscriptApi.get_transcript(video_id, languages=languages)] *)
Definition get_transcript (video_id : pystr) (languages : list pystr)
  : M (list segment) := λ w,
  (service w (length (service_calls w)) video_id languages,
   add_service_call (video_id, languages) w).

(** [s.get("text", default).strip()], the default being the empty
    string. *)
Definition segment_text (s : segment) : result pystr :=
  match s !! py "text" with
  | None => Ok (Str.strip Str.isspace [])
  | Some (VStr t) => Ok (Str.strip Str.isspace t)
  | Some _ => Raise AttributeError
  end.

(** The generator handed to [join]: the stripped texts that are not
    empty, in order. *)
Fixpoint segment_texts (segments : list segment) : result (list pystr) :=
  match segments with
  | [] => Ok []
  | s :: rest =>
      rbind (segment_text s) (λ t,
      rbind (segment_texts rest) (λ ts,
      Ok (match t with [] => ts | _ => t :: ts end)))
  end.

(** [if languages is None: languages = ["en", "en-US"]] *)
Definition languages_or_default (languages : option (list pystr))
  : list pystr :=
  default [py "en"; py "en-US"] languages.

Definition fetch_youtube_transcript
    (video_id : pystr) (languages : option (list pystr))
  : M (option pystr) :=
  _ ← (λ w, (Ok (), add_fetch_call (video_id, languages) w)) : M unit;
  available ← (λ w, (Ok (YT_AVAILABLE w), w)) : M bool;
  if negb available then mret None
  else
    let languages := languages_or_default languages in
    try_except
      (segments ← get_transcript video_id languages;
       texts ← lift (segment_texts segments);
       let text := Str.join [10] texts in
       mret (if truthy (Some text) then Some text else None))
      (λ e, mret None).

(** *** Unified transcript loader *)

Definition get_or_create_transcript
    (video_url_or_id : pystr)
    (use_youtube_fallback save_downloaded : bool)
    (languages : option (list pystr))
  : M (option pystr * Meta) :=
  video_id ← lift (extract_video_id video_url_or_id);
  let meta := {| video_id := video_id; source := py "none";
                 saved_locally := false |} in
  (* 1 - local *)
  local ← load_local_transcript video_id;
  if truthy local then mret (local, set_source (py "local") meta)
  else
    (* 2 - YouTube *)
    if use_youtube_fallback then
      yt ← fetch_youtube_transcript video_id languages;
      if truthy yt then
        let meta := set_source (py "youtube") meta in
        if save_downloaded then
          _ ← save_local_transcript video_id (default [] yt);
          mret (yt, set_saved_locally true meta)
        else mret (yt, meta)
      else mret (None, meta)
    else mret (None, meta).

(** *** Bulk preload *)

(** The body of the inner loop, for one entry [v] of [collection]. *)
Definition preload_entry
    (collection : pystr) (v : video)
    (use_youtube_fallback : bool) (delay_seconds : pyfloat)
  : M IndexEntry :=
  url ← lift (match v !! py "url" with
              | Some u => Ok u
              | None => Raise KeyError
              end);
  let title := default [] (v !! py "title") in
  '(transcript, meta) ←
    get_or_create_transcript url use_youtube_fallback true None;
  let video_id := video_id meta in
  let path := transcript_file video_id in
  present ← path_exists path;
  let entry :=
    {| collection := collection; title := title; url := url;
       entry_video_id := video_id; transcript_source := source meta;
       transcript_path :=
         if (present : bool) then Some (Pathlib.str path) else None |} in
  _ ← sleep delay_seconds;
  mret entry.

(** [for v in videos: ...], appending to [index]. *)
Fixpoint preload_videos
    (collection : pystr) (videos : list video)
    (use_youtube_fallback : bool) (delay_seconds : pyfloat)
    (index : list IndexEntry)
  : M (list IndexEntry) :=
  match videos with
  | [] => mret index
  | v :: rest =>
      entry ← preload_entry collection v use_youtube_fallback delay_seconds;
      preload_videos collection rest use_youtube_fallback delay_seconds
        (index ++ [entry])
  end.

(** [for collection, videos in curated_map.items(): ...] *)
Fixpoint preload_collections
    (items : catalog)
    (use_youtube_fallback : bool) (delay_seconds : pyfloat)
    (index : list IndexEntry)
  : M (list IndexEntry) :=
  match items with
  | [] => mret index
  | (collection, videos) :: rest =>
      _ ← logger (INFO_processing collection (length videos));
      index ← preload_videos collection videos use_youtube_fallback
                delay_seconds index;
      preload_collections rest use_youtube_fallback delay_seconds index
  end.

Definition index_path : Pathlib.Path :=
  Pathlib.joinpath DATA_DIR (py "curated_index.json").

Definition preload_curated_transcripts
    (curated_map : catalog)
    (use_youtube_fallback : bool) (delay_seconds : pyfloat)
  : M (list IndexEntry) :=
  index ← preload_collections curated_map use_youtube_fallback
            delay_seconds [];
  _ ← write_text index_path (Json.dumps_index index);
  _ ← logger (INFO_saved_index (length index));
  mret index.

(** *** Index loader *)

Definition load_curated_index : M json :=
  let path := index_path in
  present ← path_exists path;
  if negb present then
    _ ← logger ERROR_index_not_found;
    mret (JArr [])
  else
    text ← read_text path;
    lift (json_loads text).

End Loader.

(** ** Vocabulary of the statements *)

(** [core] is [s] without the leading and trailing characters that [f]
    accepts. *)
Definition trimmed (f : N → bool) (s core : pystr) : Prop :=
  ∃ leading trailing,
    s = leading ++ core ++ trailing
    ∧ forallb f leading = true ∧ forallb f trailing = true
    ∧ (∀ c, head core = Some c → f c = false)
    ∧ (∀ c, last core = Some c → f c = false).

(** The outcome of a fetch: never an exception, and never the empty
    string. *)
Definition fetched (r : result (option pystr)) : Prop :=
  match r with
  | Ok None => True
  | Ok (Some text) => text ≠ []
  | Raise _ => False
  end.

(** A caption segment whose text is missing, empty or white space only. *)
Definition blank_segment (s : segment) : Prop :=
  match s !! py "text" with
  | None => True
  | Some (VStr t) => forallb Str.isspace t = true
  | Some _ => False
  end.

(** ** Sample environments *)

(** A library instance for closed examples: on ASCII text, normalisation
    changes nothing; no bracketed host is accepted; only the empty array is
    decoded. *)
Definition sample_library : PyLib :=
  {| nfkc_normalize := λ s, s;
     bracketed_host_ok := λ _, false;
     json_loads := λ s, if Str.eqb s (py "[]") then Ok (JArr [])
                        else Raise JSONDecodeError |}.

(** A kernel that refuses the delays of 9223372036 seconds or more, whose
    deadline is past its limit whatever the clock shows. *)
Definition kernel_limit (n : nat) (secs : pyfloat) : bool :=
  match secs with
  | FFinite q => Qle_bool (9223372036 # 1) q
  | _ => false
  end.

(** An empty store where files can be created, and a service that answers
    every request with the given result. *)
Definition fresh_world (answer : result (list segment)) : world :=
  {| files := ∅; creatable := λ _, true; YT_AVAILABLE := true;
     service := λ _ _ _, answer;
     service_calls := []; fetch_calls := []; log := []; slept := [];
     sleep_refused := kernel_limit |}.

(** The same, on a store that refuses every new file. *)
Definition readonly_world (answer : result (list segment)) : world :=
  {| files := ∅; creatable := λ _, false; YT_AVAILABLE := true;
     service := λ _ _ _, answer;
     service_calls := []; fetch_calls := []; log := []; slept := [];
     sleep_refused := kernel_limit |}.

Definition text_segment (t : pystr) : segment := {[ py "text" := VStr t ]}.

(** A store that holds one transcript, for ["abc123"]. *)
Definition stocked_world (content : list N) : world :=
  {| files := {[ Pathlib.str (transcript_file (py "abc123"))
                 := File content true true ]};
     creatable := λ _, true; YT_AVAILABLE := true;
     service := λ _ _ _, Raise ServiceError;
     service_calls := []; fetch_calls := []; log := []; slept := [];
     sleep_refused := kernel_limit |}.

(** A store where the transcript file of ["abc123"] exists, empty, and may
    be written but not read. *)
Definition writeonly_world : world :=
  {| files := {[ Pathlib.str (transcript_file (py "abc123"))
                 := File [] false true ]};
     creatable := λ _, true; YT_AVAILABLE := true;
     service := λ _ _ _, Raise ServiceError;
     service_calls := []; fetch_calls := []; log := []; slept := [];
     sleep_refused := kernel_limit |}.

(** A store where the path of the transcript of ["abc123"] is answered
    with [nd], and a service that answers with the given result. *)
Definition cached_world (nd : node) (answer : result (list segment))
  : world :=
  {| files := {[ Pathlib.str (transcript_file (py "abc123")) := nd ]};
     creatable := λ _, true; YT_AVAILABLE := true;
     service := λ _ _ _, answer;
     service_calls := []; fetch_calls := []; log := []; slept := [];
     sleep_refused := kernel_limit |}.

(** A store that holds an index file. *)
Definition indexed_world (content : list N) : world :=
  {| files := {[ Pathlib.str index_path := File content true true ]};
     creatable := λ _, true; YT_AVAILABLE := true;
     service := λ _ _ _, Raise ServiceError;
     service_calls := []; fetch_calls := []; log := []; slept := [];
     sleep_refused := kernel_limit |}.

(** ** The state of the store and of the platform *)

(** The path can be examined: [path.exists()] does not raise. *)
Definition can_stat (w : world) (p : Pathlib.Path) : Prop :=
  files w !! Pathlib.str p ≠ Some Denied.

(** The local store has no usable transcript for the identifier: no
    readable file of UTF-8 text that is not empty. *)
Definition no_local_transcript (vid : pystr) (w : world) : Prop :=
  ∀ content wr text,
    files w !! Pathlib.str (transcript_file vid)
      = Some (File content true wr) →
    Utf8.decode content = Some text →
    text = [].

(** [time.sleep] takes the delay whenever it is asked. *)
Definition sleep_accepted (w : world) (secs : pyfloat) : Prop :=
  sleep_argument_error secs = None ∧ ∀ n, sleep_refused w n secs = false.

(** What the operating system denies, lets be created and lets be slept
    is as it was. *)
Definition same_platform (w w' : world) : Prop :=
  creatable w' = creatable w
  ∧ sleep_refused w' = sleep_refused w
  ∧ ∀ p, files w' !! p = Some Denied ↔ files w !! p = Some Denied.

(** The entries of a catalog in the order the preloader visits them. *)
Definition catalog_entries (curated_map : catalog) : list (pystr * video) :=
  flat_map (λ '(collection, videos), List.map (pair collection) videos)
    curated_map.

(** The index entry [e] is the one of the catalog entry [cv]. *)
Definition describes (e : IndexEntry) (cv : pystr * video) : Prop :=
  collection e = cv.1
  ∧ cv.2 !! py "url" = Some (url e)
  ∧ title e = default [] (cv.2 !! py "title").

(** The catalog entry has a URL from which the extractor returns an
    identifier whose transcript path can be examined. *)
Definition resolvable `{PyLib} (w : world) (cv : pystr * video) : Prop :=
  ∃ u vid, cv.2 !! py "url" = Some u ∧ extract_video_id u = Ok vid
           ∧ can_stat w (transcript_file vid).

(** The index file can be opened for writing. *)
Definition index_writable (w : world) : Prop :=
  match files w !! Pathlib.str index_path with
  | Some (File _ _ true) => True
  | Some _ => False
  | None => creatable w (Pathlib.str index_path) = true
  end.

(** The index file is where it was and as writable as it was. *)
Definition same_index (w w' : world) : Prop :=
  files w' !! Pathlib.str index_path = files w !! Pathlib.str index_path
  ∧ creatable w' = creatable w.

(** The catalog of the specification's scenario, and one whose only URL
    has an unclosed bracket in its host. *)
Definition scenario_catalog : catalog :=
  [(py "test", [ {[ py "title" := py "A"; py "url" := py "abc123" ]} ])].

Definition bracket_catalog : catalog :=
  [(py "test", [ {[ py "title" := py "A";
                    py "url" := py "http://[youtube.com/watch?v=abc123" ]} ])].

(** A watch URL on the standard domain, cut into its parts:
    [scheme://host path ? before v=id after fragment]. *)
Record WatchUrl : Type := {
  wu_scheme : pystr;
  wu_host : pystr;
  wu_path : pystr;
  (** the query fields before [v], each followed by [&] *)
  wu_before : pystr;
  wu_id : pystr;
  (** the query fields after [v], each preceded by [&] *)
  wu_after : pystr;
  (** nothing, or [#] and the fragment *)
  wu_fragment : pystr
}.

Definition watch_query (u : WatchUrl) : pystr :=
  wu_before u ++ py "v=" ++ wu_id u ++ wu_after u.

Definition watch_url (u : WatchUrl) : pystr :=
  wu_scheme u ++ py "://" ++ wu_host u ++ wu_path u ++ py "?"
  ++ watch_query u ++ wu_fragment u.

Definition empty_or_starts (c : N) (s : pystr) : bool :=
  match s with
  | [] => true
  | a :: _ => a =? c
  end.

Definition empty_or_ends (c : N) (s : pystr) : bool :=
  empty_or_starts c (rev s).

(** The parts are what their names say: a scheme; an ASCII host on the
    standard domain without bracket; a path; earlier fields none of which
    is named [v]; an identifier that is not empty and has none of the
    characters [&], [#], [+] and [%]; and no tab or line break anywhere. *)
Definition well_formed_watch_url (u : WatchUrl) : bool :=
  forallb Url.ascii_alpha (take 1 (wu_scheme u))
  && negb (Str.eqb (wu_scheme u) [])
  && forallb Url.scheme_char (wu_scheme u)
  && Str.contains (py "youtube.com") (wu_host u)
  && Str.isascii (wu_host u)
  && Str.none_of (py "/?#[]") (wu_host u)
  && empty_or_starts (ch "/") (wu_path u)
  && Str.none_of (py "?#") (wu_path u)
  && empty_or_ends (ch "&") (wu_before u)
  && Str.none_of (py "#") (wu_before u)
  && negb (existsb (Str.eqb (py "v")) (List.map fst (Url.parse_qsl (wu_before u))))
  && negb (Str.eqb (wu_id u) [])
  && Str.none_of (py "&#+%") (wu_id u)
  && empty_or_starts (ch "&") (wu_after u)
  && Str.none_of (py "#") (wu_after u)
  && empty_or_starts (ch "#") (wu_fragment u)
  && Str.none_of [9; 10; 13] (watch_url u).

Definition sample_watch_url : WatchUrl :=
  {| wu_scheme := py "https"; wu_host := py "www.youtube.com";
     wu_path := py "/watch"; wu_before := py "t=42&";
     wu_id := py "dQw4w9WgXcQ"; wu_after := py "&list=PL1&v=other";
     wu_fragment := py "#top" |}.

(** ** Tactics *)

(** Unfolding the operations on computations. *)
Ltac unfold_M :=
  unfold mbind, mret, M_bind, M_ret, raise, lift, try_except, logger in *.

(** [lia] with division and remainder by constants. *)
Ltac dlia := zify; Z.to_euclidean_division_equations; lia.

(** Character and string literals as numbers. *)
Ltac literals :=
  repeat match goal with
    | |- context [ch ?a] =>
        let v := eval vm_compute in (ch a) in progress change (ch a) with v
    | |- context [py ?s] =>
        let v := eval vm_compute in (py s) in progress change (py s) with v
    | H : context [ch ?a] |- _ =>
        let v := eval vm_compute in (ch a) in
        progress change (ch a) with v in H
    | H : context [py ?s] |- _ =>
        let v := eval vm_compute in (py s) in
        progress change (py s) with v in H
    end.

(** ** More vocabulary *)

(** The lines a fetch keeps: the texts stripped, the empty ones left out. *)
Definition kept_lines (texts : list pystr) : list pystr :=
  List.filter (λ t, negb (Str.eqb t []))
    (List.map (Str.strip Str.isspace) texts).

(** A caption segment as the service sends it, with its timing. *)
Definition timed_segment (t : pystr) (start duration : Q) : segment :=
  {[ py "text" := VStr t; py "start" := VFloat start;
     py "duration" := VFloat duration ]}.

(** A URL cut into its parts: [scheme://host path], then [?] and a query
    when there is one, then [#] and a fragment when there is one. *)
Record PlainUrl : Type := {
  pu_scheme : pystr;
  pu_host : pystr;
  pu_path : pystr;
  pu_query : option pystr;
  pu_fragment : option pystr
}.

Definition plain_url (u : PlainUrl) : pystr :=
  pu_scheme u ++ py "://" ++ pu_host u ++ pu_path u
  ++ match pu_query u with Some q => ch "?" :: q | None => [] end
  ++ match pu_fragment u with Some f => ch "#" :: f | None => [] end.

(** The parts are what their names say: a scheme; an ASCII host without
    bracket; a path that is empty or starts with a slash; a query without
    [#]; and no tab or line break anywhere. *)
Definition well_formed_plain_url (u : PlainUrl) : bool :=
  forallb Url.ascii_alpha (take 1 (pu_scheme u))
  && negb (Str.eqb (pu_scheme u) [])
  && forallb Url.scheme_char (pu_scheme u)
  && Str.isascii (pu_host u)
  && Str.none_of (py "/?#[]") (pu_host u)
  && empty_or_starts (ch "/") (pu_path u)
  && Str.none_of (py "?#") (pu_path u)
  && Str.none_of (py "#") (default [] (pu_query u))
  && Str.none_of [9; 10; 13] (plain_url u).

Definition sample_short_url : PlainUrl :=
  {| pu_scheme := py "https"; pu_host := py "youtu.be";
     pu_path := py "/vIIyn8LH1_E"; pu_query := Some (py "t=42");
     pu_fragment := None |}.

Definition sample_embed_url : PlainUrl :=
  {| pu_scheme := py "https"; pu_host := py "www.youtube.com";
     pu_path := py "/embed/abc123/"; pu_query := None;
     pu_fragment := Some (py "top") |}.

(** What an index entry says about the identifier [vid] of its URL: it
    carries that identifier, one of the three sources, and no path or the
    path of the transcript file, which it always has when the source is
    the local store. *)
Definition entry_consistent (vid : pystr) (e : IndexEntry) : Prop :=
  entry_video_id e = vid
  ∧ (transcript_source e = py "none" ∨ transcript_source e = py "local"
     ∨ transcript_source e = py "youtube")
  ∧ (transcript_path e = None
     ∨ transcript_path e = Some (Pathlib.str (transcript_file vid)))
  ∧ (transcript_source e = py "local" → transcript_path e ≠ None).

(** The characters of a serialised index: line feeds and printable
    ASCII. *)
Definition json_char (c : N) : bool :=
  (c =? 10) || ((32 <=? c) && (c <=? 126)).


(** An index entry that is consistent with the identifier of the URL of
    its catalog entry. *)
Definition entry_of `{PyLib} (cv : pystr * video) (e : IndexEntry) : Prop :=
  ∃ u vid, cv.2 !! py "url" = Some u ∧ extract_video_id u = Ok vid
           ∧ entry_consistent vid e.

(** The files other than the index file are as they were. *)
Definition same_transcripts (w w' : world) : Prop :=
  ∀ q, q ≠ Pathlib.str index_path → files w' !! q = files w !! q.

(** The loop body cannot get an identifier for the entry: its URL is
    missing ([KeyError]) or the extractor raises on it. *)
Definition fails_with `{PyLib} (e : exn) (cv : pystr * video) : Prop :=
  match cv.2 !! py "url" with
  | None => e = KeyError
  | Some u => extract_video_id u = Raise e
  end.


(** A catalog whose second entry has no URL, and one without entries. *)
Definition untitled_catalog : catalog :=
  [(py "test", [ {[ py "title" := py "A"; py "url" := py "abc123" ]};
                 {[ py "title" := py "B" ]} ])].

Definition empty_catalog : catalog := [(py "test", [])].

(** [time.sleep] raises [e] for the delay: Python refuses it, or the
    operating system does. *)
Definition sleep_raises (w : world) (secs : pyfloat) (e : exn) : Prop :=
  sleep_argument_error secs = Some e
  ∨ (sleep_argument_error secs = None
     ∧ sleep_refused w (length (slept w)) secs = true ∧ e = OSError).

(** The index entry of the scenario with the fallback on, the value
    [json.loads] gives for an index entry, and a library instance that
    decodes the index of the scenario besides the empty one. *)
Definition scenario_entry : IndexEntry :=
  {| collection := py "test"; title := py "A"; url := py "abc123";
     entry_video_id := py "abc123"; transcript_source := py "youtube";
     transcript_path := Some (py "data/transcripts/abc123.txt") |}.

Definition entry_json (e : IndexEntry) : json :=
  JObj [ (py "collection", JStr (collection e));
         (py "title", JStr (title e));
         (py "url", JStr (url e));
         (py "video_id", JStr (entry_video_id e));
         (py "transcript_source", JStr (transcript_source e));
         (py "transcript_path",
          match transcript_path e with
          | Some p => JStr p
          | None => JNull
          end) ].

Definition scenario_library : PyLib :=
  {| nfkc_normalize := λ s, s;
     bracketed_host_ok := λ _, false;
     json_loads := λ s,
       if Str.eqb s (py "[]") then Ok (JArr [])
       else if Str.eqb s (Json.dumps_index [scenario_entry])
       then Ok (JArr [entry_json scenario_entry])
       else Raise JSONDecodeError |}.

(** The two environments differ in the log at most. *)
Definition only_logged (w w' : world) : Prop :=
  files w' = files w ∧ creatable w' = creatable w
  ∧ YT_AVAILABLE w' = YT_AVAILABLE w ∧ service w' = service w
  ∧ service_calls w' = service_calls w ∧ fetch_calls w' = fetch_calls w
  ∧ slept w' = slept w ∧ sleep_refused w' = sleep_refused w.

(** * Properties *)

(** ** Running a computation *)

Lemma path_exists_run p w :
  can_stat w p →
  path_exists p w = (Ok (bool_decide (is_Some (files w !! Pathlib.str p))), w).
Proof.
  unfold can_stat, path_exists.
  destruct (files w !! Pathlib.str p) as [[c r wr| |]|]; try reflexivity.
  intros Hs. contradiction.
Qed.

Lemma path_exists_denied p w :
  files w !! Pathlib.str p = Some Denied → path_exists p w = (Raise OSError, w).
Proof. unfold path_exists. intros ->. reflexivity. Qed.

(** What a local load does, by the state of the file. *)
Lemma load_local_transcript_run vid w :
  load_local_transcript vid w =
    match files w !! Pathlib.str (transcript_file vid) with
    | None => (Ok None, w)
    | Some Denied => (Raise OSError, w)
    | Some (File content true _) =>
        match Utf8.decode content with
        | Some s => (Ok (Some (universal_newlines s)), w)
        | None => (Ok None, add_log (ERROR_read_failed vid) w)
        end
    | Some _ => (Ok None, add_log (ERROR_read_failed vid) w)
    end.
Proof.
  unfold load_local_transcript, read_text, path_exists. unfold_M.
  destruct (files w !! Pathlib.str (transcript_file vid))
    as [[c [] wr| |]|] eqn:E; cbn; rewrite ?E; try reflexivity.
  destruct (Utf8.decode c); reflexivity.
Qed.

(** A local load raises only where the path cannot be examined, and leaves
    everything but the log as it was. *)
Lemma load_local_transcript_total vid w :
  can_stat w (transcript_file vid) →
  ∃ r, fst (load_local_transcript vid w) = Ok r.
Proof.
  unfold can_stat. rewrite load_local_transcript_run.
  destruct (files w !! _) as [[c [] wr| |]|]; eauto.
  - destruct (Utf8.decode c); eauto.
  - intros Hs. contradiction.
Qed.

Lemma load_local_transcript_denied vid w :
  files w !! Pathlib.str (transcript_file vid) = Some Denied →
  load_local_transcript vid w = (Raise OSError, w).
Proof. rewrite load_local_transcript_run. intros ->. reflexivity. Qed.

Lemma load_local_transcript_frame vid w :
  let w' := snd (load_local_transcript vid w) in
  files w' = files w ∧ creatable w' = creatable w
  ∧ YT_AVAILABLE w' = YT_AVAILABLE w ∧ service w' = service w
  ∧ service_calls w' = service_calls w ∧ fetch_calls w' = fetch_calls w
  ∧ slept w' = slept w.
Proof.
  cbv zeta. rewrite load_local_transcript_run.
  destruct (files w !! _) as [[c [] wr| |]|]; cbn; auto 10.
  destruct (Utf8.decode c); cbn; auto 10.
Qed.

(** What the local store holds without a usable transcript, a load
    returns as no text. *)
Lemma load_local_transcript_miss vid w :
  can_stat w (transcript_file vid) →
  no_local_transcript vid w →
  ∃ l, fst (load_local_transcript vid w) = Ok l ∧ truthy l = false.
Proof.
  unfold can_stat, no_local_transcript. rewrite load_local_transcript_run.
  destruct (files w !! _) as [[c [] wr| |]|]; intros Hs Hno;
    try (exists None; split; reflexivity).
  - destruct (Utf8.decode c) as [s|] eqn:D;
      [|exists None; split; reflexivity].
    rewrite (Hno c wr s eq_refl D). exists (Some []).
    split; reflexivity.
  - contradiction.
Qed.

(** The platform after an operation. *)
Lemma same_platform_refl w : same_platform w w.
Proof. repeat split; auto. Qed.

Lemma same_platform_trans w1 w2 w3 :
  same_platform w1 w2 → same_platform w2 w3 → same_platform w1 w3.
Proof.
  intros (? & ? & H12) (? & ? & H23). repeat split; try congruence.
  - intros Hd. apply H12, H23. exact Hd.
  - intros Hd. apply H23, H12. exact Hd.
Qed.

Lemma same_platform_files w w' :
  files w' = files w → creatable w' = creatable w →
  sleep_refused w' = sleep_refused w → same_platform w w'.
Proof. intros Hf Hc Hs. repeat split; auto; rewrite Hf; auto. Qed.

Lemma same_platform_add_log r w : same_platform w (add_log r w).
Proof. apply same_platform_files; reflexivity. Qed.

Lemma same_platform_can_stat w w' p :
  same_platform w w' → can_stat w p → can_stat w' p.
Proof. intros (_ & _ & Hd) Hs Hd'. apply Hs, Hd. exact Hd'. Qed.

Lemma same_platform_sleep w w' secs :
  same_platform w w' → sleep_accepted w secs → sleep_accepted w' secs.
Proof.
  intros (_ & Hr & _) [He Hn]. split; [exact He|].
  intros n. rewrite Hr. apply Hn.
Qed.

Lemma load_local_transcript_platform vid w :
  same_platform w (snd (load_local_transcript vid w)).
Proof.
  rewrite load_local_transcript_run.
  destruct (files w !! _) as [[c [] wr| |]|]; cbn;
    try apply same_platform_refl; try apply same_platform_add_log.
  destruct (Utf8.decode c); cbn;
    [apply same_platform_refl|apply same_platform_add_log].
Qed.

(** A load that finds text changes nothing at all. *)
Lemma load_local_transcript_some vid w text :
  fst (load_local_transcript vid w) = Ok (Some text) →
  load_local_transcript vid w = (Ok (Some text), w).
Proof.
  rewrite load_local_transcript_run.
  destruct (files w !! _) as [[c [] wr| |]|]; cbn; try discriminate.
  destruct (Utf8.decode c); cbn; try discriminate. congruence.
Qed.

(** ** The Remote Fetcher *)

Lemma segment_texts_nonempty segments texts :
  segment_texts segments = Ok texts → Forall (λ t, t ≠ []) texts.
Proof.
  revert texts. induction segments as [|s rest IH]; intros texts; cbn.
  - intros [= <-]. constructor.
  - destruct (segment_text s) as [t|]; cbn; [|discriminate].
    destruct (segment_texts rest) as [ts|]; cbn; [|discriminate].
    specialize (IH ts eq_refl).
    destruct t; intros [= <-]; auto.
Qed.

Lemma join_nil_inv sep parts :
  Forall (λ t, t ≠ []) parts → Str.join sep parts = [] → parts = [].
Proof.
  intros Hne. destruct parts as [|p ps]; [reflexivity|].
  inversion Hne as [|? ? Hp _]; subst.
  cbn. destruct ps; destruct p; try congruence; discriminate.
Qed.

Lemma fetch_youtube_transcript_fetched vid langs w :
  fetched (fst (fetch_youtube_transcript vid langs w)).
Proof.
  unfold fetch_youtube_transcript, get_transcript. unfold_M. cbn.
  destruct (YT_AVAILABLE w); cbn; [|exact I].
  destruct (service w _ vid _) as [segments|]; cbn; [|exact I].
  destruct (segment_texts segments) as [texts|] eqn:E; cbn; [|exact I].
  destruct (Str.join [10] texts) eqn:J; cbn; [exact I|discriminate].
Qed.

Lemma fetch_youtube_transcript_frame vid langs w :
  let w' := snd (fetch_youtube_transcript vid langs w) in
  files w' = files w ∧ creatable w' = creatable w
  ∧ fetch_calls w' = fetch_calls w ++ [(vid, langs)].
Proof.
  unfold fetch_youtube_transcript, get_transcript. unfold_M. cbn.
  destruct (YT_AVAILABLE w); cbn; auto.
  destruct (service w _ vid _) as [segments|]; cbn; auto.
  destruct (segment_texts segments) as [texts|]; cbn; auto.
Qed.

Lemma fetch_youtube_transcript_platform vid langs w :
  same_platform w (snd (fetch_youtube_transcript vid langs w)).
Proof.
  apply same_platform_files;
    unfold fetch_youtube_transcript, get_transcript; unfold_M; cbn;
    destruct (YT_AVAILABLE w); cbn; auto;
    destruct (service w _ vid _) as [segments|]; cbn; auto;
    destruct (segment_texts segments) as [texts|]; cbn; auto.
Qed.

(** ** Stripping *)

Lemma lstrip_split f s :
  ∃ l, s = l ++ Str.lstrip f s ∧ forallb f l = true.
Proof.
  induction s as [|a s IH]; cbn.
  - exists []. auto.
  - destruct (f a) eqn:Fa.
    + destruct IH as (l & Hs & Hl). exists (a :: l). cbn.
      rewrite Fa, Hl. split; [congruence|reflexivity].
    + exists []. auto.
Qed.

Lemma lstrip_head f s c :
  head (Str.lstrip f s) = Some c → f c = false.
Proof.
  induction s as [|a s IH]; cbn; [discriminate|].
  destruct (f a) eqn:Fa; [exact IH|]. cbn. congruence.
Qed.

Lemma lstrip_all f s : forallb f s = true → Str.lstrip f s = [].
Proof.
  induction s as [|a s IH]; cbn; [reflexivity|].
  destruct (f a); cbn; [exact IH|discriminate].
Qed.

Lemma lstrip_id f s :
  (∀ c, head s = Some c → f c = false) → Str.lstrip f s = s.
Proof.
  destruct s as [|a s]; cbn; [reflexivity|].
  intros Hh. rewrite (Hh a eq_refl). reflexivity.
Qed.

Lemma rstrip_split f s :
  ∃ r, s = Str.rstrip f s ++ r ∧ forallb f r = true.
Proof.
  unfold Str.rstrip. destruct (lstrip_split f (rev s)) as (l & Hs & Hl).
  exists (rev l). split.
  - rewrite <- rev_app_distr, <- Hs, rev_involutive. reflexivity.
  - rewrite forallb_forall in *. intros x Hx. apply Hl.
    apply in_rev. exact Hx.
Qed.

Lemma last_rev_head {A} (l : list A) : last (rev l) = head l.
Proof. rewrite rev_alt. apply last_reverse. Qed.

Lemma rstrip_last f s c :
  last (Str.rstrip f s) = Some c → f c = false.
Proof.
  unfold Str.rstrip. rewrite last_rev_head. apply lstrip_head.
Qed.

Lemma lstrip_app_stop f l c r :
  f c = false → Str.lstrip f (l ++ c :: r) = Str.lstrip f l ++ c :: r.
Proof.
  intros Fc. induction l as [|a l IH]; cbn.
  - rewrite Fc. reflexivity.
  - destruct (f a); [exact IH|reflexivity].
Qed.

Lemma rstrip_head f s c :
  f c = false → head s = Some c → head (Str.rstrip f s) = Some c.
Proof.
  intros Fc Hh. destruct s as [|a t]; [discriminate|].
  cbn in Hh. injection Hh as ->.
  unfold Str.rstrip. cbn [rev].
  rewrite lstrip_app_stop by exact Fc.
  rewrite rev_app_distr. reflexivity.
Qed.

Lemma strip_trimmed f s : trimmed f s (Str.strip f s).
Proof.
  unfold Str.strip.
  destruct (lstrip_split f s) as (l & Hs & Hl).
  destruct (rstrip_split f (Str.lstrip f s)) as (r & Hr & Hrr).
  exists l, r. repeat split; auto.
  - rewrite <- Hr. exact Hs.
  - intros c Hc.
    destruct (Str.lstrip f s) as [|a t] eqn:E.
    + cbn in Hc. discriminate.
    + assert (Fa : f a = false) by (apply (lstrip_head f s); rewrite E; reflexivity).
      rewrite (rstrip_head f (a :: t) a Fa eq_refl) in Hc. congruence.
  - apply rstrip_last.
Qed.

Lemma strip_all f s : forallb f s = true → Str.strip f s = [].
Proof.
  intros Hs. unfold Str.strip. rewrite lstrip_all by exact Hs. reflexivity.
Qed.

(** ** UTF-8: decoding what was encoded *)

Lemma ltb_false a b : b ≤ a → (a <? b) = false.
Proof. intros. apply N.ltb_ge. assumption. Qed.

Lemma between_true lo hi b : lo ≤ b → b ≤ hi → (lo <=? b) && (b <=? hi) = true.
Proof.
  intros. apply andb_true_intro. split; apply N.leb_le; assumption.
Qed.

Lemma between_false_hi lo hi b : hi < b → (lo <=? b) && (b <=? hi) = false.
Proof.
  intros. apply andb_false_intro2. apply N.leb_gt. assumption.
Qed.

Lemma scan_two b1 b2 rest :
  0xC2 ≤ b1 → b1 ≤ 0xDF → 0x80 ≤ b2 → b2 ≤ 0xBF →
  Utf8.scan (b1 :: b2 :: rest)
  = Some ((b1 - 0xC0) * 64 + (b2 - 0x80)) :: Utf8.scan rest.
Proof.
  intros. cbn [Utf8.scan]. unfold Utf8.cont.
  rewrite (ltb_false b1 0x80) by lia.
  rewrite (between_true 0xC2 0xDF b1), (between_true 0x80 0xBF b2) by lia.
  reflexivity.
Qed.

Lemma scan_three b1 b2 b3 rest :
  0xE0 ≤ b1 → b1 ≤ 0xEF → Utf8.second_ok b1 b2 = true →
  0x80 ≤ b3 → b3 ≤ 0xBF →
  Utf8.scan (b1 :: b2 :: b3 :: rest)
  = Some ((b1 - 0xE0) * 4096 + (b2 - 0x80) * 64 + (b3 - 0x80))
      :: Utf8.scan rest.
Proof.
  intros ? ? H2 ? ?. cbn [Utf8.scan]. unfold Utf8.cont.
  rewrite (ltb_false b1 0x80) by lia.
  rewrite (between_false_hi 0xC2 0xDF b1) by lia.
  rewrite (between_true 0xE0 0xEF b1) by lia.
  rewrite H2, (between_true 0x80 0xBF b3) by lia.
  reflexivity.
Qed.

Lemma scan_four b1 b2 b3 b4 rest :
  0xF0 ≤ b1 → b1 ≤ 0xF4 → Utf8.second_ok b1 b2 = true →
  0x80 ≤ b3 → b3 ≤ 0xBF → 0x80 ≤ b4 → b4 ≤ 0xBF →
  Utf8.scan (b1 :: b2 :: b3 :: b4 :: rest)
  = Some ((b1 - 0xF0) * 262144 + (b2 - 0x80) * 4096 + (b3 - 0x80) * 64
          + (b4 - 0x80)) :: Utf8.scan rest.
Proof.
  intros ? ? H2 ? ? ? ?. cbn [Utf8.scan]. unfold Utf8.cont.
  rewrite (ltb_false b1 0x80) by lia.
  rewrite (between_false_hi 0xC2 0xDF b1) by lia.
  rewrite (between_false_hi 0xE0 0xEF b1) by lia.
  rewrite (between_true 0xF0 0xF4 b1) by lia.
  rewrite H2, (between_true 0x80 0xBF b3), (between_true 0x80 0xBF b4) by lia.
  reflexivity.
Qed.

(** The second byte of an encoded code point is in the range its lead byte
    asks for. *)
Lemma second_ok_three c :
  0x800 ≤ c → c < 0x10000 → Utf8.surrogate c = false →
  Utf8.second_ok (0xE0 + c / 4096) (0x80 + (c / 64) mod 64) = true.
Proof.
  intros Hlo Hhi Hs. unfold Utf8.surrogate in Hs.
  assert (c < 0xD800 ∨ 0xDFFF < c) as Hns.
  { destruct (N.leb_spec 0xD800 c); destruct (N.leb_spec c 0xDFFF);
      cbn in Hs; try discriminate; lia. }
  unfold Utf8.second_ok, Utf8.cont.
  destruct (N.eqb_spec (0xE0 + c / 4096) 0xE0).
  { apply between_true; dlia. }
  destruct (N.eqb_spec (0xE0 + c / 4096) 0xED).
  { apply between_true; dlia. }
  destruct (N.eqb_spec (0xE0 + c / 4096) 0xF0); [dlia|].
  destruct (N.eqb_spec (0xE0 + c / 4096) 0xF4); [dlia|].
  apply between_true; dlia.
Qed.

Lemma second_ok_four c :
  0x10000 ≤ c → c < 0x110000 →
  Utf8.second_ok (0xF0 + c / 262144) (0x80 + (c / 4096) mod 64) = true.
Proof.
  intros Hlo Hhi. unfold Utf8.second_ok, Utf8.cont.
  destruct (N.eqb_spec (0xF0 + c / 262144) 0xE0); [dlia|].
  destruct (N.eqb_spec (0xF0 + c / 262144) 0xED); [dlia|].
  destruct (N.eqb_spec (0xF0 + c / 262144) 0xF0).
  { apply between_true; dlia. }
  destruct (N.eqb_spec (0xF0 + c / 262144) 0xF4).
  { apply between_true; dlia. }
  apply between_true; dlia.
Qed.

Lemma scan_encode_char c bs rest :
  Utf8.encode_char c = Some bs →
  Utf8.scan (bs ++ rest) = Some c :: Utf8.scan rest.
Proof.
  unfold Utf8.encode_char.
  destruct (N.ltb_spec c 0x80) as [H1|H1].
  { intros [= <-]. cbn [app Utf8.scan].
    destruct (N.ltb_spec c 0x80); [reflexivity|lia]. }
  destruct (N.ltb_spec c 0x800) as [H2|H2].
  { intros [= <-]. cbn [app]. rewrite scan_two by dlia.
    f_equal. f_equal. dlia. }
  destruct (N.ltb_spec c 0x10000) as [H3|H3].
  { destruct (Utf8.surrogate c) eqn:Hs; [discriminate|].
    intros [= <-]. cbn [app].
    rewrite scan_three by (try apply second_ok_three; try assumption; dlia).
    f_equal. f_equal. dlia. }
  destruct (N.ltb_spec c 0x110000) as [H4|H4]; [|discriminate].
  intros [= <-]. cbn [app].
  rewrite scan_four by (try apply second_ok_four; try assumption; dlia).
  f_equal. f_equal. dlia.
Qed.

Lemma decode_encode s bs :
  Utf8.encode s = Some bs → Utf8.decode bs = Some s.
Proof.
  unfold Utf8.decode. revert bs.
  induction s as [|c s IH]; intros bs; cbn [Utf8.encode].
  - intros [= <-]. reflexivity.
  - destruct (Utf8.encode_char c) as [cbs|] eqn:Ec; [|discriminate].
    destruct (Utf8.encode s) as [r|]; [|discriminate].
    intros [= <-]. rewrite (scan_encode_char _ _ _ Ec). cbn.
    rewrite (IH r eq_refl). reflexivity.
Qed.

(** ** Reading back what was written *)

Lemma universal_newlines_id s : 13 ∉ s → universal_newlines s = s.
Proof.
  induction s as [|c s IH]; [reflexivity|].
  intros Hnot. cbn [universal_newlines].
  destruct (N.eqb_spec c 13) as [->|_].
  - exfalso. apply Hnot. left.
  - rewrite IH; [reflexivity|]. intros Hin. apply Hnot. right. exact Hin.
Qed.

(** A write depends on the files and on what may be created, and changes
    the files only. *)
Lemma write_text_congr p text w1 w2 :
  files w1 = files w2 → creatable w1 = creatable w2 →
  fst (write_text p text w1) = fst (write_text p text w2)
  ∧ files (snd (write_text p text w1)) = files (snd (write_text p text w2)).
Proof.
  intros Hf Hc. unfold write_text, open_w, put_content. unfold_M.
  rewrite Hf, Hc.
  destruct (files w2 !! Pathlib.str p) as [[c r []| |]|]; cbn; auto;
    try destruct (creatable w2 (Pathlib.str p)); cbn; auto;
    destruct (Utf8.encode text); cbn; rewrite ?lookup_insert_eq; cbn; auto.
Qed.

(** After a write that succeeded, the path names a file with the encoded
    text, readable unless it was there before and was not. *)
Lemma write_text_ok p text w :
  fst (write_text p text w) = Ok () →
  (∀ c wr, files w !! Pathlib.str p ≠ Some (File c false wr)) →
  ∃ bs, Utf8.encode text = Some bs
        ∧ files (snd (write_text p text w)) !! Pathlib.str p
          = Some (File bs true true).
Proof.
  unfold write_text, open_w, put_content. unfold_M.
  destruct (files w !! Pathlib.str p) as [[c r []| |]|] eqn:E; cbn;
    try discriminate.
  - destruct (Utf8.encode text) as [bs|]; cbn; [|discriminate].
    rewrite lookup_insert_eq. cbn. intros _ Hr.
    destruct r; [|exfalso; eapply Hr; reflexivity].
    exists bs. rewrite lookup_insert_eq. auto.
  - destruct (creatable w (Pathlib.str p)); cbn; [|discriminate].
    destruct (Utf8.encode text) as [bs|]; cbn; [|discriminate].
    rewrite lookup_insert_eq. cbn. intros _ _.
    exists bs. rewrite lookup_insert_eq. auto.
Qed.

(** A save never raises; its effect on the files is that of the write. *)
Lemma save_local_transcript_run vid text w :
  fst (save_local_transcript vid text w) = Ok (transcript_file vid)
  ∧ files (snd (save_local_transcript vid text w))
    = files (snd (write_text (transcript_file vid) text w))
  ∧ creatable (snd (save_local_transcript vid text w)) = creatable w
  ∧ fetch_calls (snd (save_local_transcript vid text w)) = fetch_calls w.
Proof.
  unfold save_local_transcript. unfold_M.
  assert (Hfr : creatable (snd (write_text (transcript_file vid) text w))
                = creatable w
                ∧ fetch_calls (snd (write_text (transcript_file vid) text w))
                  = fetch_calls w).
  { unfold write_text, open_w, put_content. unfold_M.
    destruct (files w !! _) as [[c r []| |]|]; cbn; auto.
    - destruct (Utf8.encode text); cbn; rewrite ?lookup_insert_eq; cbn; auto.
    - destruct (creatable w _); cbn; auto.
      destruct (Utf8.encode text); cbn; rewrite ?lookup_insert_eq; cbn; auto. }
  destruct (write_text (transcript_file vid) text w) as [[[]|e] w'];
    cbn in *; tauto.
Qed.

(** Loading after a save that succeeded. *)
Lemma load_after_save vid text w w' :
  files w' = files (snd (write_text (transcript_file vid) text w)) →
  fst (write_text (transcript_file vid) text w) = Ok () →
  (∀ c wr, files w !! Pathlib.str (transcript_file vid)
           ≠ Some (File c false wr)) →
  fst (load_local_transcript vid w') = Ok (Some (universal_newlines text)).
Proof.
  intros Hf Hok Hr.
  destruct (write_text_ok _ _ _ Hok Hr) as (bs & Hbs & Hfile).
  rewrite load_local_transcript_run, Hf, Hfile.
  rewrite (decode_encode _ _ Hbs). reflexivity.
Qed.

(** A fetch depends on the service and on the calls made so far. *)
Lemma fetch_youtube_transcript_congr vid languages w1 w2 :
  YT_AVAILABLE w1 = YT_AVAILABLE w2 → service w1 = service w2 →
  service_calls w1 = service_calls w2 →
  fst (fetch_youtube_transcript vid languages w1)
  = fst (fetch_youtube_transcript vid languages w2).
Proof.
  intros Ha Hs Hc.
  unfold fetch_youtube_transcript, get_transcript. unfold_M.
  cbn -[languages_or_default]. rewrite Ha.
  destruct (YT_AVAILABLE w2); cbn -[languages_or_default]; [|reflexivity].
  rewrite Hs, Hc.
  destruct (service w2 _ vid _) as [segments|]; cbn; [|reflexivity].
  destruct (segment_texts segments) as [texts|]; cbn; reflexivity.
Qed.

(** A write denies nothing new and frees nothing that was denied. *)
Lemma insert_file_denied (m : gmap pystr node) p c r wr q :
  m !! p ≠ Some Denied →
  <[p := File c r wr]> m !! q = Some Denied ↔ m !! q = Some Denied.
Proof.
  intros Hp. destruct (decide (p = q)) as [<-|Hne].
  - rewrite lookup_insert_eq. split; [discriminate|contradiction].
  - rewrite lookup_insert_ne by exact Hne. reflexivity.
Qed.

Lemma write_text_platform p text w :
  same_platform w (snd (write_text p text w)).
Proof.
  assert (Hopen : ∀ c r wr,
    files w !! Pathlib.str p ≠ Some Denied →
    ∀ q, <[Pathlib.str p := File c r wr]> (files w) !! q = Some Denied
         ↔ files w !! q = Some Denied).
  { intros c r wr Hp q. apply insert_file_denied. exact Hp. }
  assert (Hput : ∀ c r wr c' r' wr',
    files w !! Pathlib.str p ≠ Some Denied →
    ∀ q, <[Pathlib.str p := File c r wr]>
           (<[Pathlib.str p := File c' r' wr']> (files w)) !! q = Some Denied
         ↔ files w !! q = Some Denied).
  { intros c r wr c' r' wr' Hp q.
    rewrite insert_file_denied by (rewrite lookup_insert_eq; discriminate).
    apply insert_file_denied. exact Hp. }
  unfold write_text, open_w, put_content. unfold_M.
  destruct (files w !! Pathlib.str p) as [[c r []| |]|] eqn:E; cbn;
    try apply same_platform_refl.
  - destruct (Utf8.encode text); cbn; rewrite ?lookup_insert_eq; cbn;
      (split; [reflexivity|split; [reflexivity|]]);
      [apply Hput|apply Hopen]; discriminate.
  - destruct (creatable w (Pathlib.str p)); cbn;
      try apply same_platform_refl.
    destruct (Utf8.encode text); cbn; rewrite ?lookup_insert_eq; cbn;
      (split; [reflexivity|split; [reflexivity|]]);
      [apply Hput|apply Hopen]; discriminate.
Qed.

Lemma save_local_transcript_platform vid text w :
  same_platform w (snd (save_local_transcript vid text w)).
Proof.
  pose proof (write_text_platform (transcript_file vid) text w) as Hw.
  unfold save_local_transcript. unfold_M.
  destruct (write_text (transcript_file vid) text w) as [[[]|e] w'];
    cbn in *; [exact Hw|].
  apply (same_platform_trans _ w'); [exact Hw|apply same_platform_add_log].
Qed.

(** ** Transcript files and the index file are different files *)

Lemma split_none sep s : sep ∉ s → Str.split sep s = [s].
Proof.
  induction s as [|a s IH]; [reflexivity|].
  intros Hnot. cbn [Str.split].
  destruct (N.eqb_spec a sep) as [->|_].
  - exfalso. apply Hnot. left.
  - rewrite IH; [reflexivity|]. intros Hin. apply Hnot. right. exact Hin.
Qed.

(** Appending text without separator extends the last field. *)
Lemma split_snoc sep a b :
  sep ∉ b →
  ∃ fs f, Str.split sep a = fs ++ [f] ∧ Str.split sep (a ++ b) = fs ++ [f ++ b].
Proof.
  intros Hb. induction a as [|c a IH].
  - exists [], []. cbn [app]. rewrite (split_none sep b Hb). auto.
  - destruct IH as (fs & f & Ha & Hab). cbn [app Str.split].
    destruct (c =? sep).
    + exists ([] :: fs), f. rewrite Ha, Hab. auto.
    + rewrite Ha, Hab. destruct fs as [|g fs]; cbn [app].
      * exists [], (c :: f). auto.
      * exists ((c :: g) :: fs), f. auto.
Qed.

Lemma join_snoc sep parts x :
  ∃ pre, Str.join sep (parts ++ [x]) = pre ++ x.
Proof.
  induction parts as [|p ps IH].
  - exists []. reflexivity.
  - destruct IH as (pre & Hpre). cbn [app Str.join].
    destruct (ps ++ [x]) as [|q qs] eqn:E.
    + destruct ps; discriminate.
    + exists (p ++ sep ++ pre). rewrite Hpre, <- !app_assoc. reflexivity.
Qed.

Lemma transcript_file_last vid :
  last (Pathlib.str (transcript_file vid)) = Some (ch "t").
Proof.
  unfold transcript_file, Pathlib.joinpath.
  set (name := vid ++ py ".txt").
  assert (Hparts : ∃ fs f,
            Pathlib.parts (Pathlib.parse name)
            = List.filter Pathlib.is_component fs ++ [f ++ py ".txt"]).
  { unfold Pathlib.parse, name. cbn [Pathlib.parts].
    change (py ".txt") with (ch "." :: py "txt").
    rewrite lstrip_app_stop by reflexivity.
    destruct (split_snoc (ch "/") (Str.lstrip (N.eqb (ch "/")) vid)
                (ch "." :: py "txt")) as (fs & f & _ & Hs).
    { intros Hin. apply list_elem_of_In in Hin. cbn in Hin.
      intuition discriminate. }
    exists fs, f. rewrite Hs, List.filter_app. f_equal.
    cbn [List.filter].
    replace (Pathlib.is_component (f ++ ch "." :: py "txt")) with true;
      [reflexivity|].
    unfold Pathlib.is_component, Str.eqb.
    rewrite !bool_decide_eq_false_2; [reflexivity| |].
    - intros E. apply (f_equal length) in E. rewrite length_app in E.
      cbn in E. lia.
    - intros E. destruct f; discriminate. }
  destruct Hparts as (fs & f & Hparts).
  assert (Hstr : ∀ r ps,
            last (Pathlib.str {| Pathlib.root := r;
                                 Pathlib.parts := ps ++ [f ++ py ".txt"] |})
            = Some (ch "t")).
  { intros r ps. unfold Pathlib.str. cbn [Pathlib.root Pathlib.parts].
    destruct (join_snoc (py "/") ps (f ++ py ".txt")) as (pre & Hpre).
    assert (Hl : last (r ++ Str.join (py "/") (ps ++ [f ++ py ".txt"]))
                 = Some (ch "t")).
    { rewrite Hpre, !app_assoc.
      change (py ".txt") with ([ch "."; ch "t"; ch "x"] ++ [ch "t"]).
      rewrite !app_assoc. apply last_snoc. }
    destruct r; [|exact Hl].
    destruct (ps ++ [f ++ py ".txt"]) eqn:E; [|exact Hl].
    destruct ps; discriminate. }
  destruct (Pathlib.root (Pathlib.parse name)) eqn:Er.
  - rewrite Hparts, app_assoc. apply Hstr.
  - destruct (Pathlib.parse name) as [r ps]. cbn in *. subst.
    apply Hstr.
Qed.

Lemma transcript_file_not_index vid :
  Pathlib.str (transcript_file vid) ≠ Pathlib.str index_path.
Proof.
  intros E. pose proof (transcript_file_last vid) as Hl.
  rewrite E in Hl. vm_compute in Hl. discriminate.
Qed.

(** A write leaves the other files alone. *)
Lemma write_text_other p text w q :
  q ≠ Pathlib.str p →
  files (snd (write_text p text w)) !! q = files w !! q
  ∧ creatable (snd (write_text p text w)) = creatable w.
Proof.
  intros Hq. unfold write_text, open_w, put_content. unfold_M.
  destruct (files w !! Pathlib.str p) as [[c r []| |]|]; cbn; auto;
    try destruct (creatable w (Pathlib.str p)); cbn; auto;
    destruct (Utf8.encode text); cbn; rewrite ?lookup_insert_eq; cbn;
    rewrite ?lookup_insert_ne by congruence; auto.
Qed.

(** ** The identifier extractor on a bare identifier *)

(** C4: an input that contains neither ["youtube.com"] nor ["youtu.be"] is
    returned with the white space around it removed and nothing else
    changed: the result is [strip] of the input, it sits inside the input
    between two runs of white space, and it neither starts nor ends with
    white space. *)
Theorem bare_identifier_trimmed `{PyLib} (s : pystr) :
  Str.contains (py "youtube.com") s = false →
  Str.contains (py "youtu.be") s = false →
  extract_video_id s = Ok (Str.strip Str.isspace s)
  ∧ trimmed Str.isspace s (Str.strip Str.isspace s).
Proof.
  intros H1 H2. split; [|apply strip_trimmed].
  unfold extract_video_id. rewrite H1, H2. reflexivity.
Qed.

Lemma bare_identifier_trimmed_witness :
  Str.contains (py "youtube.com") (py "  abc123 ") = false
  ∧ Str.contains (py "youtu.be") (py "  abc123 ") = false
  ∧ @extract_video_id sample_library (py "  abc123 ") = Ok (py "abc123").
Proof.
  split; [reflexivity|]. split; [reflexivity|].
  exact (proj1 (@bare_identifier_trimmed sample_library (py "  abc123 ")
                  eq_refl eq_refl)).
Defined.

(** ** The Remote Fetcher never returns the empty string *)

Lemma segment_texts_blank segments :
  Forall blank_segment segments → segment_texts segments = Ok [].
Proof.
  induction 1 as [|s rest Hs _ IH]; cbn; [reflexivity|].
  unfold segment_text, blank_segment in *.
  destruct (s !! py "text") as [[t|]|]; try contradiction; cbn.
  - rewrite strip_all by exact Hs. rewrite IH. reflexivity.
  - rewrite IH. reflexivity.
Qed.

(** C9: [fetch_youtube_transcript] returns [None] or a string that is not
    empty, and never raises; when the service answers with segments whose
    texts are all missing, empty or white space, it returns [None]. *)
Theorem fetch_never_empty :
  (∀ vid languages w,
     fst (fetch_youtube_transcript vid languages w) = Ok None
     ∨ ∃ text, fst (fetch_youtube_transcript vid languages w) = Ok (Some text)
               ∧ text ≠ [])
  ∧ (∀ vid languages w segments,
       YT_AVAILABLE w = true →
       service w (length (service_calls w)) vid
         (languages_or_default languages) = Ok segments →
       Forall blank_segment segments →
       fst (fetch_youtube_transcript vid languages w) = Ok None).
Proof.
  split.
  - intros vid languages w.
    pose proof (fetch_youtube_transcript_fetched vid languages w) as F.
    destruct (fst (fetch_youtube_transcript vid languages w)) as [[text|]|];
      cbn in F; [right; eauto|left; reflexivity|contradiction].
  - intros vid languages w segments Hav Hsv Hblank.
    unfold fetch_youtube_transcript, get_transcript. unfold_M.
    cbn -[languages_or_default].
    rewrite Hav. cbn -[languages_or_default]. rewrite Hsv. cbn.
    rewrite segment_texts_blank by exact Hblank. reflexivity.
Qed.

Lemma fetch_never_empty_witness :
  let w := fresh_world (Ok [text_segment (py "  "); text_segment []; ∅]) in
  YT_AVAILABLE w = true
  ∧ fst (fetch_youtube_transcript (py "abc123") None w) = Ok None.
Proof.
  cbv zeta. split; [reflexivity|].
  apply (proj2 fetch_never_empty (py "abc123") None
           (fresh_world (Ok [text_segment (py "  "); text_segment []; ∅]))
           [text_segment (py "  "); text_segment []; ∅]).
  - reflexivity.
  - reflexivity.
  - repeat constructor.
Defined.

(** ** The resolver *)

Section Resolver.
Context `{PyLib}.

(** The resolver on a reference whose identifier is [vid], by what the
    local store holds. *)
Lemma resolver_local_run ref vid text fb sd languages w :
  extract_video_id ref = Ok vid →
  fst (load_local_transcript vid w) = Ok (Some text) →
  text ≠ [] →
  get_or_create_transcript ref fb sd languages w =
    (Ok (Some text, {| video_id := vid; source := py "local";
                       saved_locally := false |}), w).
Proof.
  intros Hid Hload Hne.
  unfold get_or_create_transcript. unfold_M. rewrite Hid.
  rewrite (load_local_transcript_some _ _ _ Hload).
  destruct text; [contradiction|]. reflexivity.
Qed.

(** Without usable local text, the resolver goes on from the environment
    the load left. *)
Lemma resolver_miss_run ref vid fb sd languages w :
  extract_video_id ref = Ok vid →
  can_stat w (transcript_file vid) →
  (∀ text, fst (load_local_transcript vid w) = Ok (Some text) → text = []) →
  get_or_create_transcript ref fb sd languages w =
    let w1 := snd (load_local_transcript vid w) in
    let meta := {| video_id := vid; source := py "none";
                   saved_locally := false |} in
    if fb then
      match fetch_youtube_transcript vid languages w1 with
      | (Ok (Some (c :: t)), w2) =>
          if sd then
            (Ok (Some (c :: t), {| video_id := vid; source := py "youtube";
                                   saved_locally := true |}),
             snd (save_local_transcript vid (c :: t) w2))
          else
            (Ok (Some (c :: t), {| video_id := vid; source := py "youtube";
                                   saved_locally := false |}), w2)
      | (Ok _, w2) => (Ok (None, meta), w2)
      | (Raise e, w2) => (Raise e, w2)
      end
    else (Ok (None, meta), w1).
Proof.
  intros Hid Hstat Hmiss.
  unfold get_or_create_transcript. unfold_M. rewrite Hid. cbv zeta.
  destruct (load_local_transcript_total vid w Hstat) as [l Hl].
  destruct (load_local_transcript vid w) as [r w1] eqn:E. cbn in *. subst r.
  assert (Ht : truthy l = false).
  { destruct l as [[|c t]|]; try reflexivity.
    specialize (Hmiss (c :: t) eq_refl). discriminate. }
  rewrite Ht. destruct fb; [|reflexivity].
  destruct (fetch_youtube_transcript vid languages w1) as [[[[|c t]|]|e] w2];
    cbn; try reflexivity.
  destruct sd; [|reflexivity].
  unfold save_local_transcript. unfold_M.
  destruct (write_text _ _ w2) as [[[]|e] w3]; reflexivity.
Qed.

(** Where the transcript path cannot be examined, the resolver raises
    at once. *)
Lemma resolver_denied_run ref vid fb sd languages w :
  extract_video_id ref = Ok vid →
  files w !! Pathlib.str (transcript_file vid) = Some Denied →
  get_or_create_transcript ref fb sd languages w = (Raise OSError, w).
Proof.
  intros Hid Hd.
  unfold get_or_create_transcript. unfold_M. rewrite Hid.
  rewrite (load_local_transcript_denied vid w Hd). reflexivity.
Qed.

End Resolver.

(** A store without usable transcript gives a load no text. *)
Lemma no_local_transcript_miss vid w :
  no_local_transcript vid w →
  ∀ text, fst (load_local_transcript vid w) = Ok (Some text) → text = [].
Proof.
  unfold no_local_transcript. rewrite load_local_transcript_run.
  intros Hno text.
  destruct (files w !! _) as [[c [] wr| |]|]; cbn; try discriminate.
  destruct (Utf8.decode c) as [s|] eqn:D; cbn; [|discriminate].
  intros [= <-]. rewrite (Hno c wr s eq_refl D). reflexivity.
Qed.

(** A path is examined or not. *)
Lemma can_stat_dec w p :
  can_stat w p ∨ files w !! Pathlib.str p = Some Denied.
Proof.
  unfold can_stat.
  destruct (files w !! Pathlib.str p) as [[c r wr| |]|]; auto; left;
    discriminate.
Qed.

(** What a load gives: text that is not empty, or nothing usable. *)
Lemma local_or_miss vid w :
  (∃ c t, fst (load_local_transcript vid w) = Ok (Some (c :: t)))
  ∨ (∀ text, fst (load_local_transcript vid w) = Ok (Some text) → text = []).
Proof.
  destruct (fst (load_local_transcript vid w)) as [[[|c t]|]|e];
    [right|left; eauto|right|right]; intros text; congruence.
Qed.

Section ResolverClaims.
Context `{PyLib}.

(** C1, as amended: when the transcript file of the identifier of the
    reference is readable, holds UTF-8 text and is not empty, the resolver
    returns the text of the file with every [\r\n] and every lone [\r]
    turned into [\n], which is the text itself when it holds no carriage
    return, with source ["local"] and [saved_locally] false, whatever the
    fallback and save flags are; the environment is left as it was, so
    that [fetch_youtube_transcript] has not been called and nothing was
    saved. *)
Theorem local_transcript_wins
    (ref vid : pystr) (content : list N) (writable : bool) (text : pystr)
    (use_youtube_fallback save_downloaded : bool)
    (languages : option (list pystr)) (w : world) :
  extract_video_id ref = Ok vid →
  files w !! Pathlib.str (transcript_file vid)
    = Some (File content true writable) →
  Utf8.decode content = Some text →
  text ≠ [] →
  let out := get_or_create_transcript ref use_youtube_fallback
               save_downloaded languages w in
  fst out = Ok (Some (universal_newlines text),
                {| video_id := vid; source := py "local";
                   saved_locally := false |})
  ∧ (13 ∉ text →
     fst out = Ok (Some text, {| video_id := vid; source := py "local";
                                 saved_locally := false |}))
  ∧ fetch_calls (snd out) = fetch_calls w
  ∧ service_calls (snd out) = service_calls w
  ∧ snd out = w.
Proof.
  intros Hid Hfile Hdec Hne. cbv zeta.
  assert (Hload : fst (load_local_transcript vid w)
                  = Ok (Some (universal_newlines text))).
  { rewrite load_local_transcript_run, Hfile, Hdec. reflexivity. }
  assert (Hne' : universal_newlines text ≠ []).
  { destruct text as [|c rest]; [contradiction|].
    cbn [universal_newlines]. destruct (c =? 13); discriminate. }
  rewrite (resolver_local_run _ _ _ _ _ _ _ Hid Hload Hne').
  cbn [fst snd]. split; [reflexivity|]. split; [|auto].
  intros Hcr. rewrite universal_newlines_id by exact Hcr. reflexivity.
Qed.

(** C7, as amended: where the transcript path can be examined and the
    local store has no usable transcript, the resolver with the fallback
    disabled returns no text, source ["none"] and [saved_locally] false,
    and [fetch_youtube_transcript] is not called, whatever the service
    would answer and whether or not it is available. *)
Theorem no_fallback_no_fetch
    (ref vid : pystr) (save_downloaded : bool)
    (languages : option (list pystr)) (w : world) :
  extract_video_id ref = Ok vid →
  can_stat w (transcript_file vid) →
  no_local_transcript vid w →
  let out := get_or_create_transcript ref false save_downloaded
               languages w in
  fst out = Ok (None, {| video_id := vid; source := py "none";
                         saved_locally := false |})
  ∧ fetch_calls (snd out) = fetch_calls w
  ∧ service_calls (snd out) = service_calls w
  ∧ files (snd out) = files w.
Proof.
  intros Hid Hstat Hno. cbv zeta.
  rewrite (resolver_miss_run _ _ _ _ _ _ Hid Hstat
             (no_local_transcript_miss vid w Hno)).
  cbv zeta. cbn [fst snd].
  destruct (load_local_transcript_frame vid w) as (Hf & _ & _ & _ & Hs & Hc & _).
  auto.
Qed.

(** C10: in every result of the resolver, [saved_locally] is true exactly
    when the source is ["youtube"] and [save_downloaded] was set.  It
    records that a save was attempted: on a store that refuses the file
    the flag is true although the failure was logged and a later load
    finds nothing. *)
Theorem saved_locally_records_attempt :
  (∀ ref use_youtube_fallback save_downloaded languages w text meta w',
     get_or_create_transcript ref use_youtube_fallback save_downloaded
       languages w = (Ok (text, meta), w') →
     (saved_locally meta = true
      ↔ source meta = py "youtube" ∧ save_downloaded = true))
  ∧ (let w := readonly_world (Ok [text_segment (py "hello")]) in
     ∃ meta w',
       get_or_create_transcript (py "abc123") true true None w
         = (Ok (Some (py "hello"), meta), w')
       ∧ saved_locally meta = true
       ∧ log w' = [ERROR_save_failed (py "abc123")]
       ∧ fst (load_local_transcript (py "abc123") w') = Ok None).
Proof.
  split.
  - intros ref fb sd languages w text meta w' Hrun.
    destruct (extract_video_id ref) as [vid|e] eqn:Hid.
    2:{ unfold get_or_create_transcript in Hrun. unfold_M.
        rewrite Hid in Hrun. discriminate. }
    destruct (can_stat_dec w (transcript_file vid)) as [Hstat|Hd].
    2:{ rewrite (resolver_denied_run _ _ _ _ _ _ Hid Hd) in Hrun.
        discriminate. }
    destruct (load_local_transcript_total vid w Hstat) as [l Hl].
    assert (Hcases :
      (∃ c t, l = Some (c :: t))
      ∨ (∀ text', fst (load_local_transcript vid w) = Ok (Some text')
                  → text' = [])).
    { destruct l as [[|c t]|]; [right|left; eauto|right];
        intros text'; rewrite Hl; congruence. }
    destruct Hcases as [(c & t & ->)|Hmiss].
    + assert (Hne : c :: t ≠ []) by discriminate.
      rewrite (resolver_local_run _ _ _ _ _ _ _ Hid Hl Hne)
        in Hrun.
      inversion Hrun; subst; cbn. split; [discriminate|].
      intros [? ?]; discriminate.
    + rewrite (resolver_miss_run _ _ _ _ _ _ Hid Hstat Hmiss)
        in Hrun.
      cbv zeta in Hrun.
      destruct fb.
      * destruct (fetch_youtube_transcript _ _ _) as [[[[|c t]|]|e] w2];
          try destruct sd; inversion Hrun; subst; cbn; split;
          try discriminate; try tauto; intros [? ?]; discriminate.
      * inversion Hrun; subst; cbn. split; [discriminate|].
        intros [? ?]; discriminate.
  - cbv zeta. eexists _, _. split; [vm_compute; reflexivity|].
    split; [reflexivity|]. split; reflexivity.
Qed.

End ResolverClaims.

(** ** Saving and loading *)

Lemma no_file_in_fresh_world answer p c wr :
  files (fresh_world answer) !! p ≠ Some (File c false wr).
Proof. cbn. rewrite lookup_empty. discriminate. Qed.

(** C6, as amended: when the write succeeds and the file can be read back
    (it was not there as an unreadable file), loading [T] after saving
    [text] for [T] returns [text] with every [\r\n] and every lone [\r]
    turned into [\n]; it returns [text] itself when [text] holds no carriage
    return. *)
Theorem save_load_round_trip (T text : pystr) (w : world) :
  fst (write_text (transcript_file T) text w) = Ok () →
  (∀ c wr, files w !! Pathlib.str (transcript_file T)
           ≠ Some (File c false wr)) →
  let w' := snd (save_local_transcript T text w) in
  fst (load_local_transcript T w') = Ok (Some (universal_newlines text))
  ∧ (13 ∉ text → fst (load_local_transcript T w') = Ok (Some text)).
Proof.
  intros Hok Hr w'.
  assert (Hload : fst (load_local_transcript T w')
                  = Ok (Some (universal_newlines text))).
  { apply (load_after_save T text w w'); auto.
    apply (save_local_transcript_run T text w). }
  split; [exact Hload|].
  intros Hcr. rewrite Hload, universal_newlines_id by exact Hcr. reflexivity.
Qed.

Lemma save_load_round_trip_witness :
  let w := fresh_world (Ok []) in
  fst (write_text (transcript_file (py "abc123")) (py "hello") w) = Ok ()
  ∧ fst (load_local_transcript (py "abc123")
           (snd (save_local_transcript (py "abc123") (py "hello") w)))
    = Ok (Some (py "hello")).
Proof.
  cbv zeta. split; [reflexivity|].
  refine (proj2 (save_load_round_trip (py "abc123") (py "hello")
                   (fresh_world (Ok [])) eq_refl
                   (no_file_in_fresh_world _ _)) _).
  intros Hin. apply list_elem_of_In in Hin. cbn in Hin.
  intuition discriminate.
Defined.

(** C6 as stated fails on a text with a carriage return: saved on an empty
    store that accepts the file, ["a\rb"] is loaded as ["a\nb"].  Where the
    write does not succeed or the file cannot be read, nothing of the text
    comes back: a lone surrogate cannot be encoded, which leaves the file
    empty, and a file that may only be written is not loaded. *)
Lemma carriage_return_not_preserved :
  (let w := fresh_world (Ok []) in
   let text := [97; 13; 98] in
   fst (write_text (transcript_file (py "abc123")) text w) = Ok ()
   ∧ fst (load_local_transcript (py "abc123")
            (snd (save_local_transcript (py "abc123") text w)))
     = Ok (Some [97; 10; 98])
   ∧ fst (load_local_transcript (py "abc123")
            (snd (save_local_transcript (py "abc123") text w)))
     ≠ Ok (Some text))
  ∧ (let w := fresh_world (Ok []) in
     let text := [0xD800] in
     fst (write_text (transcript_file (py "abc123")) text w)
       = Raise ValueError
     ∧ fst (load_local_transcript (py "abc123")
              (snd (save_local_transcript (py "abc123") text w)))
       = Ok (Some []))
  ∧ (let w := writeonly_world in
     let text := py "hello" in
     fst (write_text (transcript_file (py "abc123")) text w) = Ok ()
     ∧ fst (load_local_transcript (py "abc123")
              (snd (save_local_transcript (py "abc123") text w)))
       = Ok None).
Proof.
  cbv zeta. repeat split; try (vm_compute; reflexivity).
  vm_compute. discriminate.
Qed.

Section RemoteClaim.
Context `{PyLib}.

(** C2, as amended: where the transcript path can be examined and the
    local store has no usable transcript, with the fallback and the save
    enabled and text returned by [fetch_youtube_transcript], the resolver
    returns that text with source ["youtube"]; and when the write of the
    transcript file succeeds and the file can be read back, a later load
    for the same identifier returns the text with its line ends
    normalised, which is the text itself when it holds no carriage
    return. *)
Theorem remote_transcript_resolved
    (ref vid text : pystr) (languages : option (list pystr)) (w : world) :
  extract_video_id ref = Ok vid →
  can_stat w (transcript_file vid) →
  no_local_transcript vid w →
  fst (fetch_youtube_transcript vid languages w) = Ok (Some text) →
  let out := get_or_create_transcript ref true true languages w in
  fst out = Ok (Some text, {| video_id := vid; source := py "youtube";
                              saved_locally := true |})
  ∧ (fst (write_text (transcript_file vid) text w) = Ok () →
     (∀ c wr, files w !! Pathlib.str (transcript_file vid)
              ≠ Some (File c false wr)) →
     fst (load_local_transcript vid (snd out))
       = Ok (Some (universal_newlines text))
     ∧ (13 ∉ text →
        fst (load_local_transcript vid (snd out)) = Ok (Some text))).
Proof.
  intros Hid Hstat Hno Hfetch. cbv zeta.
  rewrite (resolver_miss_run _ _ _ _ _ _ Hid Hstat
             (no_local_transcript_miss vid w Hno)).
  cbv zeta.
  destruct (load_local_transcript_frame vid w)
    as (Hf1 & Hc1 & Ha1 & Hs1 & Hsc1 & _).
  set (w1 := snd (load_local_transcript vid w)) in *.
  pose proof (fetch_youtube_transcript_congr vid languages w1 w Ha1 Hs1 Hsc1)
    as Hsame.
  destruct (fetch_youtube_transcript_frame vid languages w1) as (Hf2 & Hc2 & _).
  pose proof (fetch_youtube_transcript_fetched vid languages w1) as Hne.
  destruct (fetch_youtube_transcript vid languages w1) as [r w2] eqn:E.
  cbn [fst snd] in *. rewrite Hfetch in Hsame. subst r.
  cbn in Hne. destruct text as [|c t]; [contradiction|].
  cbn [fst snd]. split; [reflexivity|].
  intros Hok Hr.
  destruct (save_local_transcript_run vid (c :: t) w2) as (_ & Hf3 & _).
  destruct (write_text_congr (transcript_file vid) (c :: t) w2 w)
    as (_ & Hf4); [congruence|congruence|].
  assert (Hload : fst (load_local_transcript vid
                         (snd (save_local_transcript vid (c :: t) w2)))
                  = Ok (Some (universal_newlines (c :: t)))).
  { apply (load_after_save vid (c :: t) w); auto. congruence. }
  split; [exact Hload|].
  intros Hcr. rewrite Hload, universal_newlines_id by exact Hcr.
  reflexivity.
Qed.

End RemoteClaim.

Lemma remote_transcript_resolved_witness :
  let w := fresh_world (Ok [text_segment (py "hello")]) in
  let out := @get_or_create_transcript sample_library (py "abc123")
               true true None w in
  @extract_video_id sample_library (py "abc123") = Ok (py "abc123")
  ∧ fst (fetch_youtube_transcript (py "abc123") None w) = Ok (Some (py "hello"))
  ∧ fst out = Ok (Some (py "hello"),
                  {| video_id := py "abc123"; source := py "youtube";
                     saved_locally := true |})
  ∧ fst (load_local_transcript (py "abc123") (snd out))
    = Ok (Some (universal_newlines (py "hello"))).
Proof.
  cbv zeta. split; [reflexivity|]. split; [reflexivity|].
  assert (Hstat : can_stat (fresh_world (Ok [text_segment (py "hello")]))
                    (transcript_file (py "abc123"))).
  { unfold can_stat. vm_compute. discriminate. }
  assert (Hno : no_local_transcript (py "abc123")
                  (fresh_world (Ok [text_segment (py "hello")]))).
  { intros content wr text. vm_compute. discriminate. }
  destruct (@remote_transcript_resolved sample_library
              (py "abc123") (py "abc123") (py "hello") None
              (fresh_world (Ok [text_segment (py "hello")]))
              eq_refl Hstat Hno eq_refl) as [T1 T2].
  split; [exact T1|]. apply (proj1 (T2 eq_refl (no_file_in_fresh_world _ _))).
Defined.

(** C2 as stated fails where the store refuses the file: the resolver
    returns the remote text with source ["youtube"], and the later load
    finds nothing.  It also fails on a remote text with a carriage return,
    which the later load returns as a line feed.  And where the transcript
    path cannot be examined the resolver returns nothing: it raises
    [OSError] before the fetch, although the store holds no transcript and
    the fetch would return text. *)
Lemma remote_text_not_loaded_back :
  (let w := readonly_world (Ok [text_segment (py "hello")]) in
   let out := @get_or_create_transcript sample_library (py "abc123")
                true true None w in
   fst (load_local_transcript (py "abc123") w) = Ok None
   ∧ fst (fetch_youtube_transcript (py "abc123") None w)
     = Ok (Some (py "hello"))
   ∧ fst out = Ok (Some (py "hello"),
                   {| video_id := py "abc123"; source := py "youtube";
                      saved_locally := true |})
   ∧ fst (load_local_transcript (py "abc123") (snd out)) = Ok None
   ∧ fst (load_local_transcript (py "abc123") (snd out))
     ≠ Ok (Some (py "hello")))
  ∧ (let w := fresh_world (Ok [text_segment [97; 13; 98]]) in
     let out := @get_or_create_transcript sample_library (py "abc123")
                  true true None w in
     fst (load_local_transcript (py "abc123") w) = Ok None
     ∧ fst (fetch_youtube_transcript (py "abc123") None w)
       = Ok (Some [97; 13; 98])
     ∧ fst out = Ok (Some [97; 13; 98],
                     {| video_id := py "abc123"; source := py "youtube";
                        saved_locally := true |})
     ∧ fst (load_local_transcript (py "abc123") (snd out))
       = Ok (Some [97; 10; 98])
     ∧ fst (load_local_transcript (py "abc123") (snd out))
       ≠ Ok (Some [97; 13; 98]))
  ∧ (let w := cached_world Denied (Ok [text_segment (py "hello")]) in
     no_local_transcript (py "abc123") w
     ∧ fst (fetch_youtube_transcript (py "abc123") None w)
       = Ok (Some (py "hello"))
     ∧ @get_or_create_transcript sample_library (py "abc123")
         true true None w = (Raise OSError, w)).
Proof.
  split; [|split]; cbv zeta.
  - repeat (split; [vm_compute; reflexivity|]). vm_compute. discriminate.
  - repeat (split; [vm_compute; reflexivity|]). vm_compute. discriminate.
  - split; [|split; vm_compute; reflexivity].
    intros content wr text. vm_compute. discriminate.
Qed.

Lemma local_transcript_wins_witness :
  let w := stocked_world (py "hi") in
  let out := @get_or_create_transcript sample_library (py " abc123 ")
               true true None w in
  fst out = Ok (Some (py "hi"), {| video_id := py "abc123";
                                    source := py "local";
                                    saved_locally := false |})
  ∧ fetch_calls (snd out) = []
  ∧ snd out = w.
Proof.
  cbv zeta.
  assert (Hne : py "hi" ≠ []) by discriminate.
  destruct (@local_transcript_wins sample_library
              (py " abc123 ") (py "abc123") (py "hi") true (py "hi")
              true true None (stocked_world (py "hi"))
              eq_refl eq_refl eq_refl Hne)
    as (T1 & _ & T2 & _ & T4).
  split; [exact T1|]. split; [exact T2|exact T4].
Defined.

(** C1 as stated fails on a transcript file that is not empty but cannot
    be used: a file that is not UTF-8 text, and a file that may not be
    read, make the resolver call [fetch_youtube_transcript], return the
    remote text with source ["youtube"] and overwrite the file.  And the
    text of a file with a carriage return is returned with a line feed in
    its place. *)
Lemma local_file_not_returned :
  (let w := cached_world (File [255] true true)
              (Ok [text_segment (py "hello")]) in
   let out := @get_or_create_transcript sample_library (py "abc123")
                true true None w in
   fst out = Ok (Some (py "hello"),
                 {| video_id := py "abc123"; source := py "youtube";
                    saved_locally := true |})
   ∧ fetch_calls (snd out) = [(py "abc123", None)]
   ∧ files (snd out) !! Pathlib.str (transcript_file (py "abc123"))
     = Some (File (py "hello") true true))
  ∧ (let w := cached_world (File (py "hi") false true)
                (Ok [text_segment (py "hello")]) in
     let out := @get_or_create_transcript sample_library (py "abc123")
                  true true None w in
     fst out = Ok (Some (py "hello"),
                   {| video_id := py "abc123"; source := py "youtube";
                      saved_locally := true |})
     ∧ fetch_calls (snd out) = [(py "abc123", None)]
     ∧ files (snd out) !! Pathlib.str (transcript_file (py "abc123"))
       = Some (File (py "hello") false true))
  ∧ (let w := cached_world (File [97; 13; 98] true true)
                (Ok [text_segment (py "hello")]) in
     let out := @get_or_create_transcript sample_library (py "abc123")
                  true true None w in
     fst out = Ok (Some [97; 10; 98],
                   {| video_id := py "abc123"; source := py "local";
                      saved_locally := false |})
     ∧ fst out ≠ Ok (Some [97; 13; 98],
                     {| video_id := py "abc123"; source := py "local";
                        saved_locally := false |})).
Proof.
  cbv zeta. repeat split; try (vm_compute; reflexivity).
  vm_compute. discriminate.
Qed.

Lemma no_fallback_no_fetch_witness :
  let w := fresh_world (Ok [text_segment (py "hello")]) in
  let out := @get_or_create_transcript sample_library (py "abc123")
               false true None w in
  fst out = Ok (None, {| video_id := py "abc123"; source := py "none";
                         saved_locally := false |})
  ∧ fetch_calls (snd out) = [].
Proof.
  cbv zeta.
  assert (Hstat : can_stat (fresh_world (Ok [text_segment (py "hello")]))
                    (transcript_file (py "abc123"))).
  { unfold can_stat. vm_compute. discriminate. }
  assert (Hno : no_local_transcript (py "abc123")
                  (fresh_world (Ok [text_segment (py "hello")]))).
  { intros content wr text. vm_compute. discriminate. }
  destruct (@no_fallback_no_fetch sample_library
              (py "abc123") (py "abc123") true None
              (fresh_world (Ok [text_segment (py "hello")]))
              eq_refl Hstat Hno)
    as (T1 & T2 & _).
  split; [exact T1|exact T2].
Defined.

(** C7 as stated fails where the transcript path cannot be examined (a
    name that is too long, a directory that may not be searched): the
    store holds no transcript for the identifier, and the resolver with the
    fallback disabled raises [OSError], [path.exists()] being called
    outside the [try] of [load_local_transcript]. *)
Lemma unexamined_path_raises :
  let w := cached_world Denied (Ok [text_segment (py "hello")]) in
  no_local_transcript (py "abc123") w
  ∧ load_local_transcript (py "abc123") w = (Raise OSError, w)
  ∧ @get_or_create_transcript sample_library (py "abc123")
      false true None w = (Raise OSError, w).
Proof.
  cbv zeta. split; [|split; vm_compute; reflexivity].
  intros content wr text. vm_compute. discriminate.
Qed.

Lemma saved_locally_records_attempt_witness :
  let w := fresh_world (Ok [text_segment (py "hello")]) in
  let out := @get_or_create_transcript sample_library (py "abc123")
               true true None w in
  let meta := {| video_id := py "abc123"; source := py "youtube";
                 saved_locally := true |} in
  fst out = Ok (Some (py "hello"), meta)
  ∧ (saved_locally meta = true ↔ source meta = py "youtube" ∧ true = true).
Proof.
  intros w out meta.
  assert (E : fst out = Ok (Some (py "hello"), meta))
    by (vm_compute; reflexivity).
  split; [exact E|].
  apply (proj1 (@saved_locally_records_attempt sample_library)
           (py "abc123") true true None w (Some (py "hello")) meta (snd out)).
  fold out. rewrite <- E. destruct out as [r w']. reflexivity.
Defined.

(** ** The index reader *)

Section IndexReader.
Context `{PyLib}.


End IndexReader.


(** ** The serialised index is ASCII *)

Lemma encode_ascii s : Forall (λ c, c < 128) s → Utf8.encode s = Some s.
Proof.
  induction 1 as [|c s Hc _ IH]; [reflexivity|].
  cbn [Utf8.encode]. rewrite IH. unfold Utf8.encode_char.
  destruct (N.ltb_spec c 0x80); [reflexivity|lia].
Qed.

Lemma hex_digit_ascii n : Json.hex_digit (n mod 16) < 128.
Proof.
  unfold Json.hex_digit. destruct (N.ltb_spec (n mod 16) 10); dlia.
Qed.

Lemma u_escape_ascii n : Forall (λ c, c < 128) (Json.u_escape n).
Proof.
  unfold Json.u_escape.
  repeat (constructor; [first [apply hex_digit_ascii | cbn; lia]|]).
  constructor.
Qed.

Lemma pair_ascii a b : a < 128 → b < 128 → Forall (λ c, c < 128) [a; b].
Proof. intros. repeat constructor; assumption. Qed.

Lemma escape_char_ascii c : Forall (λ c, c < 128) (Json.escape_char c).
Proof.
  unfold Json.escape_char.
  destruct (c =? 34); [apply pair_ascii; reflexivity|].
  destruct (c =? 92); [apply pair_ascii; reflexivity|].
  destruct (c =? 10); [apply pair_ascii; reflexivity|].
  destruct (c =? 13); [apply pair_ascii; reflexivity|].
  destruct (c =? 9); [apply pair_ascii; reflexivity|].
  destruct (c =? 8); [apply pair_ascii; reflexivity|].
  destruct (c =? 12); [apply pair_ascii; reflexivity|].
  destruct (N.leb_spec 32 c); destruct (N.leb_spec c 126); cbn [andb];
    try (constructor; [lia|constructor]);
    (destruct (c <? 65536);
     [apply u_escape_ascii|apply Forall_app; split; apply u_escape_ascii]).
Qed.

Lemma dumps_str_ascii s : Forall (λ c, c < 128) (Json.dumps_str s).
Proof.
  unfold Json.dumps_str. apply Forall_app. split; [repeat constructor|].
  apply Forall_app. split; [|repeat constructor].
  induction s as [|c s IH]; cbn; [constructor|].
  apply Forall_app. split; [apply escape_char_ascii|exact IH].
Qed.

Lemma join_ascii sep parts :
  Forall (λ c, c < 128) sep → Forall (Forall (λ c, c < 128)) parts →
  Forall (λ c, c < 128) (Str.join sep parts).
Proof.
  intros Hsep. induction 1 as [|p ps Hp Hps IH]; cbn; [constructor|].
  destruct ps; [exact Hp|].
  apply Forall_app. split; [exact Hp|].
  apply Forall_app. split; [exact Hsep|exact IH].
Qed.

Lemma literal_ascii (s : string) :
  forallb (λ c, c <? 128) (py s) = true → Forall (λ c, c < 128) (py s).
Proof.
  intros Hs. apply Forall_forall. intros c Hc.
  rewrite forallb_forall in Hs. apply list_elem_of_In in Hc.
  apply N.ltb_lt. apply Hs. exact Hc.
Qed.

Lemma newline_indent_ascii n : Forall (λ c, c < 128) (Json.newline_indent n).
Proof.
  unfold Json.newline_indent. constructor; [lia|].
  induction n as [|n IH]; cbn; [constructor|].
  repeat (constructor; [lia|]). exact IH.
Qed.

Lemma dumps_entry_ascii e : Forall (λ c, c < 128) (Json.dumps_entry e).
Proof.
  unfold Json.dumps_entry.
  repeat first
    [ apply newline_indent_ascii
    | apply dumps_str_ascii
    | apply literal_ascii; reflexivity
    | apply join_ascii
    | apply Forall_app; split
    | apply Forall_cons; split
    | apply Forall_nil ].
  - unfold Json.dumps_optional_str. destruct (transcript_path e);
      [apply dumps_str_ascii|apply literal_ascii; reflexivity].
  - exact I.
Qed.

Lemma dumps_index_ascii index : Forall (λ c, c < 128) (Json.dumps_index index).
Proof.
  unfold Json.dumps_index. destruct index as [|e index].
  - apply literal_ascii. reflexivity.
  - repeat first
      [ apply newline_indent_ascii
      | apply literal_ascii; reflexivity
      | apply Forall_app; split ].
    apply join_ascii.
    + apply Forall_app. split;
        [apply literal_ascii; reflexivity|apply newline_indent_ascii].
    + apply Forall_forall. intros x Hx. apply list_elem_of_In in Hx.
      apply in_map_iff in Hx as (e' & <- & _). apply dumps_entry_ascii.
Qed.

(** ** The preloader's loops *)

Lemma same_index_refl w : same_index w w.
Proof. split; reflexivity. Qed.

Lemma same_index_trans w1 w2 w3 :
  same_index w1 w2 → same_index w2 w3 → same_index w1 w3.
Proof. intros [? ?] [? ?]. split; congruence. Qed.

Lemma same_index_add_log r w : same_index w (add_log r w).
Proof. split; reflexivity. Qed.

Lemma sleep_run secs w :
  sleep_accepted w secs → sleep secs w = (Ok (), add_slept secs w).
Proof. intros [He Hn]. unfold sleep. rewrite He, Hn. reflexivity. Qed.

Section Loops.
Context `{PyLib}.

(** The resolver returns whenever the identifier can be extracted and
    its transcript path examined, and leaves the index file and the
    platform alone. *)
Lemma resolver_returns ref vid fb sd languages w :
  extract_video_id ref = Ok vid →
  can_stat w (transcript_file vid) →
  ∃ t m w',
    get_or_create_transcript ref fb sd languages w = (Ok (t, m), w')
    ∧ video_id m = vid ∧ same_index w w' ∧ same_platform w w'.
Proof.
  intros Hid Hstat.
  destruct (local_or_miss vid w) as [(c & t & Hl)|Hmiss].
  - assert (Hne : c :: t ≠ []) by discriminate.
    rewrite (resolver_local_run _ _ _ _ _ _ _ Hid Hl Hne).
    eexists _, _, _. split; [reflexivity|].
    split; [reflexivity|].
    split; [apply same_index_refl|apply same_platform_refl].
  - rewrite (resolver_miss_run _ _ _ _ _ _ Hid Hstat Hmiss).
    cbv zeta.
    destruct (load_local_transcript_frame vid w) as (Hf1 & Hc1 & _).
    pose proof (load_local_transcript_platform vid w) as P1.
    set (w1 := snd (load_local_transcript vid w)) in *.
    assert (S1 : same_index w w1) by (split; congruence).
    destruct fb.
    2:{ eexists _, _, _. split; [reflexivity|]. auto. }
    destruct (fetch_youtube_transcript_frame vid languages w1)
      as (Hf2 & Hc2 & _).
    pose proof (fetch_youtube_transcript_platform vid languages w1) as P2.
    pose proof (fetch_youtube_transcript_fetched vid languages w1) as Hne.
    destruct (fetch_youtube_transcript vid languages w1) as [r w2].
    cbn [fst snd] in *.
    assert (S2 : same_index w w2).
    { apply (same_index_trans _ w1); [exact S1|]. split; congruence. }
    assert (P12 : same_platform w w2)
      by (apply (same_platform_trans _ w1); assumption).
    destruct r as [[[|c t]|]|e]; cbn in Hne; try contradiction.
    + destruct sd.
      * eexists _, _, _. split; [reflexivity|]. split; [reflexivity|].
        split.
        -- apply (same_index_trans _ w2); [exact S2|].
           destruct (save_local_transcript_run vid (c :: t) w2)
             as (_ & Hf3 & Hc3 & _).
           destruct (write_text_other (transcript_file vid) (c :: t) w2
                       (Pathlib.str index_path)) as (Hf4 & _).
           { intros E. exact (transcript_file_not_index vid (eq_sym E)). }
           split; congruence.
        -- apply (same_platform_trans _ w2); [exact P12|].
           apply save_local_transcript_platform.
      * eexists _, _, _. split; [reflexivity|]. auto.
    + eexists _, _, _. split; [reflexivity|]. auto.
Qed.

Lemma preload_entry_run collection v fb delay w u vid :
  v !! py "url" = Some u →
  extract_video_id u = Ok vid →
  can_stat w (transcript_file vid) →
  sleep_accepted w delay →
  ∃ e w',
    preload_entry collection v fb delay w = (Ok e, w')
    ∧ describes e (collection, v) ∧ same_index w w'
    ∧ same_platform w w'.
Proof.
  intros Hu Hid Hstat Hs.
  destruct (resolver_returns u vid fb true None w Hid Hstat)
    as (t & m & w1 & Hrun & Hm & S1 & P1).
  unfold preload_entry. unfold_M.
  rewrite Hu, Hrun. cbn. rewrite Hm.
  rewrite (path_exists_run _ w1 (same_platform_can_stat _ _ _ P1 Hstat)).
  rewrite (sleep_run _ _ (same_platform_sleep _ _ _ P1 Hs)).
  eexists _, _. split; [reflexivity|].
  split; [|split].
  - unfold describes. cbn. auto.
  - apply (same_index_trans _ w1); [exact S1|]. split; reflexivity.
  - apply (same_platform_trans _ w1); [exact P1|].
    apply same_platform_files; reflexivity.
Qed.

End Loops.

(** The loops keep what the loop body keeps.  [P] is what is asked of a
    catalog entry, [Q] what is said of its index entry, and [R n] how the
    environment after [n] entries relates to the one before; [w0] is the
    environment the preloader starts from. *)
Section PreloadInvariant.
Context `{PyLib}.
Variable fb : bool.
Variable delay : pyfloat.
Variable w0 : world.
Variable P : pystr * video → Prop.
Variable Q : pystr * video → IndexEntry → Prop.
Variable R : nat → world → world → Prop.
Hypothesis R_refl : ∀ w, R 0 w w.
Hypothesis R_trans :
  ∀ n m w1 w2 w3, R n w1 w2 → R m w2 w3 → R (n + m) w1 w3.
Hypothesis R_log : ∀ r w, R 0 w (add_log r w).
Hypothesis R_platform : ∀ n w w', R n w w' → same_platform w w'.
Hypothesis entry_ok :
  ∀ collection v w, same_platform w0 w → P (collection, v) →
    ∃ e w', preload_entry collection v fb delay w = (Ok e, w')
            ∧ Q (collection, v) e ∧ R 1 w w'.

Lemma preload_videos_inv collection videos index w :
  same_platform w0 w →
  Forall P (List.map (pair collection) videos) →
  ∃ es w',
    preload_videos collection videos fb delay index w
      = (Ok (index ++ es), w')
    ∧ Forall2 (λ e cv, Q cv e) es (List.map (pair collection) videos)
    ∧ R (length videos) w w'.
Proof.
  revert index w.
  induction videos as [|v videos IH]; intros index w Hw Hall.
  - exists [], w. cbn. rewrite app_nil_r. auto.
  - cbn [List.map] in Hall. apply Forall_cons in Hall as [Hv Hall].
    destruct (entry_ok collection v w Hw Hv) as (e & w1 & He & Hq & Hr).
    assert (Hw1 : same_platform w0 w1).
    { apply (same_platform_trans _ w); [exact Hw|].
      exact (R_platform _ _ _ Hr). }
    destruct (IH (index ++ [e]) w1 Hw1 Hall)
      as (es & w2 & Hes & Hqs & Hrs).
    exists (e :: es), w2. cbn [preload_videos]. unfold_M.
    rewrite He, Hes, <- app_assoc.
    split; [reflexivity|]. split.
    + cbn. constructor; assumption.
    + change (length (v :: videos)) with (1 + length videos)%nat.
      exact (R_trans _ _ _ _ _ Hr Hrs).
Qed.

Lemma preload_collections_inv curated_map index w :
  same_platform w0 w →
  Forall P (catalog_entries curated_map) →
  ∃ es w',
    preload_collections curated_map fb delay index w
      = (Ok (index ++ es), w')
    ∧ Forall2 (λ e cv, Q cv e) es (catalog_entries curated_map)
    ∧ R (length (catalog_entries curated_map)) w w'.
Proof.
  revert index w.
  induction curated_map as [|[collection videos] rest IH];
    intros index w Hw Hall.
  - exists [], w. cbn. rewrite app_nil_r. auto.
  - cbn [catalog_entries flat_map] in *.
    apply Forall_app in Hall as [Hvs Hrest].
    set (w1 := add_log (INFO_processing collection (length videos)) w).
    assert (Hw1 : same_platform w0 w1).
    { apply (same_platform_trans _ w); [exact Hw|].
      apply same_platform_add_log. }
    destruct (preload_videos_inv collection videos index w1 Hw1 Hvs)
      as (es1 & w2 & He1 & Hq1 & Hr1).
    assert (Hw2 : same_platform w0 w2).
    { apply (same_platform_trans _ w1); [exact Hw1|].
      exact (R_platform _ _ _ Hr1). }
    destruct (IH (index ++ es1) w2 Hw2 Hrest)
      as (es2 & w3 & He2 & Hq2 & Hr2).
    exists (es1 ++ es2), w3. cbn [preload_collections]. unfold_M.
    fold w1. rewrite He1, He2, <- app_assoc.
    split; [reflexivity|]. split.
    + apply Forall2_app; assumption.
    + rewrite length_app, length_map.
      apply (R_trans _ _ _ _ _
               (R_trans 0 _ _ _ _ (R_log _ w) Hr1) Hr2).
Qed.

End PreloadInvariant.

Section LoopsRun.
Context `{PyLib}.

Lemma preload_collections_run curated_map fb delay w :
  Forall (resolvable w) (catalog_entries curated_map) →
  sleep_accepted w delay →
  ∃ index w',
    preload_collections curated_map fb delay [] w = (Ok index, w')
    ∧ Forall2 describes index (catalog_entries curated_map)
    ∧ same_index w w' ∧ same_platform w w'.
Proof.
  intros Hall Hs.
  destruct (preload_collections_inv fb delay w (resolvable w)
              (λ cv e, describes e cv)
              (λ _ w1 w2, same_index w1 w2 ∧ same_platform w1 w2))
    with (curated_map := curated_map) (index := @nil IndexEntry) (w := w)
    as (es & w' & Hrun & Hd & S1 & P1).
  - intros w1. split; [apply same_index_refl|apply same_platform_refl].
  - intros _ _ w1 w2 w3 [S12 P12] [S23 P23]. split.
    + apply (same_index_trans _ w2); assumption.
    + apply (same_platform_trans _ w2); assumption.
  - intros r w1.
    split; [apply same_index_add_log|apply same_platform_add_log].
  - intros _ w1 w2 [_ P12]. exact P12.
  - intros collection v w1 Hw1 (u & vid & Hu & Hid & Hstat).
    cbn [snd] in Hu.
    destruct (preload_entry_run collection v fb delay w1 u vid Hu Hid
                (same_platform_can_stat _ _ _ Hw1 Hstat)
                (same_platform_sleep _ _ _ Hw1 Hs))
      as (e & w2 & He & Hd & S12 & P12).
    exists e, w2. auto.
  - apply same_platform_refl.
  - exact Hall.
  - exists es, w'. auto.
Qed.

End LoopsRun.

(** ** The bulk preloader *)

Lemma write_index_run index w :
  index_writable w →
  ∃ r w',
    write_text index_path (Json.dumps_index index) w = (Ok (), w')
    ∧ files w' !! Pathlib.str index_path
      = Some (File (Json.dumps_index index) r true)
    ∧ log w' = log w.
Proof.
  unfold index_writable, write_text, open_w, put_content. unfold_M.
  rewrite (encode_ascii _ (dumps_index_ascii index)).
  destruct (files w !! Pathlib.str index_path) as [[c r []| |]|];
    try contradiction.
  - intros _. cbn. rewrite lookup_insert_eq. cbn.
    eexists _, _. split; [reflexivity|]. cbn.
    rewrite lookup_insert_eq. auto.
  - intros ->. cbn. rewrite lookup_insert_eq. cbn.
    eexists _, _. split; [reflexivity|]. cbn.
    rewrite lookup_insert_eq. auto.
Qed.

Section Preloader.
Context `{PyLib}.

(** C3, as amended: when every catalog entry has a URL from which the
    identifier extractor returns an identifier whose transcript path can
    be examined, [time.sleep] accepts the delay whenever it is asked, and
    the index file can be opened for writing, the preloader returns a
    sequence with exactly one index entry per catalog entry, in the order
    of the catalog (collections in map order, entries in list order), each
    with the collection, title and URL of its catalog entry, and the index
    file holds the serialisation of that sequence. *)
Theorem preload_index_follows_catalog
    (curated_map : catalog) (use_youtube_fallback : bool)
    (delay_seconds : pyfloat) (w : world) :
  Forall (resolvable w) (catalog_entries curated_map) →
  sleep_accepted w delay_seconds →
  index_writable w →
  ∃ index w' r,
    preload_curated_transcripts curated_map use_youtube_fallback
      delay_seconds w = (Ok index, w')
    ∧ length index = length (catalog_entries curated_map)
    ∧ Forall2 describes index (catalog_entries curated_map)
    ∧ files w' !! Pathlib.str index_path
      = Some (File (Json.dumps_index index) r true).
Proof.
  intros Hall Hs Hw.
  destruct (preload_collections_run curated_map use_youtube_fallback
              delay_seconds w Hall Hs)
    as (index & w1 & Hloop & Hd & [Hf1 Hc1] & _).
  assert (Hw1 : index_writable w1).
  { unfold index_writable in *. rewrite Hf1, Hc1. exact Hw. }
  destruct (write_index_run index w1 Hw1) as (r & w2 & Hwr & Hfile & _).
  exists index, (add_log (INFO_saved_index (length index)) w2), r.
  split.
  - unfold preload_curated_transcripts. unfold_M.
    rewrite Hloop, Hwr. reflexivity.
  - split; [exact (Forall2_length _ _ _ Hd)|].
    split; [exact Hd|exact Hfile].
Qed.

End Preloader.

Lemma preload_index_follows_catalog_witness :
  length (catalog_entries curated_videos) = 28%nat
  ∧ ∃ index w' r,
      @preload_curated_transcripts sample_library curated_videos false
        (FFinite (3 # 2)) (fresh_world (Ok [])) = (Ok index, w')
      ∧ length index = length (catalog_entries curated_videos)
      ∧ Forall2 describes index (catalog_entries curated_videos)
      ∧ files w' !! Pathlib.str index_path
        = Some (File (Json.dumps_index index) r true).
Proof.
  split; [reflexivity|].
  apply (@preload_index_follows_catalog sample_library).
  - repeat (constructor;
            [eexists _, _; split; [reflexivity|];
             split; [vm_compute; reflexivity|];
             unfold can_stat; cbn; rewrite lookup_empty; discriminate|]).
    constructor.
  - split; [reflexivity|]. intros n. reflexivity.
  - reflexivity.
Defined.

(** C3 as stated fails on a catalog whose URL cannot be parsed: the
    preloader raises, returns no sequence and writes no index file.  It
    raises as well when the delay is negative, when the index file cannot
    be written, when the transcript path of an entry cannot be examined,
    and when the operating system refuses a delay that Python accepts. *)
Lemma preload_can_raise :
  (let out := @preload_curated_transcripts sample_library bracket_catalog true
                (FFinite (3 # 2)) (fresh_world (Ok [])) in
   length (catalog_entries bracket_catalog) = 1%nat
   ∧ fst out = Raise ValueError
   ∧ files (snd out) !! Pathlib.str index_path = None)
  ∧ (let out := @preload_curated_transcripts sample_library scenario_catalog
                  false (FFinite (-1 # 1)) (fresh_world (Ok [])) in
     fst out = Raise ValueError
     ∧ files (snd out) !! Pathlib.str index_path = None)
  ∧ (let out := @preload_curated_transcripts sample_library scenario_catalog
                  false (FFinite (3 # 2)) (readonly_world (Ok [])) in
     fst out = Raise OSError
     ∧ files (snd out) !! Pathlib.str index_path = None)
  ∧ (let out := @preload_curated_transcripts sample_library scenario_catalog
                  false (FFinite (3 # 2)) (cached_world Denied (Ok [])) in
     fst out = Raise OSError
     ∧ files (snd out) !! Pathlib.str index_path = None)
  ∧ (let out := @preload_curated_transcripts sample_library scenario_catalog
                  false (FFinite (9223372036 # 1)) (fresh_world (Ok [])) in
     sleep_argument_error (FFinite (9223372036 # 1)) = None
     ∧ fst out = Raise OSError
     ∧ files (snd out) !! Pathlib.str index_path = None).
Proof.
  cbv zeta. repeat split; vm_compute; reflexivity.
Qed.

(** ** Searching and cutting strings *)

Lemma has_app c a b : Str.has c (a ++ b) = Str.has c a || Str.has c b.
Proof. unfold Str.has. apply existsb_app. Qed.

Lemma has_false_not_in c s : Str.has c s = false → c ∉ s.
Proof.
  intros Hh Hin. apply list_elem_of_In in Hin.
  assert (Str.has c s = true); [|congruence].
  unfold Str.has. apply existsb_exists. exists c.
  split; [exact Hin|apply N.eqb_refl].
Qed.

(** A string free of the characters [chars] has none of them. *)
Lemma none_of_has chars s c :
  Str.none_of chars s = true → Str.has c chars = true → Str.has c s = false.
Proof.
  unfold Str.none_of. intros Hn Hc.
  destruct (Str.has c s) eqn:E; [|reflexivity].
  unfold Str.has in E. apply existsb_exists in E as (x & Hx & Hcx).
  apply N.eqb_eq in Hcx. subst x.
  rewrite forallb_forall in Hn. specialize (Hn c Hx).
  rewrite Hc in Hn. discriminate.
Qed.

Lemma none_of_app chars a b :
  Str.none_of chars (a ++ b) = Str.none_of chars a && Str.none_of chars b.
Proof. unfold Str.none_of. apply forallb_app. Qed.

Lemma find_none c s : Str.has c s = false → Str.find c s = None.
Proof.
  induction s as [|a s IH]; [reflexivity|].
  cbn. rewrite (N.eqb_sym c a).
  destruct (a =? c); cbn; [discriminate|].
  intros Hs. rewrite IH by exact Hs. reflexivity.
Qed.

Lemma find_app c a b :
  Str.has c a = false →
  Str.find c (a ++ b) = Nat.add (length a) <$> Str.find c b.
Proof.
  induction a as [|x a IH]; cbn.
  - intros _. destruct (Str.find c b); reflexivity.
  - rewrite (N.eqb_sym c x). destruct (x =? c); cbn; [discriminate|].
    intros Ha. rewrite IH by exact Ha.
    destruct (Str.find c b); reflexivity.
Qed.

Lemma find_here c a b :
  Str.has c a = false → Str.find c (a ++ c :: b) = Some (length a).
Proof.
  intros Ha. rewrite find_app by exact Ha. cbn.
  rewrite N.eqb_refl. cbn. f_equal. lia.
Qed.

Lemma split1_cut c a b :
  Str.has c a = false → Str.split1 c (a ++ c :: b) = [a; b].
Proof.
  intros Ha. unfold Str.split1. rewrite find_here by exact Ha.
  rewrite take_app_length.
  change (a ++ c :: b) with (a ++ [c] ++ b).
  rewrite app_assoc.
  replace (S (length a)) with (length (a ++ [c]))
    by (rewrite length_app; cbn; lia).
  rewrite drop_app_length. reflexivity.
Qed.

Lemma split1_whole c s : Str.has c s = false → Str.split1 c s = [s].
Proof.
  intros Hs. unfold Str.split1. rewrite find_none by exact Hs. reflexivity.
Qed.

Lemma remove_id c s : Str.has c s = false → Str.remove c s = s.
Proof.
  unfold Str.has, Str.remove.
  induction s as [|a s IH]; [reflexivity|].
  cbn. rewrite (N.eqb_sym c a).
  destruct (a =? c); cbn; [discriminate|].
  intros Hs. rewrite IH by exact Hs. reflexivity.
Qed.

Lemma replace_id a b s : Str.has a s = false → Str.replace a b s = s.
Proof.
  unfold Str.has, Str.replace.
  induction s as [|x s IH]; [reflexivity|].
  cbn. rewrite (N.eqb_sym a x).
  destruct (x =? a); cbn; [discriminate|].
  intros Hs. rewrite IH by exact Hs. reflexivity.
Qed.

Lemma split_app sep a b :
  Str.split sep (a ++ sep :: b) = Str.split sep a ++ Str.split sep b.
Proof.
  induction a as [|x a IH]; cbn [app Str.split].
  - rewrite N.eqb_refl. reflexivity.
  - rewrite IH. destruct (x =? sep); [reflexivity|].
    destruct (Str.split sep a) eqn:E; [|reflexivity].
    destruct a; cbn in E; [discriminate|].
    destruct (n =? sep); [discriminate|].
    destruct (Str.split sep a); discriminate.
Qed.

Lemma startswith_app sub s b :
  Str.startswith sub s = true → Str.startswith sub (s ++ b) = true.
Proof.
  revert s. induction sub as [|x sub IH]; intros s; [reflexivity|].
  destruct s as [|y s]; cbn; [discriminate|].
  destruct (x =? y); cbn; [apply IH|discriminate].
Qed.

Lemma contains_app_l sub s b :
  Str.contains sub s = true → Str.contains sub (s ++ b) = true.
Proof.
  induction s as [|y s IH]; cbn [Str.contains app].
  - rewrite orb_false_r. intros Hs.
    destruct sub; [|discriminate]. destruct b; reflexivity.
  - intros Hs. apply orb_true_iff in Hs as [Hs|Hs].
    + change (y :: s ++ b) with ((y :: s) ++ b).
      rewrite startswith_app by exact Hs. reflexivity.
    + rewrite IH by exact Hs. apply orb_true_r.
Qed.

Lemma contains_app_r sub a s :
  Str.contains sub s = true → Str.contains sub (a ++ s) = true.
Proof.
  intros Hs. induction a as [|x a IH]; [exact Hs|].
  cbn [app Str.contains]. rewrite IH. apply orb_true_r.
Qed.

(** ** Splitting a URL *)

Lemma find_from_app c pre s :
  Str.find_from c (pre ++ s) (length pre)
  = Nat.add (length pre) <$> Str.find c s.
Proof.
  unfold Str.find_from. rewrite drop_app_length.
  destruct (decide (length pre ≤ length (pre ++ s))%nat) as [_|Hn];
    [reflexivity|].
  rewrite length_app in Hn. lia.
Qed.

(** The host of [//host tail] ends where [tail] starts, when [tail] is
    empty or starts with one of [/], [?], [#] and the host has none of
    them. *)
Lemma splitnetloc_host host tail :
  Str.none_of (py "/?#") host = true →
  (tail = [] ∨ ∃ c t, tail = c :: t ∧ Str.has c (py "/?#") = true) →
  Url.splitnetloc (py "//" ++ host ++ tail) 2 = (host, tail).
Proof.
  intros Hhost Htail. unfold Url.splitnetloc.
  literals.
  assert (Hfind : ∀ c, Str.has c [47; 63; 35] = true →
            Str.find_from c ([47; 47] ++ host ++ tail) 2
            = Nat.add (2 + length host) <$> Str.find c tail).
  { intros c Hc.
    pose proof (find_from_app c [47; 47] (host ++ tail)) as E.
    change (length [47; 47]) with 2%nat in E. rewrite E.
    rewrite find_app by (eapply none_of_has; eassumption).
    destruct (Str.find c tail); reflexivity. }
  assert (Hdelim :
    fold_left
      (λ delim c,
         match Str.find_from c ([47; 47] ++ host ++ tail) 2 with
         | Some wdelim => Nat.min delim wdelim
         | None => delim
         end)
      [47; 63; 35] (length ([47; 47] ++ host ++ tail))
    = (2 + length host)%nat).
  { cbn [fold_left].
    rewrite !Hfind by reflexivity.
    rewrite !length_app. cbn [length].
    destruct Htail as [->|(c & t & -> & Hc)].
    - cbn. lia.
    - cbn [Str.find length].
      cbn in Hc. rewrite !orb_false_r in Hc.
      destruct (N.eqb_spec c 47) as [->|H1].
      { cbn. destruct (Str.find _ t); destruct (Str.find _ t); cbn; lia. }
      destruct (N.eqb_spec c 63) as [->|H2].
      { cbn. destruct (Str.find _ t); cbn; destruct (Str.find _ t); cbn; lia. }
      destruct (N.eqb_spec c 35) as [->|H3].
      { cbn. destruct (Str.find _ t); cbn; destruct (Str.find _ t); cbn; lia. }
      discriminate. }
  rewrite Hdelim.
  cbn [app take drop Nat.add]. rewrite take_app_length, drop_app_length.
  reflexivity.
Qed.

(** ** The parts of a well-formed watch URL *)

Lemma well_formed_parts u :
  well_formed_watch_url u = true →
  (∃ a sch, wu_scheme u = a :: sch ∧ Url.ascii_alpha a = true)
  ∧ forallb Url.scheme_char (wu_scheme u) = true
  ∧ Str.contains (py "youtube.com") (wu_host u) = true
  ∧ Str.isascii (wu_host u) = true
  ∧ Str.none_of (py "/?#[]") (wu_host u) = true
  ∧ empty_or_starts (ch "/") (wu_path u) = true
  ∧ Str.none_of (py "?#") (wu_path u) = true
  ∧ empty_or_ends (ch "&") (wu_before u) = true
  ∧ Str.none_of (py "#") (wu_before u) = true
  ∧ existsb (Str.eqb (py "v"))
      (List.map fst (Url.parse_qsl (wu_before u))) = false
  ∧ wu_id u ≠ []
  ∧ Str.none_of (py "&#+%") (wu_id u) = true
  ∧ empty_or_starts (ch "&") (wu_after u) = true
  ∧ Str.none_of (py "#") (wu_after u) = true
  ∧ empty_or_starts (ch "#") (wu_fragment u) = true
  ∧ Str.none_of [9; 10; 13] (watch_url u) = true.
Proof.
  unfold well_formed_watch_url. rewrite !andb_true_iff, !negb_true_iff.
  intros ((((((((((((((((H1 & H2) & H3) & H4) & H5) & H6) & H7) & H8) & H9)
    & H10) & H11) & H12) & H13) & H14) & H15) & H16) & H17).
  repeat split; try assumption.
  - destruct (wu_scheme u) as [|a sch].
    + unfold Str.eqb in H2. rewrite bool_decide_eq_true_2 in H2 by reflexivity.
      discriminate.
    + exists a, sch. cbn in H1. rewrite andb_true_r in H1. auto.
  - intros E. unfold Str.eqb in H12.
    rewrite bool_decide_eq_true_2 in H12 by exact E. discriminate.
Qed.

Lemma alpha_not_control c :
  Url.ascii_alpha c = true → Url.c0_control_or_space c = false.
Proof.
  unfold Url.ascii_alpha, Url.c0_control_or_space. intros Hc.
  apply N.leb_gt.
  apply orb_true_iff in Hc as [Hc|Hc]; apply andb_true_iff in Hc as [Hc _];
    apply N.leb_le in Hc; lia.
Qed.

Lemma scheme_has_no_colon s :
  forallb Url.scheme_char s = true → Str.has (ch ":") s = false.
Proof.
  intros Hs. destruct (Str.has (ch ":") s) eqn:E; [|reflexivity].
  unfold Str.has in E. apply existsb_exists in E as (x & Hx & Hcx).
  apply N.eqb_eq in Hcx. subst x.
  rewrite forallb_forall in Hs. specialize (Hs _ Hx).
  vm_compute in Hs. discriminate.
Qed.

Lemma drop_after {A} (l : list A) c rest :
  drop (S (length l)) (l ++ c :: rest) = rest.
Proof.
  change (l ++ c :: rest) with (l ++ [c] ++ rest). rewrite app_assoc.
  replace (S (length l)) with (length (l ++ [c]))
    by (rewrite length_app; cbn; lia).
  apply drop_app_length.
Qed.

Section WatchUrls.
Context `{PyLib}.
Lemma urlsplit_watch u :
well_formed_watch_url u = true →
∃ r, Url.urlsplit (watch_url u) = Ok r
     ∧ Url.s_netloc r = wu_host u ∧ Url.s_query r = watch_query u.
Proof.
intros Hwf.
destruct (well_formed_parts u Hwf)
  as ((a & sch & Hsch & Ha) & Hchars & Hyt & Hascii & Hhost & Hpath0 & Hpath
      & Hbefore0 & Hbefore & Hnov & Hid & Hidc & Hafter0 & Hafter & Hfrag0
      & Hclean).
unfold Url.urlsplit.
(* nothing to strip, nothing to remove *)
rewrite (lstrip_id Url.c0_control_or_space (watch_url u)).
2:{ unfold watch_url. rewrite Hsch. cbn. intros c [= <-].
    apply alpha_not_control. exact Ha. }
assert (H9 : Str.has 9 (watch_url u) = false)
  by (apply (none_of_has [9; 10; 13]); [exact Hclean|reflexivity]).
assert (H10 : Str.has 10 (watch_url u) = false)
  by (apply (none_of_has [9; 10; 13]); [exact Hclean|reflexivity]).
assert (H13 : Str.has 13 (watch_url u) = false)
  by (apply (none_of_has [9; 10; 13]); [exact Hclean|reflexivity]).
rewrite (remove_id 9), (remove_id 13), (remove_id 10) by assumption.
(* the scheme *)
assert (Hurl : watch_url u
               = wu_scheme u ++ 58 :: ([47; 47] ++ wu_host u
                   ++ (wu_path u ++ 63 :: watch_query u ++ wu_fragment u))).
{ unfold watch_url. literals. reflexivity. }
rewrite Hurl.
literals.
rewrite (find_here 58) by (apply scheme_has_no_colon; exact Hchars).
set (tail := wu_path u ++ 63 :: watch_query u ++ wu_fragment u) in *.
set (rest := [47; 47] ++ wu_host u ++ tail) in *.
assert (Hlen : length (wu_scheme u) = S (length sch))
  by (rewrite Hsch; reflexivity).
rewrite Hlen. cbv iota.
replace (take 1 (wu_scheme u ++ 58 :: rest)) with [a]
  by (rewrite Hsch; reflexivity).
rewrite <- Hlen, take_app_length, drop_after.
cbn [forallb]. rewrite Ha, Hchars. cbn [andb].
replace (Str.eqb (take 2 rest) [47; 47]) with true by reflexivity.
assert (Hnet : Url.splitnetloc rest 2 = (wu_host u, tail)).
{ pose proof (splitnetloc_host (wu_host u) tail) as E. literals.
  apply E.
  - unfold Str.none_of in *. rewrite forallb_forall in *.
    intros c Hc. specialize (Hhost c Hc).
    apply negb_true_iff in Hhost. apply negb_true_iff.
    unfold Str.has in *. cbn in *.
    destruct (c =? 47); [discriminate|].
    destruct (c =? 63); [discriminate|].
    destruct (c =? 35); [discriminate|]. reflexivity.
  - unfold tail. destruct (wu_path u) as [|p ps]; cbn.
    + right. exists 63, (watch_query u ++ wu_fragment u). auto.
    + cbn in Hpath0. apply N.eqb_eq in Hpath0. subst p.
      right. eexists _, _. split; [reflexivity|]. reflexivity. }
rewrite Hnet.
assert (Hlb : Str.has 91 (wu_host u) = false)
  by (apply (none_of_has [47; 63; 35; 91; 93]); [exact Hhost|reflexivity]).
assert (Hrb : Str.has 93 (wu_host u) = false)
  by (apply (none_of_has [47; 63; 35; 91; 93]); [exact Hhost|reflexivity]).
cbv zeta. rewrite Hlb, Hrb. cbn [andb orb negb rbind].
(* the fragment and the query *)
assert (Hquery : Str.has 35 (watch_query u) = false).
{ unfold watch_query. literals. rewrite !has_app.
  rewrite (none_of_has [35] (wu_before u) 35 Hbefore eq_refl).
  rewrite (none_of_has [38; 35; 43; 37] (wu_id u) 35 Hidc eq_refl).
  rewrite (none_of_has [35] (wu_after u) 35 Hafter eq_refl).
  reflexivity. }
assert (Hbody : Str.has 35 (wu_path u ++ 63 :: watch_query u) = false).
{ rewrite has_app.
  rewrite (none_of_has [63; 35] (wu_path u) 35 Hpath eq_refl).
  cbn. exact Hquery. }
assert (Hcut : ∃ f, (match Str.split1 35 tail with
                     | [u0; f0] => (u0, f0)
                     | _ => (tail, [])
                     end) = (wu_path u ++ 63 :: watch_query u, f)).
{ unfold tail. destruct (wu_fragment u) as [|c f].
  - exists []. rewrite app_nil_r.
    rewrite split1_whole by exact Hbody. reflexivity.
  - cbn in Hfrag0. apply N.eqb_eq in Hfrag0. subst c. exists f.
    change (wu_path u ++ 63 :: watch_query u ++ 35 :: f)
      with (wu_path u ++ (63 :: watch_query u) ++ 35 :: f).
    rewrite app_assoc.
    rewrite split1_cut by exact Hbody. reflexivity. }
destruct Hcut as (f & ->).
rewrite split1_cut
  by (apply (none_of_has [63; 35]); [exact Hpath|reflexivity]).
assert (Hcheck : Url.checknetloc (wu_host u) = true).
{ unfold Url.checknetloc. rewrite Hascii. destruct (wu_host u); reflexivity. }
rewrite Hcheck.
eexists. split; [reflexivity|]. split; reflexivity.
Qed.

Lemma urlparse_watch u :
  well_formed_watch_url u = true →
  ∃ r, Url.urlparse (watch_url u) = Ok r
       ∧ Url.netloc r = wu_host u ∧ Url.query r = watch_query u.
Proof.
  intros Hwf. destruct (urlsplit_watch u Hwf) as (r & Hr & Hn & Hq).
  unfold Url.urlparse. rewrite Hr. cbn [rbind].
  destruct (existsb _ _ && _).
  - destruct (Url.splitparams (Url.s_path r)).
    eexists. split; [reflexivity|]. cbn. auto.
  - eexists. split; [reflexivity|]. cbn. auto.
Qed.

End WatchUrls.

(** ** The query of a watch URL *)

Lemma parse_qsl_fields qs :
  Url.parse_qsl qs
  = concat (List.map Url.parse_field (Str.split (ch "&") qs)).
Proof. unfold Url.parse_qsl. destruct qs; reflexivity. Qed.

Lemma parse_qsl_app a b :
  Url.parse_qsl (a ++ ch "&" :: b) = Url.parse_qsl a ++ Url.parse_qsl b.
Proof.
  rewrite !parse_qsl_fields, split_app, List.map_app, concat_app.
  reflexivity.
Qed.

Lemma unquote_plain s : Str.has (ch "%") s = false → Url.unquote s = s.
Proof. intros Hs. unfold Url.unquote. rewrite Hs. reflexivity. Qed.

(** The field [v=X] yields the pair of [v] and [X] when [X] is not empty
    and needs no decoding. *)
Lemma parse_qsl_v X :
  X ≠ [] → Str.none_of (py "&#+%") X = true →
  Url.parse_qsl (py "v=" ++ X) = [(py "v", X)].
Proof.
  intros Hne Hx.
  assert (H38 : Str.has 38 X = false)
    by (apply (none_of_has (py "&#+%")); [exact Hx|reflexivity]).
  assert (H43 : Str.has 43 X = false)
    by (apply (none_of_has (py "&#+%")); [exact Hx|reflexivity]).
  assert (H37 : Str.has 37 X = false)
    by (apply (none_of_has (py "&#+%")); [exact Hx|reflexivity]).
  rewrite parse_qsl_fields. literals.
  rewrite split_none.
  2:{ apply has_false_not_in. cbn. exact H38. }
  cbn [List.map concat app]. rewrite app_nil_r.
  unfold Url.parse_field. cbn [app].
  change (118 :: 61 :: X) with ([118] ++ 61 :: X).
  literals. rewrite split1_cut by reflexivity.
  destruct X as [|c X]; [contradiction|].
  rewrite (replace_id 43 32 (c :: X)) by exact H43.
  rewrite (unquote_plain (c :: X)) by exact H37.
  reflexivity.
Qed.

Lemma ends_with_inv c s :
  empty_or_ends c s = true → s = [] ∨ ∃ s', s = s' ++ [c].
Proof.
  unfold empty_or_ends, empty_or_starts.
  destruct (rev s) as [|a r] eqn:E.
  - intros _. left. apply (f_equal (@rev N)) in E.
    rewrite rev_involutive in E. exact E.
  - intros Ha. apply N.eqb_eq in Ha. subst a. right. exists (rev r).
    apply (f_equal (@rev N)) in E. rewrite rev_involutive in E. exact E.
Qed.

Lemma starts_with_inv c s :
  empty_or_starts c s = true → s = [] ∨ ∃ s', s = c :: s'.
Proof.
  destruct s as [|a s]; [auto|]. cbn. intros Ha.
  apply N.eqb_eq in Ha. subst a. eauto.
Qed.

Lemma parse_qsl_watch u :
  well_formed_watch_url u = true →
  ∃ later,
    Url.parse_qsl (watch_query u)
    = Url.parse_qsl (wu_before u) ++ (py "v", wu_id u) :: later.
Proof.
  intros Hwf.
  destruct (well_formed_parts u Hwf)
    as (_ & _ & _ & _ & _ & _ & _ & Hbefore0 & _ & _ & Hid & Hidc & Hafter0
        & _).
  assert (Htail : ∃ later,
            Url.parse_qsl (py "v=" ++ wu_id u ++ wu_after u)
            = (py "v", wu_id u) :: later).
  { destruct (starts_with_inv _ _ Hafter0) as [->|(a' & ->)].
    - exists []. rewrite app_nil_r. apply parse_qsl_v; assumption.
    - exists (Url.parse_qsl a'). rewrite app_assoc, parse_qsl_app.
      rewrite parse_qsl_v by assumption. reflexivity. }
  destruct Htail as (later & Hlater). exists later.
  unfold watch_query.
  destruct (ends_with_inv _ _ Hbefore0) as [->|(b' & ->)].
  - cbn [app]. rewrite Hlater. reflexivity.
  - rewrite <- app_assoc. cbn [app].
    rewrite !parse_qsl_app, Hlater.
    change (Url.parse_qsl []) with (@nil (pystr * pystr)).
    rewrite app_nil_r. reflexivity.
Qed.

(** The values [parse_qs] collects for a name start with the value of the
    first pair of that name. *)
Lemma collect_other pairs m k :
  k ∉ List.map fst pairs → fold_left Url.collect pairs m !! k = m !! k.
Proof.
  revert m. induction pairs as [|[n v] pairs IH]; intros m Hk; [reflexivity|].
  cbn [fold_left]. rewrite IH.
  - unfold Url.collect.
    assert (n ≠ k).
    { intros ->. apply Hk. cbn. left. }
    destruct (m !! n); rewrite lookup_insert_ne by assumption; reflexivity.
  - intros Hin. apply Hk. cbn. right. exact Hin.
Qed.

Lemma collect_first pairs m k x l :
  m !! k = Some (x :: l) →
  ∃ l', fold_left Url.collect pairs m !! k = Some (x :: l').
Proof.
  revert m l. induction pairs as [|[n v] pairs IH]; intros m l Hm.
  - exists l. exact Hm.
  - cbn [fold_left]. unfold Url.collect at 2.
    destruct (decide (n = k)) as [->|Hne].
    + rewrite Hm. apply (IH _ (l ++ [v])). apply lookup_insert_eq.
    + destruct (m !! n); apply (IH _ l);
        rewrite lookup_insert_ne by assumption; exact Hm.
Qed.

Lemma parse_qs_watch u :
  well_formed_watch_url u = true →
  ∃ more, Url.parse_qs (watch_query u) !! py "v" = Some (wu_id u :: more).
Proof.
  intros Hwf.
  destruct (parse_qsl_watch u Hwf) as (later & Hq).
  destruct (well_formed_parts u Hwf)
    as (_ & _ & _ & _ & _ & _ & _ & _ & _ & Hnov & _).
  unfold Url.parse_qs. rewrite Hq, fold_left_app. cbn [fold_left].
  apply (collect_first later _ (py "v") (wu_id u) []).
  unfold Url.collect at 1.
  rewrite collect_other.
  - rewrite lookup_empty. apply lookup_insert_eq.
  - intros Hin. apply list_elem_of_In in Hin.
    assert (existsb (Str.eqb (py "v"))
              (List.map fst (Url.parse_qsl (wu_before u))) = true);
      [|congruence].
    apply existsb_exists. exists (py "v"). split; [exact Hin|].
    unfold Str.eqb. apply bool_decide_eq_true_2. reflexivity.
Qed.

(** ** The identifier extractor on a standard URL *)

Section StandardUrl.
Context `{PyLib}.

(** C5, as amended: for a URL [scheme://host/path?...v=X...] on the
    standard domain whose first query field named [v] is [v=X], where [X]
    is not empty and holds none of the characters [&], [#], [+] and [%]
    (and the URL no tab or line break), [extract_video_id] returns
    exactly [X]. *)
Theorem watch_url_identifier (u : WatchUrl) :
  well_formed_watch_url u = true →
  extract_video_id (watch_url u) = Ok (wu_id u).
Proof.
  intros Hwf.
  destruct (urlparse_watch u Hwf) as (r & Hr & Hn & Hq).
  destruct (parse_qs_watch u Hwf) as (more & Hv).
  destruct (well_formed_parts u Hwf) as (_ & _ & Hyt & _).
  unfold extract_video_id.
  assert (Hin : Str.contains (py "youtube.com") (watch_url u) = true).
  { unfold watch_url. apply contains_app_r, contains_app_r.
    apply contains_app_l. exact Hyt. }
  rewrite Hin. cbn [negb andb]. rewrite Hr. cbn [rbind].
  rewrite Hn, Hq, Hyt, Hv. reflexivity.
Qed.

End StandardUrl.

Lemma watch_url_identifier_witness :
  well_formed_watch_url sample_watch_url = true
  ∧ @extract_video_id sample_library
      (py "https://www.youtube.com/watch?t=42&v=dQw4w9WgXcQ&list=PL1&v=other#top")
    = Ok (py "dQw4w9WgXcQ").
Proof.
  split; [reflexivity|].
  exact (@watch_url_identifier sample_library sample_watch_url eq_refl).
Defined.

(** C5 as stated fails where the value needs decoding: in the query
    [v=a+b] the value is read as ["a b"], in [v=%41] as ["A"]; an empty
    value is dropped, and the last path segment is returned instead; a tab
    inside the value is removed with all tabs of the URL. *)
Lemma query_value_is_decoded :
  @extract_video_id sample_library (py "https://www.youtube.com/watch?v=a+b")
  = Ok (py "a b")
  ∧ @extract_video_id sample_library
      (py "https://www.youtube.com/watch?v=a+b") ≠ Ok (py "a+b")
  ∧ @extract_video_id sample_library
      (py "https://www.youtube.com/watch?v=%41") = Ok (py "A")
  ∧ @extract_video_id sample_library
      (py "https://www.youtube.com/watch?v=") = Ok (py "watch")
  ∧ @extract_video_id sample_library
      (py "https://www.youtube.com/watch?v=a" ++ [9] ++ py "b")
    = Ok (py "ab").
Proof.
  split; [vm_compute; reflexivity|].
  split; [vm_compute; discriminate|].
  repeat split; vm_compute; reflexivity.
Qed.

(** ** The model at work *)

(** A short link yields the path after the slash; a URL of the standard
    domain without [v] yields its last path segment. *)
Example short_link_identifier :
  @extract_video_id sample_library (py "https://youtu.be/vIIyn8LH1_E")
  = Ok (py "vIIyn8LH1_E").
Proof. vm_compute. reflexivity. Qed.

Example embed_link_identifier :
  @extract_video_id sample_library (py "https://www.youtube.com/embed/abc123/")
  = Ok (py "abc123").
Proof. vm_compute. reflexivity. Qed.

(** The scenario of the specification: one entry, nothing stored, no
    fallback. *)
Example scenario_index :
  fst (@preload_curated_transcripts sample_library scenario_catalog false
         (FFinite (3 # 2)) (fresh_world (Ok [])))
  = Ok [ {| collection := py "test"; title := py "A"; url := py "abc123";
            entry_video_id := py "abc123"; transcript_source := py "none";
            transcript_path := None |} ].
Proof. vm_compute. reflexivity. Qed.

(** With the fallback, the transcript of the scenario is fetched, stored
    and reported with its path. *)
Example scenario_index_fetched :
  fst (@preload_curated_transcripts sample_library scenario_catalog true
         (FFinite (3 # 2)) (fresh_world (Ok [text_segment (py "hello")])))
  = Ok [ {| collection := py "test"; title := py "A"; url := py "abc123";
            entry_video_id := py "abc123"; transcript_source := py "youtube";
            transcript_path := Some (py "data/transcripts/abc123.txt") |} ].
Proof. vm_compute. reflexivity. Qed.

(** [time.sleep] near 2^63 nanoseconds.  The float 9223372036.854776 is
    4835703278458517 / 2^19: its count of nanoseconds rounds to 2^63 and
    is refused as negative; the float after it overflows; the float before
    it, and 9223372036.0, are handed to the operating system, which
    refuses them when the deadline is past its limit. *)
Example sleep_near_the_limit :
  sleep_argument_error (FFinite (4835703278458517 # 524288))
  = Some ValueError
  ∧ sleep_argument_error (FFinite (4835703278458518 # 524288))
    = Some OverflowError
  ∧ sleep_argument_error (FFinite (4835703278458516 # 524288)) = None
  ∧ sleep_argument_error (FFinite (9223372036 # 1)) = None
  ∧ sleep_argument_error (FFinite (-4835703278458517 # 524288))
    = Some ValueError
  ∧ sleep_argument_error (FFinite (-4835703278458518 # 524288))
    = Some OverflowError
  ∧ sleep_argument_error (FFinite (-1 # 1000000000000)) = Some ValueError
  ∧ sleep_argument_error (FFinite 0) = None
  ∧ sleep_argument_error FNaN = Some ValueError
  ∧ sleep_argument_error (FInf false) = Some OverflowError
  ∧ fst (sleep (FFinite (9223372036 # 1)) (fresh_world (Ok [])))
    = Raise OSError.
Proof. repeat split; vm_compute; reflexivity. Qed.

(** [path.exists()] on a path that cannot be examined: the loaders that
    call it outside a [try] raise, the saver does not. *)
Example unexamined_paths :
  let w := cached_world Denied (Ok []) in
  fst (path_exists (transcript_file (py "abc123")) w) = Raise OSError
  ∧ fst (load_local_transcript (py "abc123") w) = Raise OSError
  ∧ save_local_transcript (py "abc123") (py "hello") w
    = (Ok (transcript_file (py "abc123")),
       add_log (ERROR_save_failed (py "abc123")) w).
Proof. cbv zeta. repeat split; vm_compute; reflexivity. Qed.

(** * Further properties *)

(** ** The local store *)

Lemma has_cons c a s : Str.has c (a :: s) = (c =? a) || Str.has c s.
Proof. reflexivity. Qed.

Lemma universal_newlines_has_no_cr s :
  Str.has 13 (universal_newlines s) = false.
Proof.
  remember (length s) as n eqn:Hn. revert s Hn.
  induction n as [n IH] using lt_wf_ind. intros s Hn.
  destruct s as [|c rest]; [reflexivity|].
  cbn [universal_newlines].
  destruct (N.eqb_spec c 13) as [->|Hc].
  - rewrite has_cons. cbn [N.eqb Pos.eqb orb].
    destruct rest as [|c' rest']; [reflexivity|].
    destruct (c' =? 10).
    + apply (IH (length rest')); [cbn in Hn; lia|reflexivity].
    + apply (IH (length (c' :: rest'))); [cbn in Hn; cbn; lia|reflexivity].
  - rewrite has_cons.
    destruct (N.eqb_spec 13 c) as [E|_]; [congruence|]. cbn [orb].
    apply (IH (length rest)); [cbn in Hn; lia|reflexivity].
Qed.

(** X1: [load_local_transcript] never changes a file, and it raises only
    where [path.exists()] does: [OSError], with no effect, when the
    transcript path cannot be examined.  In every other case it returns.
    When the file is absent it returns [None] and leaves the environment as
    it was; when something is at the path and no text is returned, it
    returns [None] and logs exactly one read error. *)
Theorem load_local_transcript_quiet (vid : pystr) (w : world) :
  let out := load_local_transcript vid w in
  files (snd out) = files w
  ∧ (files w !! Pathlib.str (transcript_file vid) = Some Denied →
     out = (Raise OSError, w))
  ∧ (can_stat w (transcript_file vid) → ∃ r, fst out = Ok r)
  ∧ (files w !! Pathlib.str (transcript_file vid) = None →
     out = (Ok None, w))
  ∧ (is_Some (files w !! Pathlib.str (transcript_file vid)) →
     fst out = Ok None →
     log (snd out) = log w ++ [ERROR_read_failed vid]).
Proof.
  cbv zeta. unfold can_stat. rewrite load_local_transcript_run.
  destruct (files w !! Pathlib.str (transcript_file vid))
    as [[c [] wr| |]|] eqn:E.
  - destruct (Utf8.decode c); cbn; repeat split; eauto; try discriminate.
  - cbn. repeat split; eauto; discriminate.
  - cbn. repeat split; eauto; discriminate.
  - cbn. repeat split; eauto; try discriminate. intros Hs. contradiction.
  - cbn. repeat split; eauto; try discriminate. intros [x Hx]. discriminate.
Qed.

Lemma load_local_transcript_quiet_witness :
  load_local_transcript (py "abc123") (fresh_world (Ok []))
  = (Ok None, fresh_world (Ok []))
  ∧ log (snd (load_local_transcript (py "abc123") writeonly_world))
    = [ERROR_read_failed (py "abc123")]
  ∧ load_local_transcript (py "abc123") (cached_world Denied (Ok []))
    = (Raise OSError, cached_world Denied (Ok [])).
Proof.
  split; [|split].
  - apply (load_local_transcript_quiet (py "abc123") (fresh_world (Ok []))).
    reflexivity.
  - apply (load_local_transcript_quiet (py "abc123") writeonly_world).
    + eexists. reflexivity.
    + reflexivity.
  - apply (load_local_transcript_quiet (py "abc123")
             (cached_world Denied (Ok []))).
    reflexivity.
Defined.

(** X2: text returned by [load_local_transcript] holds no carriage
    return, whatever bytes the file holds. *)
Theorem loaded_text_has_no_carriage_return (vid text : pystr) (w : world) :
  fst (load_local_transcript vid w) = Ok (Some text) →
  Str.has 13 text = false.
Proof.
  rewrite load_local_transcript_run.
  destruct (files w !! _) as [[c [] wr| |]|]; cbn; try discriminate.
  destruct (Utf8.decode c); cbn; try discriminate.
  intros [= <-]. apply universal_newlines_has_no_cr.
Qed.

Lemma loaded_text_has_no_carriage_return_witness :
  fst (load_local_transcript (py "abc123") (stocked_world [97; 13; 10; 98]))
  = Ok (Some [97; 10; 98])
  ∧ Str.has 13 [97; 10; 98] = false.
Proof.
  split; [reflexivity|].
  exact (loaded_text_has_no_carriage_return (py "abc123") [97; 10; 98]
           (stocked_world [97; 13; 10; 98]) eq_refl).
Defined.

Lemma write_text_log p text w :
  log (snd (write_text p text w)) = log w.
Proof.
  unfold write_text, open_w, put_content. unfold_M.
  destruct (files w !! Pathlib.str p) as [[c r []| |]|]; cbn; auto;
    try destruct (creatable w (Pathlib.str p)); cbn; auto;
    destruct (Utf8.encode text); cbn; rewrite ?lookup_insert_eq; cbn; auto.
Qed.

(** X3: [save_local_transcript] never raises and always returns the path
    of the transcript file; it leaves every other file as it was; it logs
    nothing when the write succeeds and exactly one save error when the
    write fails. *)
Theorem save_local_transcript_swallows (vid text : pystr) (w : world) :
  let out := save_local_transcript vid text w in
  fst out = Ok (transcript_file vid)
  ∧ (∀ q, q ≠ Pathlib.str (transcript_file vid) →
          files (snd out) !! q = files w !! q)
  ∧ (fst (write_text (transcript_file vid) text w) = Ok () →
     log (snd out) = log w)
  ∧ (∀ e, fst (write_text (transcript_file vid) text w) = Raise e →
          log (snd out) = log w ++ [ERROR_save_failed vid]).
Proof.
  cbv zeta.
  destruct (save_local_transcript_run vid text w) as (Hr & Hf & _).
  split; [exact Hr|]. split.
  - intros q Hq. rewrite Hf. apply write_text_other. exact Hq.
  - pose proof (write_text_log (transcript_file vid) text w) as Hl.
    unfold save_local_transcript. unfold_M.
    destruct (write_text (transcript_file vid) text w) as [[[]|e] w'];
      cbn in *; split.
    + intros _. exact Hl.
    + intros e. discriminate.
    + discriminate.
    + intros e' _. rewrite Hl. reflexivity.
Qed.

Lemma save_local_transcript_swallows_witness :
  fst (save_local_transcript (py "abc123") (py "hello")
         (readonly_world (Ok [])))
  = Ok (transcript_file (py "abc123"))
  ∧ log (snd (save_local_transcript (py "abc123") (py "hello")
                (readonly_world (Ok []))))
    = [ERROR_save_failed (py "abc123")]
  ∧ log (snd (save_local_transcript (py "abc123") (py "hello")
                (fresh_world (Ok [])))) = [].
Proof.
  destruct (save_local_transcript_swallows (py "abc123") (py "hello")
              (readonly_world (Ok []))) as (T1 & _ & _ & T4).
  destruct (save_local_transcript_swallows (py "abc123") (py "hello")
              (fresh_world (Ok []))) as (_ & _ & T3 & _).
  split; [exact T1|]. split.
  - apply (T4 OSError). reflexivity.
  - apply T3. reflexivity.
Defined.

(** The file a save leaves behind when it could be opened. *)
Lemma save_leaves_writable_file vid text w :
  fst (open_w (Pathlib.str (transcript_file vid)) w) = Ok () →
  (∀ c wr, files w !! Pathlib.str (transcript_file vid)
           ≠ Some (File c false wr)) →
  let w' := snd (save_local_transcript vid text w) in
  (∃ c, files w' !! Pathlib.str (transcript_file vid)
        = Some (File c true true))
  ∧ creatable w' = creatable w.
Proof.
  intros Hopen Hr. cbv zeta.
  destruct (save_local_transcript_run vid text w) as (_ & Hf & Hc & _).
  split; [|exact Hc]. rewrite Hf. clear Hf Hc.
  unfold write_text, open_w, put_content in *. unfold_M.
  destruct (files w !! Pathlib.str (transcript_file vid))
    as [[c r []| |]|] eqn:E; cbn in *; try discriminate.
  - destruct r; [|exfalso; eapply Hr; reflexivity].
    destruct (Utf8.encode text); cbn; rewrite ?lookup_insert_eq; cbn;
      rewrite ?lookup_insert_eq; eauto.
  - destruct (creatable w _); cbn in *; [|discriminate].
    destruct (Utf8.encode text); cbn; rewrite ?lookup_insert_eq; cbn;
      rewrite ?lookup_insert_eq; eauto.
Qed.

(** X4: the last save wins.  When the transcript file can be opened for
    writing and read back, and the second text can be encoded, saving a
    first text and then a second one for the same identifier makes a load
    return the second text (with its line ends normalised), whatever the
    first text was. *)
Theorem last_save_wins (T t1 t2 : pystr) (w : world) :
  fst (open_w (Pathlib.str (transcript_file T)) w) = Ok () →
  (∀ c wr, files w !! Pathlib.str (transcript_file T)
           ≠ Some (File c false wr)) →
  is_Some (Utf8.encode t2) →
  fst (load_local_transcript T
         (snd (save_local_transcript T t2
                 (snd (save_local_transcript T t1 w)))))
  = Ok (Some (universal_newlines t2)).
Proof.
  intros Hopen Hr [bs Hbs].
  destruct (save_leaves_writable_file T t1 w Hopen Hr) as ((c & Hfile) & _).
  set (w1 := snd (save_local_transcript T t1 w)) in *.
  apply (load_after_save T t2 w1).
  - apply (save_local_transcript_run T t2 w1).
  - unfold write_text, open_w, put_content. unfold_M.
    rewrite Hfile. cbn. rewrite Hbs. cbn. rewrite lookup_insert_eq.
    reflexivity.
  - intros c' wr. rewrite Hfile. discriminate.
Qed.

Lemma last_save_wins_witness :
  fst (load_local_transcript (py "abc123")
         (snd (save_local_transcript (py "abc123") (py "second")
                 (snd (save_local_transcript (py "abc123") [0xD800]
                         (fresh_world (Ok [])))))))
  = Ok (Some (universal_newlines (py "second"))).
Proof.
  apply (last_save_wins (py "abc123") [0xD800] (py "second")
           (fresh_world (Ok []))).
  - reflexivity.
  - apply no_file_in_fresh_world.
  - eexists. reflexivity.
Defined.

(** ** Where transcripts are stored *)




Lemma lstrip_length f s : (length (Str.lstrip f s) ≤ length s)%nat.
Proof.
  induction s as [|a s IH]; cbn; [lia|].
  destruct (f a); cbn; lia.
Qed.

(** X6: an identifier that starts with a slash names an absolute path:
    its transcript file is not under [data/transcripts]. *)
Theorem transcript_file_absolute (rest : pystr) :
  head (Pathlib.str (transcript_file (ch "/" :: rest))) = Some (ch "/").
Proof.
  unfold transcript_file, Pathlib.joinpath, Pathlib.parse.
  cbn [app Str.lstrip]. rewrite N.eqb_refl.
  set (name := rest ++ py ".txt").
  pose proof (lstrip_length (N.eqb (ch "/")) name) as Hlen.
  set (stripped := Str.lstrip (N.eqb (ch "/")) name) in *.
  cbn [length Pathlib.root Pathlib.parts].
  destruct (S (length name) - length stripped)%nat as [|[|[|n]]] eqn:E;
    [lia|reflexivity|reflexivity|reflexivity].
Qed.



(** ** The wrapper of the transcript service *)

(** X8: without the optional dependency a fetch returns [None] and does
    not call the service; with it, the service is called exactly once,
    with the identifier and the languages given, [en] and [en-US] when
    none are given, whatever the outcome. *)
Theorem fetch_calls_service_at_most_once
    (vid : pystr) (languages : option (list pystr)) (w : world) :
  let out := fetch_youtube_transcript vid languages w in
  (YT_AVAILABLE w = false →
   fst out = Ok None ∧ service_calls (snd out) = service_calls w)
  ∧ (YT_AVAILABLE w = true →
     service_calls (snd out)
     = service_calls w
       ++ [(vid, match languages with
                 | Some l => l
                 | None => [py "en"; py "en-US"]
                 end)]).
Proof.
  cbv zeta. unfold fetch_youtube_transcript, get_transcript. unfold_M.
  cbn -[languages_or_default].
  split; intros Hav; rewrite Hav; cbn -[languages_or_default].
  - auto.
  - destruct (service w _ vid _) as [segments|];
      cbn -[languages_or_default].
    + destruct (segment_texts segments); cbn -[languages_or_default];
        destruct languages; reflexivity.
    + destruct languages; reflexivity.
Qed.

Lemma fetch_calls_service_at_most_once_witness :
  service_calls
    (snd (fetch_youtube_transcript (py "abc123") None
            (fresh_world (Raise ServiceError))))
  = [(py "abc123", [py "en"; py "en-US"])].
Proof.
  apply (proj2 (fetch_calls_service_at_most_once (py "abc123") None
                  (fresh_world (Raise ServiceError)))).
  reflexivity.
Defined.

Lemma segment_texts_strings segments texts :
  Forall2 (λ s t, s !! py "text" = Some (VStr t)) segments texts →
  segment_texts segments = Ok (kept_lines texts).
Proof.
  unfold kept_lines. induction 1 as [|s t segments texts Hs _ IH];
    [reflexivity|].
  cbn [List.map segment_texts List.filter].
  rewrite IH. unfold segment_text. rewrite Hs. cbn [rbind].
  destruct (Str.strip Str.isspace t); reflexivity.
Qed.

Lemma kept_lines_nonempty texts : Forall (λ t, t ≠ []) (kept_lines texts).
Proof.
  unfold kept_lines. apply Forall_forall. intros t Ht.
  apply list_elem_of_In, filter_In in Ht as [_ Ht].
  apply negb_true_iff in Ht. unfold Str.eqb in Ht.
  intros ->. rewrite bool_decide_eq_true_2 in Ht by reflexivity.
  discriminate.
Qed.

Lemma fetch_youtube_transcript_run vid languages w segments parts :
  YT_AVAILABLE w = true →
  service w (length (service_calls w)) vid (languages_or_default languages)
    = Ok segments →
  segment_texts segments = Ok parts →
  fst (fetch_youtube_transcript vid languages w)
  = Ok (if truthy (Some (Str.join [10] parts))
        then Some (Str.join [10] parts) else None).
Proof.
  intros Hav Hsv Hparts.
  unfold fetch_youtube_transcript, get_transcript. unfold_M.
  cbn -[languages_or_default]. rewrite Hav.
  cbn -[languages_or_default]. rewrite Hsv.
  cbn -[languages_or_default]. rewrite Hparts. reflexivity.
Qed.

(** X9: when the service answers with segments whose texts are the
    strings [texts], a fetch returns the stripped texts that are not empty,
    in the order of the segments and joined by line feeds; it returns
    [None] exactly when no text is left. *)
Theorem fetch_joins_kept_lines
    (vid : pystr) (languages : option (list pystr)) (w : world)
    (segments : list segment) (texts : list pystr) :
  YT_AVAILABLE w = true →
  service w (length (service_calls w)) vid (languages_or_default languages)
    = Ok segments →
  Forall2 (λ s t, s !! py "text" = Some (VStr t)) segments texts →
  fst (fetch_youtube_transcript vid languages w)
  = Ok (match kept_lines texts with
        | [] => None
        | lines => Some (Str.join [10] lines)
        end)
  ∧ (kept_lines texts ≠ [] → Str.join [10] (kept_lines texts) ≠ []).
Proof.
  intros Hav Hsv Htexts. split.
  - rewrite (fetch_youtube_transcript_run _ _ _ _ _ Hav Hsv
               (segment_texts_strings _ _ Htexts)).
    pose proof (kept_lines_nonempty texts) as Hne.
    destruct (kept_lines texts) as [|l ls] eqn:E; [reflexivity|].
    destruct (Str.join [10] (l :: ls)) eqn:J; [|reflexivity].
    apply join_nil_inv in J; [discriminate|exact Hne].
  - intros Hk J. apply join_nil_inv in J; [contradiction|].
    apply kept_lines_nonempty.
Qed.

Lemma fetch_joins_kept_lines_witness :
  fst (fetch_youtube_transcript (py "abc123") None
         (fresh_world
            (Ok [timed_segment (py " one ") 0 (3 # 2);
                 timed_segment (py "  ") (3 # 2) 1;
                 timed_segment (py "two") (5 # 2) 2])))
  = Ok (Some (py "one" ++ [10] ++ py "two")).
Proof.
  refine (proj1 (fetch_joins_kept_lines (py "abc123") None
                   (fresh_world
                      (Ok [timed_segment (py " one ") 0 (3 # 2);
                           timed_segment (py "  ") (3 # 2) 1;
                           timed_segment (py "two") (5 # 2) 2]))
                   _ [py " one "; py "  "; py "two"] eq_refl eq_refl _)).
  repeat constructor.
Defined.





(** ** What the extractor can raise *)

Lemma collect_values_nonempty pairs m :
  (∀ k, m !! k ≠ Some []) →
  ∀ k, fold_left Url.collect pairs m !! k ≠ Some [].
Proof.
  revert m. induction pairs as [|[n v] pairs IH]; intros m Hm; [exact Hm|].
  cbn [fold_left]. apply IH. intros k. unfold Url.collect.
  destruct (m !! n) as [values|] eqn:E.
  - destruct (decide (n = k)) as [->|Hne].
    + rewrite lookup_insert_eq. destruct values; discriminate.
    + rewrite lookup_insert_ne by exact Hne. apply Hm.
  - destruct (decide (n = k)) as [->|Hne].
    + rewrite lookup_insert_eq. discriminate.
    + rewrite lookup_insert_ne by exact Hne. apply Hm.
Qed.

Lemma parse_qs_values_nonempty qs k : Url.parse_qs qs !! k ≠ Some [].
Proof.
  unfold Url.parse_qs. apply collect_values_nonempty.
  intros k'. rewrite lookup_empty. discriminate.
Qed.

Section ExtractorErrors.
Context `{PyLib}.

Lemma urlsplit_raises url e : Url.urlsplit url = Raise e → e = ValueError.
Proof.
  unfold Url.urlsplit.
  destruct (match Str.find _ _ with Some (S i) => _ | _ => _ end)
    as [scheme url1].
  destruct (Str.eqb (take 2 url1) (py "//")).
  - destruct (Url.splitnetloc url1 2) as [netloc url2].
    cbv zeta.
    destruct ((Str.has (ch "[") netloc && negb (Str.has (ch "]") netloc))
              || (Str.has (ch "]") netloc && negb (Str.has (ch "[") netloc)));
      [cbn; congruence|].
    destruct (Str.has (ch "[") netloc && Str.has (ch "]") netloc
              && negb (bracketed_host_ok (Url.bracketed_host netloc)));
      [cbn; congruence|].
    cbn [rbind].
    destruct (match Str.split1 (ch "#") url2 with [u; f] => _ | _ => _ end).
    destruct (match Str.split1 (ch "?") _ with [u; q] => _ | _ => _ end).
    destruct (Url.checknetloc netloc); congruence.
  - cbn [rbind].
    destruct (match Str.split1 (ch "#") url1 with [u; f] => _ | _ => _ end).
    destruct (match Str.split1 (ch "?") _ with [u; q] => _ | _ => _ end).
    destruct (Url.checknetloc []); congruence.
Qed.

Lemma urlparse_raises url e : Url.urlparse url = Raise e → e = ValueError.
Proof.
  unfold Url.urlparse.
  destruct (Url.urlsplit url) as [r|e'] eqn:E; cbn [rbind].
  - destruct (existsb _ _ && _); [destruct (Url.splitparams _)|];
      discriminate.
  - intros [= <-]. exact (urlsplit_raises url e' E).
Qed.

Lemma extract_video_id_raises s e :
  extract_video_id s = Raise e →
  e = ValueError
  ∧ (Str.contains (py "youtube.com") s = true
     ∨ Str.contains (py "youtu.be") s = true).
Proof.
  unfold extract_video_id.
  destruct (Str.contains (py "youtube.com") s) eqn:H1;
    destruct (Str.contains (py "youtu.be") s) eqn:H2; cbn [negb andb];
    try discriminate.
  all: destruct (Url.urlparse s) as [parsed|e'] eqn:E; cbn [rbind];
    [|intros [= <-]; split; [exact (urlparse_raises s e' E)|auto]].
  all: destruct (Str.contains (py "youtube.com") (Url.netloc parsed));
    [pose proof (parse_qs_values_nonempty (Url.query parsed) (py "v")) as Hv;
     destruct (Url.parse_qs (Url.query parsed) !! py "v") as [[|v0 vs]|];
     [contradiction|discriminate|]|];
    destruct (Str.contains (py "youtu.be") (Url.netloc parsed));
    discriminate.
Qed.

(** X11: [extract_video_id] raises nothing but [ValueError], and only on
    an input that contains one of the two domain markers: the list of
    values of [v] is never empty, so that taking its first element cannot
    fail. *)
Theorem extract_video_id_only_value_error (s : pystr) (e : exn) :
  extract_video_id s = Raise e →
  e = ValueError
  ∧ (Str.contains (py "youtube.com") s = true
     ∨ Str.contains (py "youtu.be") s = true).
Proof. apply extract_video_id_raises. Qed.

End ExtractorErrors.

Lemma extract_video_id_only_value_error_witness :
  @extract_video_id sample_library (py "http://[youtube.com/watch?v=abc123")
  = Raise ValueError
  ∧ Str.contains (py "youtube.com") (py "http://[youtube.com/watch?v=abc123")
    = true.
Proof.
  split; [vm_compute; reflexivity|].
  destruct (@extract_video_id_only_value_error sample_library
              (py "http://[youtube.com/watch?v=abc123") ValueError)
    as [_ [Hm|Hm]].
  - vm_compute. reflexivity.
  - exact Hm.
  - reflexivity.
Defined.

(** ** More on the resolver *)

Lemma universal_newlines_nonempty s : s ≠ [] → universal_newlines s ≠ [].
Proof.
  destruct s as [|c rest]; [contradiction|]. intros _.
  cbn [universal_newlines]. destruct (c =? 13); discriminate.
Qed.

Section ResolverMore.
Context `{PyLib}.

(** A write that succeeds was on a path that can be examined. *)
Lemma write_text_can_stat p text w :
  fst (write_text p text w) = Ok () → can_stat w p.
Proof.
  unfold write_text, open_w, can_stat. unfold_M.
  destruct (files w !! Pathlib.str p) as [[c r wr| |]|]; cbn;
    discriminate.
Qed.

(** X12: the resolver raises in two cases only, both before any effect:
    when the extractor raises, with the same exception, and when the
    transcript path of the identifier cannot be examined, with [OSError];
    in every other case it returns. *)
Theorem resolver_raise_causes
    (ref : pystr) (fb sd : bool) (languages : option (list pystr))
    (w : world) :
  (∀ e, extract_video_id ref = Raise e →
        get_or_create_transcript ref fb sd languages w = (Raise e, w))
  ∧ (∀ vid, extract_video_id ref = Ok vid →
            files w !! Pathlib.str (transcript_file vid) = Some Denied →
            get_or_create_transcript ref fb sd languages w
            = (Raise OSError, w))
  ∧ (∀ vid, extract_video_id ref = Ok vid →
            can_stat w (transcript_file vid) →
            ∃ text meta w',
              get_or_create_transcript ref fb sd languages w
              = (Ok (text, meta), w'))
  ∧ (∀ e w', get_or_create_transcript ref fb sd languages w = (Raise e, w') →
             w' = w ∧ (e = ValueError ∨ e = OSError)).
Proof.
  split; [|split; [|split]].
  - intros e He. unfold get_or_create_transcript. unfold_M.
    rewrite He. reflexivity.
  - intros vid Hid Hd. exact (resolver_denied_run _ _ _ _ _ _ Hid Hd).
  - intros vid Hid Hstat.
    destruct (resolver_returns ref vid fb sd languages w Hid Hstat)
      as (t & m & w1 & Hok & _).
    eauto.
  - intros e w' Hrun.
    destruct (extract_video_id ref) as [vid|e0] eqn:Hid.
    + destruct (can_stat_dec w (transcript_file vid)) as [Hstat|Hd].
      * destruct (resolver_returns ref vid fb sd languages w Hid Hstat)
          as (t & m & w1 & Hok & _).
        rewrite Hok in Hrun. discriminate.
      * rewrite (resolver_denied_run _ _ _ _ _ _ Hid Hd) in Hrun.
        injection Hrun as <- <-. auto.
    + unfold get_or_create_transcript in Hrun. unfold_M.
      rewrite Hid in Hrun. injection Hrun as <- <-.
      destruct (extract_video_id_raises ref e0 Hid) as [-> _]. auto.
Qed.

(** X13: in every result of the resolver the identifier in [meta] is the
    one the extractor returns, the source is one of ["none"], ["local"]
    and ["youtube"], the text is [None] exactly when the source is
    ["none"], and the text is never the empty string. *)
Theorem resolver_result_shape
    (ref : pystr) (fb sd : bool) (languages : option (list pystr))
    (w w' : world) (text : option pystr) (meta : Meta) :
  get_or_create_transcript ref fb sd languages w = (Ok (text, meta), w') →
  extract_video_id ref = Ok (video_id meta)
  ∧ (source meta = py "none" ∨ source meta = py "local"
     ∨ source meta = py "youtube")
  ∧ (text = None ↔ source meta = py "none")
  ∧ text ≠ Some [].
Proof.
  intros Hrun.
  destruct (extract_video_id ref) as [vid|e] eqn:Hid.
  2:{ unfold get_or_create_transcript in Hrun. unfold_M.
      rewrite Hid in Hrun. discriminate. }
  destruct (can_stat_dec w (transcript_file vid)) as [Hstat|Hd].
  2:{ rewrite (resolver_denied_run _ _ _ _ _ _ Hid Hd) in Hrun.
      discriminate. }
  destruct (local_or_miss vid w) as [(c & t & Hl)|Hmiss].
  - assert (Hne : c :: t ≠ []) by discriminate.
    rewrite (resolver_local_run _ _ _ _ _ _ _ Hid Hl Hne) in Hrun.
    injection Hrun as <- <- <-. cbn.
    repeat split; auto; discriminate.
  - rewrite (resolver_miss_run _ _ _ _ _ _ Hid Hstat Hmiss) in Hrun.
    cbv zeta in Hrun.
    destruct fb.
    + destruct (fetch_youtube_transcript _ _ _) as [[[[|c t]|]|e] w2];
        try destruct sd; inversion Hrun; subst; cbn;
        repeat split; auto; discriminate.
    + injection Hrun as <- <- <-. cbn. repeat split; auto.
Qed.

(** X14: the resolver changes no file but the transcript file of the
    identifier, and no file at all when [save_downloaded] is off. *)
Theorem resolver_touches_one_file
    (ref vid : pystr) (fb sd : bool) (languages : option (list pystr))
    (w : world) :
  extract_video_id ref = Ok vid →
  let w' := snd (get_or_create_transcript ref fb sd languages w) in
  (∀ q, q ≠ Pathlib.str (transcript_file vid) →
        files w' !! q = files w !! q)
  ∧ (sd = false → files w' = files w).
Proof.
  intros Hid. cbv zeta.
  destruct (can_stat_dec w (transcript_file vid)) as [Hstat|Hd].
  2:{ rewrite (resolver_denied_run _ _ _ _ _ _ Hid Hd). cbn. auto. }
  destruct (local_or_miss vid w) as [(c & t & Hl)|Hmiss].
  - assert (Hne : c :: t ≠ []) by discriminate.
    rewrite (resolver_local_run _ _ _ _ _ _ _ Hid Hl Hne). cbn. auto.
  - rewrite (resolver_miss_run _ _ _ _ _ _ Hid Hstat Hmiss). cbv zeta.
    destruct (load_local_transcript_frame vid w) as (Hf1 & _).
    set (w1 := snd (load_local_transcript vid w)) in *.
    destruct fb; [|cbn; rewrite Hf1; auto].
    destruct (fetch_youtube_transcript_frame vid languages w1) as (Hf2 & _).
    destruct (fetch_youtube_transcript vid languages w1) as [r w2].
    cbn [snd] in Hf2.
    assert (Hf : files w2 = files w) by congruence.
    destruct r as [[[|c t]|]|e]; cbn [snd]; try (rewrite Hf; auto).
    destruct sd; cbn [snd]; [|rewrite Hf; auto].
    split; [|discriminate].
    intros q Hq.
    destruct (save_local_transcript_run vid (c :: t) w2) as (_ & Hf3 & _).
    destruct (write_text_other (transcript_file vid) (c :: t) w2 q Hq)
      as (Hf4 & _).
    rewrite Hf3, Hf4, Hf. reflexivity.
Qed.

(** X15: where the transcript path can be examined, the local store has
    no usable transcript and the fetch returns [None], the resolver with
    the fallback on returns no text and source ["none"], changes no file,
    and has called [fetch_youtube_transcript] exactly once, with the
    identifier and the languages given. *)
Theorem resolver_nothing_found
    (ref vid : pystr) (sd : bool) (languages : option (list pystr))
    (w : world) :
  extract_video_id ref = Ok vid →
  can_stat w (transcript_file vid) →
  no_local_transcript vid w →
  fst (fetch_youtube_transcript vid languages w) = Ok None →
  let out := get_or_create_transcript ref true sd languages w in
  fst out = Ok (None, {| video_id := vid; source := py "none";
                         saved_locally := false |})
  ∧ files (snd out) = files w
  ∧ fetch_calls (snd out) = fetch_calls w ++ [(vid, languages)].
Proof.
  intros Hid Hstat Hno Hfetch. cbv zeta.
  rewrite (resolver_miss_run _ _ _ _ _ _ Hid Hstat
             (no_local_transcript_miss vid w Hno)). cbv zeta.
  destruct (load_local_transcript_frame vid w)
    as (Hf1 & _ & Ha1 & Hs1 & Hsc1 & Hfc1 & _).
  set (w1 := snd (load_local_transcript vid w)) in *.
  pose proof (fetch_youtube_transcript_congr vid languages w1 w Ha1 Hs1 Hsc1)
    as Hsame.
  destruct (fetch_youtube_transcript_frame vid languages w1)
    as (Hf2 & _ & Hfc2).
  destruct (fetch_youtube_transcript vid languages w1) as [r w2].
  cbn [fst snd] in *. rewrite Hfetch in Hsame. subst r. cbn.
  repeat split; congruence.
Qed.

(** X16: the cache works.  After a resolution that fetched text and
    stored it (the write succeeded and the file can be read), a second
    resolution of the same reference, with any flags, finds the text in
    the local store, reports source ["local"], and does not call
    [fetch_youtube_transcript] again. *)
Theorem second_resolution_is_local
    (ref vid text : pystr) (languages languages' : option (list pystr))
    (fb sd : bool) (w : world) :
  extract_video_id ref = Ok vid →
  (∀ t, fst (load_local_transcript vid w) = Ok (Some t) → t = []) →
  fst (fetch_youtube_transcript vid languages w) = Ok (Some text) →
  fst (write_text (transcript_file vid) text w) = Ok () →
  (∀ c wr, files w !! Pathlib.str (transcript_file vid)
           ≠ Some (File c false wr)) →
  let w1 := snd (get_or_create_transcript ref true true languages w) in
  let out := get_or_create_transcript ref fb sd languages' w1 in
  fst out = Ok (Some (universal_newlines text),
                {| video_id := vid; source := py "local";
                   saved_locally := false |})
  ∧ fetch_calls (snd out) = fetch_calls w ++ [(vid, languages)].
Proof.
  intros Hid Hmiss Hfetch Hok Hr. cbv zeta.
  rewrite (resolver_miss_run _ _ _ _ _ _ Hid
             (write_text_can_stat _ _ _ Hok) Hmiss). cbv zeta.
  destruct (load_local_transcript_frame vid w)
    as (Hf1 & Hc1 & Ha1 & Hs1 & Hsc1 & Hfc1 & _).
  set (w1 := snd (load_local_transcript vid w)) in *.
  pose proof (fetch_youtube_transcript_congr vid languages w1 w Ha1 Hs1 Hsc1)
    as Hsame.
  destruct (fetch_youtube_transcript_frame vid languages w1)
    as (Hf2 & Hc2 & Hfc2).
  pose proof (fetch_youtube_transcript_fetched vid languages w1) as Hne.
  destruct (fetch_youtube_transcript vid languages w1) as [r w2] eqn:E.
  cbn [fst snd] in *. rewrite Hfetch in Hsame. subst r.
  cbn in Hne. destruct text as [|c t]; [contradiction|].
  cbn [fst snd].
  destruct (save_local_transcript_run vid (c :: t) w2)
    as (_ & Hf3 & _ & Hfc3).
  destruct (write_text_congr (transcript_file vid) (c :: t) w2 w)
    as (_ & Hf4); [congruence|congruence|].
  set (w3 := snd (save_local_transcript vid (c :: t) w2)) in *.
  assert (Hload : fst (load_local_transcript vid w3)
                  = Ok (Some (universal_newlines (c :: t)))).
  { apply (load_after_save vid (c :: t) w); auto. congruence. }
  rewrite (resolver_local_run ref vid (universal_newlines (c :: t))
             fb sd languages' w3 Hid Hload).
  - cbn [fst snd]. split; [reflexivity|]. congruence.
  - apply universal_newlines_nonempty. discriminate.
Qed.

End ResolverMore.

Lemma resolver_raise_causes_witness :
  @get_or_create_transcript sample_library
    (py "http://[youtube.com/watch?v=abc123") true true None
    (fresh_world (Ok []))
  = (Raise ValueError, fresh_world (Ok []))
  ∧ @get_or_create_transcript sample_library (py "abc123") true true None
      (cached_world Denied (Ok [text_segment (py "hello")]))
    = (Raise OSError, cached_world Denied (Ok [text_segment (py "hello")])).
Proof.
  split.
  - apply (proj1 (@resolver_raise_causes sample_library
                    (py "http://[youtube.com/watch?v=abc123") true true None
                    (fresh_world (Ok [])))).
    vm_compute. reflexivity.
  - apply (proj1 (proj2 (@resolver_raise_causes sample_library
                           (py "abc123") true true None
                           (cached_world Denied
                              (Ok [text_segment (py "hello")]))))
             (py "abc123")).
    + reflexivity.
    + reflexivity.
Defined.

Lemma resolver_result_shape_witness :
  let out := @get_or_create_transcript sample_library (py "abc123")
               true true None
               (fresh_world (Ok [text_segment (py "hello")])) in
  let meta := {| video_id := py "abc123"; source := py "youtube";
                 saved_locally := true |} in
  fst out = Ok (Some (py "hello"), meta)
  ∧ @extract_video_id sample_library (py "abc123") = Ok (video_id meta).
Proof.
  intros out meta.
  assert (E : fst out = Ok (Some (py "hello"), meta))
    by (vm_compute; reflexivity).
  split; [exact E|].
  apply (@resolver_result_shape sample_library (py "abc123") true true None
           (fresh_world (Ok [text_segment (py "hello")])) (snd out)
           (Some (py "hello")) meta).
  fold out. rewrite <- E. destruct out as [r w']. reflexivity.
Defined.

Lemma resolver_touches_one_file_witness :
  files (snd (@get_or_create_transcript sample_library (py "abc123")
                true false None
                (fresh_world (Ok [text_segment (py "hello")]))))
  = files (fresh_world (Ok [text_segment (py "hello")])).
Proof.
  apply (proj2 (@resolver_touches_one_file sample_library (py "abc123")
                  (py "abc123") true false None
                  (fresh_world (Ok [text_segment (py "hello")])) eq_refl)).
  reflexivity.
Defined.

Lemma resolver_nothing_found_witness :
  let out := @get_or_create_transcript sample_library (py "abc123")
               true true None (fresh_world (Raise ServiceError)) in
  fst out = Ok (None, {| video_id := py "abc123"; source := py "none";
                         saved_locally := false |})
  ∧ files (snd out) = ∅
  ∧ fetch_calls (snd out) = [(py "abc123", None)].
Proof.
  cbv zeta.
  apply (@resolver_nothing_found sample_library (py "abc123") (py "abc123")
           true None (fresh_world (Raise ServiceError)) eq_refl).
  - unfold can_stat. vm_compute. discriminate.
  - intros content wr text. vm_compute. discriminate.
  - reflexivity.
Defined.

Lemma second_resolution_is_local_witness :
  let w := fresh_world (Ok [text_segment (py "hello")]) in
  let w1 := snd (@get_or_create_transcript sample_library (py "abc123")
                   true true None w) in
  let out := @get_or_create_transcript sample_library (py "abc123")
               true true None w1 in
  fst out = Ok (Some (universal_newlines (py "hello")),
                {| video_id := py "abc123"; source := py "local";
                   saved_locally := false |})
  ∧ fetch_calls (snd out) = [(py "abc123", None)].
Proof.
  cbv zeta.
  apply (@second_resolution_is_local sample_library (py "abc123")
           (py "abc123") (py "hello") None None true true
           (fresh_world (Ok [text_segment (py "hello")])) eq_refl).
  - intros t. vm_compute. discriminate.
  - reflexivity.
  - reflexivity.
  - apply no_file_in_fresh_world.
Defined.

(** ** Splitting a URL into its parts *)

Lemma well_formed_plain_parts u :
  well_formed_plain_url u = true →
  (∃ a sch, pu_scheme u = a :: sch ∧ Url.ascii_alpha a = true)
  ∧ forallb Url.scheme_char (pu_scheme u) = true
  ∧ Str.isascii (pu_host u) = true
  ∧ Str.none_of (py "/?#[]") (pu_host u) = true
  ∧ empty_or_starts (ch "/") (pu_path u) = true
  ∧ Str.none_of (py "?#") (pu_path u) = true
  ∧ Str.none_of (py "#") (default [] (pu_query u)) = true
  ∧ Str.none_of [9; 10; 13] (plain_url u) = true.
Proof.
  unfold well_formed_plain_url. rewrite !andb_true_iff, !negb_true_iff.
  intros ((((((((H1 & H2) & H3) & H4) & H5) & H6) & H7) & H8) & H9).
  repeat split; try assumption.
  destruct (pu_scheme u) as [|a sch].
  - unfold Str.eqb in H2. rewrite bool_decide_eq_true_2 in H2 by reflexivity.
    discriminate.
  - exists a, sch. cbn in H1. rewrite andb_true_r in H1. auto.
Qed.

Section PlainUrls.
Context `{PyLib}.

Lemma urlsplit_plain u :
  well_formed_plain_url u = true →
  Url.urlsplit (plain_url u)
  = Ok {| Url.s_scheme := Str.lower_ascii (pu_scheme u);
          Url.s_netloc := pu_host u; Url.s_path := pu_path u;
          Url.s_query := default [] (pu_query u);
          Url.s_fragment := default [] (pu_fragment u) |}.
Proof.
  intros Hwf.
  destruct (well_formed_plain_parts u Hwf)
    as ((a & sch & Hsch & Ha) & Hchars & Hascii & Hhost & Hpath0 & Hpath
        & Hquery & Hclean).
  unfold Url.urlsplit.
  rewrite (lstrip_id Url.c0_control_or_space (plain_url u)).
  2:{ unfold plain_url. rewrite Hsch. cbn. intros c [= <-].
      apply alpha_not_control. exact Ha. }
  assert (H9 : Str.has 9 (plain_url u) = false)
    by (apply (none_of_has [9; 10; 13]); [exact Hclean|reflexivity]).
  assert (H10 : Str.has 10 (plain_url u) = false)
    by (apply (none_of_has [9; 10; 13]); [exact Hclean|reflexivity]).
  assert (H13 : Str.has 13 (plain_url u) = false)
    by (apply (none_of_has [9; 10; 13]); [exact Hclean|reflexivity]).
  rewrite (remove_id 9), (remove_id 13), (remove_id 10) by assumption.
  set (qpart := match pu_query u with Some q => 63 :: q | None => [] end).
  set (fpart := match pu_fragment u with Some f => 35 :: f | None => [] end).
  assert (Hurl : plain_url u
                 = pu_scheme u ++ 58 :: ([47; 47] ++ pu_host u
                     ++ (pu_path u ++ qpart ++ fpart))).
  { unfold plain_url. literals. reflexivity. }
  rewrite Hurl. literals.
  rewrite (find_here 58) by (apply scheme_has_no_colon; exact Hchars).
  set (tail := pu_path u ++ qpart ++ fpart) in *.
  set (rest := [47; 47] ++ pu_host u ++ tail) in *.
  assert (Hlen : length (pu_scheme u) = S (length sch))
    by (rewrite Hsch; reflexivity).
  rewrite Hlen. cbv iota.
  replace (take 1 (pu_scheme u ++ 58 :: rest)) with [a]
    by (rewrite Hsch; reflexivity).
  rewrite <- Hlen, take_app_length, drop_after.
  cbn [forallb]. rewrite Ha, Hchars. cbn [andb].
  replace (Str.eqb (take 2 rest) [47; 47]) with true by reflexivity.
  assert (Hnet : Url.splitnetloc rest 2 = (pu_host u, tail)).
  { pose proof (splitnetloc_host (pu_host u) tail) as E. literals.
    apply E.
    - unfold Str.none_of in *. rewrite forallb_forall in *.
      intros c Hc. specialize (Hhost c Hc).
      apply negb_true_iff in Hhost. apply negb_true_iff.
      unfold Str.has in *. cbn in *.
      destruct (c =? 47); [discriminate|].
      destruct (c =? 63); [discriminate|].
      destruct (c =? 35); [discriminate|]. reflexivity.
    - unfold tail, qpart, fpart.
      destruct (pu_path u) as [|p ps]; cbn [app].
      + destruct (pu_query u); cbn [app].
        * right. eexists _, _. split; reflexivity.
        * destruct (pu_fragment u); [right|left; reflexivity].
          eexists _, _. split; reflexivity.
      + cbn in Hpath0. apply N.eqb_eq in Hpath0. subst p.
        right. eexists _, _. split; reflexivity. }
  rewrite Hnet.
  assert (Hlb : Str.has 91 (pu_host u) = false)
    by (apply (none_of_has [47; 63; 35; 91; 93]); [exact Hhost|reflexivity]).
  assert (Hrb : Str.has 93 (pu_host u) = false)
    by (apply (none_of_has [47; 63; 35; 91; 93]); [exact Hhost|reflexivity]).
  cbv zeta. rewrite Hlb, Hrb. cbn [andb orb negb rbind].
  assert (Hp35 : Str.has 35 (pu_path u) = false)
    by (apply (none_of_has [63; 35]); [exact Hpath|reflexivity]).
  assert (Hp63 : Str.has 63 (pu_path u) = false)
    by (apply (none_of_has [63; 35]); [exact Hpath|reflexivity]).
  assert (Hbody : Str.has 35 (pu_path u ++ qpart) = false).
  { rewrite has_app, Hp35. unfold qpart.
    destruct (pu_query u) as [q|]; [|reflexivity].
    rewrite has_cons. cbn [N.eqb Pos.eqb orb].
    apply (none_of_has [35]); [exact Hquery|reflexivity]. }
  assert (Hcut : (match Str.split1 35 tail with
                  | [u0; f0] => (u0, f0)
                  | _ => (tail, [])
                  end) = (pu_path u ++ qpart, default [] (pu_fragment u))).
  { unfold tail, fpart. destruct (pu_fragment u) as [f|].
    - rewrite app_assoc, split1_cut by exact Hbody. reflexivity.
    - rewrite app_nil_r, split1_whole by exact Hbody. reflexivity. }
  rewrite Hcut.
  assert (Hcut2 : (match Str.split1 63 (pu_path u ++ qpart) with
                   | [u0; q0] => (u0, q0)
                   | _ => (pu_path u ++ qpart, [])
                   end) = (pu_path u, default [] (pu_query u))).
  { unfold qpart. destruct (pu_query u) as [q|].
    - rewrite split1_cut by exact Hp63. reflexivity.
    - rewrite app_nil_r, split1_whole by exact Hp63. reflexivity. }
  rewrite Hcut2.
  assert (Hcheck : Url.checknetloc (pu_host u) = true).
  { unfold Url.checknetloc. rewrite Hascii. destruct (pu_host u); reflexivity. }
  rewrite Hcheck. reflexivity.
Qed.

End PlainUrls.

(** ** Stripping slashes *)

Lemma lstrip_app_all f l s :
  forallb f l = true → Str.lstrip f (l ++ s) = Str.lstrip f s.
Proof.
  induction l as [|a l IH]; [reflexivity|].
  cbn. destruct (f a); cbn; [exact IH|discriminate].
Qed.

Lemma lstrip_snoc f l c :
  Str.lstrip f (l ++ [c]) = [] ∨ ∃ d, Str.lstrip f (l ++ [c]) = d ++ [c].
Proof.
  induction l as [|a l IH]; cbn.
  - destruct (f c); [left; reflexivity|right; exists []; reflexivity].
  - destruct (f a); [exact IH|]. right. exists (a :: l). reflexivity.
Qed.

Lemma rstrip_app_all f s r :
  forallb f r = true → Str.rstrip f (s ++ r) = Str.rstrip f s.
Proof.
  intros Hr. unfold Str.rstrip. rewrite rev_app_distr.
  rewrite lstrip_app_all; [reflexivity|].
  rewrite forallb_forall in *. intros x Hx. apply Hr, in_rev. exact Hx.
Qed.

Lemma rstrip_keep f s c : f c = false → Str.rstrip f (s ++ [c]) = s ++ [c].
Proof.
  intros Hc. unfold Str.rstrip. rewrite rev_app_distr. cbn.
  rewrite Hc. cbn. rewrite rev_involutive. reflexivity.
Qed.

Lemma rstrip_id f s :
  (∀ c, last s = Some c → f c = false) → Str.rstrip f s = s.
Proof.
  destruct s as [|a s] using rev_ind; [reflexivity|].
  intros Hl. apply rstrip_keep. apply Hl. apply last_snoc.
Qed.

(** The last segment of a path that ends with a segment [X] and
    slashes. *)
Lemma last_segment dir X slashes :
  X ≠ [] → Str.has (ch "/") X = false →
  forallb (N.eqb (ch "/")) slashes = true →
  List.last
    (Str.split (ch "/")
       (Str.strip (N.eqb (ch "/")) (dir ++ ch "/" :: X ++ slashes))) []
  = X.
Proof.
  intros Hne HX Hsl.
  assert (Hx : ∀ c, c ∈ X → N.eqb (ch "/") c = false).
  { intros c Hc. destruct (N.eqb_spec (ch "/") c) as [<-|]; [|reflexivity].
    exfalso. apply (has_false_not_in _ _ HX). exact Hc. }
  unfold Str.strip.
  destruct X as [|x X']; [contradiction|].
  change (dir ++ ch "/" :: (x :: X') ++ slashes)
    with (dir ++ [ch "/"] ++ x :: (X' ++ slashes)).
  rewrite app_assoc, lstrip_app_stop by (apply Hx; left).
  set (D := Str.lstrip (N.eqb (ch "/")) (dir ++ [ch "/"])).
  change (D ++ x :: X' ++ slashes) with (D ++ (x :: X') ++ slashes).
  rewrite app_assoc, rstrip_app_all by exact Hsl.
  rewrite rstrip_id.
  2:{ intros c Hc. rewrite last_app in Hc.
      destruct (last (x :: X')) as [y|] eqn:Hy.
      - injection Hc as <-. apply Hx. apply last_Some_elem_of. exact Hy.
      - apply last_None in Hy. discriminate. }
  destruct (lstrip_snoc (N.eqb (ch "/")) dir (ch "/")) as [E|(d & E)];
    fold D in E; rewrite E.
  - cbn [app].
    rewrite split_none by (apply has_false_not_in; exact HX). reflexivity.
  - rewrite <- app_assoc. cbn [app]. rewrite split_app.
    rewrite (split_none _ (x :: X'))
      by (apply has_false_not_in; exact HX).
    apply last_last.
Qed.

(** ** Short links and other links *)

Section Links.
Context `{PyLib}.

Lemma urlparse_plain u :
  well_formed_plain_url u = true →
  Str.has (ch ";") (pu_path u) = false →
  ∃ r, Url.urlparse (plain_url u) = Ok r
       ∧ Url.netloc r = pu_host u ∧ Url.path r = pu_path u
       ∧ Url.query r = default [] (pu_query u).
Proof.
  intros Hwf Hsemi. unfold Url.urlparse.
  rewrite (urlsplit_plain u Hwf). cbn [rbind Url.s_path].
  rewrite Hsemi, andb_false_r.
  eexists. split; [reflexivity|]. cbn. auto.
Qed.

(** X17: for a short link [scheme://host/X...], whose host contains
    ["youtu.be"] and not ["youtube.com"], with a path [/X] where [X]
    starts with no further slash and holds no semicolon,
    [extract_video_id] returns exactly [X], whatever query and fragment
    follow. *)
Theorem short_link_identifier_of (u : PlainUrl) (X : pystr) :
  well_formed_plain_url u = true →
  Str.contains (py "youtu.be") (pu_host u) = true →
  Str.contains (py "youtube.com") (pu_host u) = false →
  pu_path u = ch "/" :: X →
  Str.startswith (py "/") X = false →
  Str.has (ch ";") X = false →
  extract_video_id (plain_url u) = Ok X.
Proof.
  intros Hwf Hbe Hcom Hpath Hhead Hsemi.
  destruct (urlparse_plain u Hwf) as (r & Hr & Hn & Hp & Hq).
  { rewrite Hpath, has_cons, Hsemi. reflexivity. }
  unfold extract_video_id.
  assert (Hin : Str.contains (py "youtu.be") (plain_url u) = true).
  { unfold plain_url. apply contains_app_r, contains_app_r.
    apply contains_app_l. exact Hbe. }
  rewrite Hin, andb_false_r. rewrite Hr. cbn [rbind].
  rewrite Hn, Hcom, Hbe, Hp, Hpath. cbn [Str.lstrip].
  rewrite N.eqb_refl. f_equal. apply lstrip_id.
  intros c Hc. destruct X as [|a X']; [discriminate|].
  cbn in Hc, Hhead. injection Hc as <-.
  rewrite andb_true_r in Hhead. exact Hhead.
Qed.

(** X18: for a link on the standard domain without a value for [v],
    whose path ends with a segment [X] that is not empty, followed by
    slashes only, [extract_video_id] returns exactly [X]. *)
Theorem last_segment_identifier (u : PlainUrl) (dir X slashes : pystr) :
  well_formed_plain_url u = true →
  Str.contains (py "youtube.com") (pu_host u) = true →
  Str.contains (py "youtu.be") (pu_host u) = false →
  Url.parse_qs (default [] (pu_query u)) !! py "v" = None →
  pu_path u = dir ++ ch "/" :: X ++ slashes →
  X ≠ [] →
  Str.has (ch "/") X = false →
  forallb (N.eqb (ch "/")) slashes = true →
  Str.has (ch ";") (pu_path u) = false →
  extract_video_id (plain_url u) = Ok X.
Proof.
  intros Hwf Hcom Hbe Hv Hpath Hne HX Hsl Hsemi.
  destruct (urlparse_plain u Hwf Hsemi) as (r & Hr & Hn & Hp & Hq).
  unfold extract_video_id.
  assert (Hin : Str.contains (py "youtube.com") (plain_url u) = true).
  { unfold plain_url. apply contains_app_r, contains_app_r.
    apply contains_app_l. exact Hcom. }
  rewrite Hin. cbn [negb andb]. rewrite Hr. cbn [rbind].
  rewrite Hn, Hcom, Hbe, Hq, Hv, Hp, Hpath.
  f_equal. apply last_segment; assumption.
Qed.

End Links.

Lemma short_link_identifier_of_witness :
  @extract_video_id sample_library (py "https://youtu.be/vIIyn8LH1_E?t=42")
  = Ok (py "vIIyn8LH1_E").
Proof.
  apply (@short_link_identifier_of sample_library sample_short_url
           (py "vIIyn8LH1_E")); reflexivity.
Defined.

Lemma last_segment_identifier_witness :
  @extract_video_id sample_library
    (py "https://www.youtube.com/embed/abc123/#top")
  = Ok (py "abc123").
Proof.
  apply (@last_segment_identifier sample_library sample_embed_url
           (py "/embed") (py "abc123") (py "/")); try reflexivity.
  discriminate.
Defined.

(** ** A bare identifier is canonical *)

Lemma contains_inside sub l core r :
  Str.contains sub core = true → Str.contains sub (l ++ core ++ r) = true.
Proof.
  intros Hc. apply contains_app_r, contains_app_l. exact Hc.
Qed.

Lemma strip_idempotent f s : Str.strip f (Str.strip f s) = Str.strip f s.
Proof.
  destruct (strip_trimmed f s) as (l & r & _ & _ & _ & Hh & Hl).
  unfold Str.strip at 1.
  rewrite (lstrip_id f (Str.strip f s)) by exact Hh.
  apply rstrip_id. exact Hl.
Qed.

Section Canonical.
Context `{PyLib}.

(** X19: the identifier returned for an input without domain marker is
    canonical: it holds no marker either, and [extract_video_id] returns
    it unchanged. *)
Theorem bare_identifier_is_canonical (s : pystr) :
  Str.contains (py "youtube.com") s = false →
  Str.contains (py "youtu.be") s = false →
  ∃ vid, extract_video_id s = Ok vid ∧ extract_video_id vid = Ok vid.
Proof.
  intros H1 H2. exists (Str.strip Str.isspace s).
  destruct (strip_trimmed Str.isspace s) as (l & r & Hs & _).
  assert (N1 : Str.contains (py "youtube.com") (Str.strip Str.isspace s)
               = false).
  { destruct (Str.contains (py "youtube.com") (Str.strip Str.isspace s))
      eqn:E; [|reflexivity].
    rewrite Hs, contains_inside in H1 by exact E. discriminate. }
  assert (N2 : Str.contains (py "youtu.be") (Str.strip Str.isspace s)
               = false).
  { destruct (Str.contains (py "youtu.be") (Str.strip Str.isspace s))
      eqn:E; [|reflexivity].
    rewrite Hs, contains_inside in H2 by exact E. discriminate. }
  unfold extract_video_id. rewrite H1, H2, N1, N2. cbn [negb andb].
  rewrite strip_idempotent. auto.
Qed.

End Canonical.

Lemma bare_identifier_is_canonical_witness :
  ∃ vid, @extract_video_id sample_library (py "  abc123 ") = Ok vid
         ∧ @extract_video_id sample_library vid = Ok vid.
Proof.
  apply (@bare_identifier_is_canonical sample_library); reflexivity.
Defined.

(** ** Invariants of the preloader's loops *)

Lemma fetch_youtube_transcript_slept vid languages w :
  slept (snd (fetch_youtube_transcript vid languages w)) = slept w.
Proof.
  unfold fetch_youtube_transcript, get_transcript. unfold_M. cbn.
  destruct (YT_AVAILABLE w); cbn; auto.
  destruct (service w _ vid _) as [segments|]; cbn; auto.
  destruct (segment_texts segments) as [texts|]; cbn; auto.
Qed.

Lemma save_local_transcript_slept vid text w :
  slept (snd (save_local_transcript vid text w)) = slept w.
Proof.
  unfold save_local_transcript, write_text, open_w, put_content. unfold_M.
  destruct (files w !! _) as [[c r []| |]|]; cbn; auto;
    try destruct (creatable w _); cbn; auto;
    destruct (Utf8.encode text); cbn; rewrite ?lookup_insert_eq; cbn; auto.
Qed.

Lemma literal_ne (a b : string) :
  Str.eqb (py a) (py b) = false → py a ≠ py b.
Proof.
  unfold Str.eqb. intros Hne E.
  rewrite bool_decide_eq_true_2 in Hne by exact E. discriminate.
Qed.

Section PreloadEffects.
Context `{PyLib}.

(** The resolver with [save_downloaded] set, as the preloader calls it. *)
Lemma resolver_effects ref vid fb languages w :
  extract_video_id ref = Ok vid →
  can_stat w (transcript_file vid) →
  ∃ t m w',
    get_or_create_transcript ref fb true languages w = (Ok (t, m), w')
    ∧ video_id m = vid
    ∧ slept w' = slept w
    ∧ (source m = py "none" ∨ source m = py "local"
       ∨ source m = py "youtube")
    ∧ (source m = py "local" →
       is_Some (files w' !! Pathlib.str (transcript_file vid)))
    ∧ (fb = false →
       files w' = files w ∧ fetch_calls w' = fetch_calls w
       ∧ service_calls w' = service_calls w
       ∧ source m ≠ py "youtube")
    ∧ (fb = true → no_local_transcript vid w →
       fetch_calls w' = fetch_calls w ++ [(vid, languages)])
    ∧ same_index w w' ∧ same_platform w w'.
Proof.
  intros Hid Hstat.
  assert (Hnl : py "none" ≠ py "local") by (apply literal_ne; reflexivity).
  assert (Hyl : py "youtube" ≠ py "local")
    by (apply literal_ne; reflexivity).
  assert (Hny : py "none" ≠ py "youtube")
    by (apply literal_ne; reflexivity).
  assert (Hly : py "local" ≠ py "youtube")
    by (apply literal_ne; reflexivity).
  destruct (resolver_returns ref vid fb true languages w Hid Hstat)
    as (t & m & w' & Hrun & Hm & S & P).
  exists t, m, w'. split; [exact Hrun|]. split; [exact Hm|].
  assert (Hrest :
    slept w' = slept w
    ∧ (source m = py "none" ∨ source m = py "local"
       ∨ source m = py "youtube")
    ∧ (source m = py "local" →
       is_Some (files w' !! Pathlib.str (transcript_file vid)))
    ∧ (fb = false →
       files w' = files w ∧ fetch_calls w' = fetch_calls w
       ∧ service_calls w' = service_calls w
       ∧ source m ≠ py "youtube")
    ∧ (fb = true → no_local_transcript vid w →
       fetch_calls w' = fetch_calls w ++ [(vid, languages)])).
  2:{ destruct Hrest as (? & ? & ? & ? & ?). auto 10. }
  clear S P Hm.
  destruct (local_or_miss vid w) as [(c & t0 & Hl)|Hmiss].
  - assert (Hne : c :: t0 ≠ []) by discriminate.
    rewrite (resolver_local_run _ _ _ _ _ _ _ Hid Hl Hne) in Hrun.
    injection Hrun as <- <- <-. cbn [video_id source].
    split; [reflexivity|]. split; [auto|]. split; [|split].
    + intros _. rewrite load_local_transcript_run in Hl.
      destruct (files w !! Pathlib.str (transcript_file vid)); [eauto|].
      discriminate.
    + auto.
    + intros _ Hno.
      specialize (no_local_transcript_miss vid w Hno (c :: t0) Hl).
      discriminate.
  - rewrite (resolver_miss_run _ _ _ _ _ _ Hid Hstat Hmiss) in Hrun.
    cbv zeta in Hrun.
    destruct (load_local_transcript_frame vid w)
      as (Hf1 & _ & _ & _ & Hs1 & Hc1 & Hz1).
    set (w1 := snd (load_local_transcript vid w)) in *.
    destruct fb.
    2:{ injection Hrun as <- <- <-. cbn [video_id source].
        repeat split; auto; try discriminate; intros E; contradiction. }
    pose proof (fetch_youtube_transcript_slept vid languages w1) as Hz2.
    destruct (fetch_youtube_transcript_frame vid languages w1)
      as (_ & _ & Hfc2).
    destruct (fetch_youtube_transcript vid languages w1) as [r w2].
    cbn [fst snd] in *.
    destruct r as [[[|c t0]|]|e]; try discriminate Hrun.
    + injection Hrun as <- <- <-. cbn [video_id source].
      repeat split; auto; try congruence; try discriminate;
        intros E; contradiction.
    + injection Hrun as <- <- <-. cbn [video_id source].
      rewrite save_local_transcript_slept.
      destruct (save_local_transcript_run vid (c :: t0) w2)
        as (_ & _ & _ & Hfc3).
      repeat split; auto; try congruence; try discriminate;
        intros E; contradiction.
    + injection Hrun as <- <- <-. cbn [video_id source].
      repeat split; auto; try congruence; try discriminate;
        intros E; contradiction.
Qed.

(** The body of the preloader's loop on an entry whose URL yields an
    identifier. *)
Lemma preload_entry_effects collection v fb delay w :
  resolvable w (collection, v) →
  sleep_accepted w delay →
  ∃ e w',
    preload_entry collection v fb delay w = (Ok e, w')
    ∧ entry_of (collection, v) e
    ∧ (fb = false → transcript_source e ≠ py "youtube")
    ∧ slept w' = slept w ++ [delay]
    ∧ (fb = false →
       files w' = files w ∧ fetch_calls w' = fetch_calls w
       ∧ service_calls w' = service_calls w)
    ∧ same_index w w' ∧ same_platform w w'.
Proof.
  intros (u & vid & Hu & Hid & Hstat) Hs. cbn [snd] in Hu.
  destruct (resolver_effects u vid fb None w Hid Hstat)
    as (t & m & w1 & Hrun & Hm & Hz & Hsrc & Hloc & Hoff & _ & S1 & P1).
  unfold preload_entry. unfold_M.
  rewrite Hu, Hrun. cbn. rewrite Hm.
  rewrite (path_exists_run _ w1 (same_platform_can_stat _ _ _ P1 Hstat)).
  rewrite (sleep_run _ _ (same_platform_sleep _ _ _ P1 Hs)).
  eexists _, _. split; [reflexivity|]. cbn.
  split; [|split; [|split; [|split; [|split]]]].
  - exists u, vid. split; [exact Hu|]. split; [exact Hid|].
    unfold entry_consistent. cbn.
    split; [reflexivity|]. split; [exact Hsrc|]. split.
    + destruct (bool_decide _); auto.
    + intros Hl. rewrite bool_decide_eq_true_2 by exact (Hloc Hl).
      discriminate.
  - intros Hfb. apply Hoff. exact Hfb.
  - rewrite Hz. reflexivity.
  - intros Hfb. destruct (Hoff Hfb) as (? & ? & ? & _). auto.
  - apply (same_index_trans _ w1); [exact S1|]. split; reflexivity.
  - apply (same_platform_trans _ w1); [exact P1|].
    apply same_platform_files; reflexivity.
Qed.

End PreloadEffects.

(** ** The serialised index has no carriage return *)

Lemma json_char_hex_digit n : json_char (Json.hex_digit (n mod 16)) = true.
Proof.
  unfold Json.hex_digit, json_char.
  destruct (N.ltb_spec (n mod 16) 10).
  - replace (32 <=? 48 + n mod 16) with true by (symmetry; apply N.leb_le; dlia).
    replace (48 + n mod 16 <=? 126) with true
      by (symmetry; apply N.leb_le; dlia).
    apply orb_true_r.
  - replace (32 <=? 87 + n mod 16) with true by (symmetry; apply N.leb_le; dlia).
    replace (87 + n mod 16 <=? 126) with true
      by (symmetry; apply N.leb_le; dlia).
    apply orb_true_r.
Qed.

Lemma json_char_u_escape n :
  Forall (λ c, json_char c = true) (Json.u_escape n).
Proof.
  unfold Json.u_escape.
  repeat (constructor; [first [apply json_char_hex_digit | reflexivity]|]).
  constructor.
Qed.

Lemma json_char_escape_char c :
  Forall (λ c, json_char c = true) (Json.escape_char c).
Proof.
  unfold Json.escape_char.
  destruct (c =? 34); [repeat constructor|].
  destruct (c =? 92); [repeat constructor|].
  destruct (c =? 10); [repeat constructor|].
  destruct (c =? 13); [repeat constructor|].
  destruct (c =? 9); [repeat constructor|].
  destruct (c =? 8); [repeat constructor|].
  destruct (c =? 12); [repeat constructor|].
  destruct ((32 <=? c) && (c <=? 126)) eqn:E.
  - constructor; [|constructor]. unfold json_char. rewrite E.
    apply orb_true_r.
  - destruct (c <? 65536);
      [apply json_char_u_escape
      |apply Forall_app; split; apply json_char_u_escape].
Qed.

Lemma json_char_dumps_str s :
  Forall (λ c, json_char c = true) (Json.dumps_str s).
Proof.
  unfold Json.dumps_str. apply Forall_app. split; [repeat constructor|].
  apply Forall_app. split; [|repeat constructor].
  induction s as [|c s IH]; cbn; [constructor|].
  apply Forall_app. split; [apply json_char_escape_char|exact IH].
Qed.

Lemma json_char_join sep parts :
  Forall (λ c, json_char c = true) sep →
  Forall (Forall (λ c, json_char c = true)) parts →
  Forall (λ c, json_char c = true) (Str.join sep parts).
Proof.
  intros Hsep. induction 1 as [|p ps Hp Hps IH]; cbn; [constructor|].
  destruct ps; [exact Hp|].
  apply Forall_app. split; [exact Hp|].
  apply Forall_app. split; [exact Hsep|exact IH].
Qed.

Lemma json_char_literal (s : string) :
  forallb json_char (py s) = true → Forall (λ c, json_char c = true) (py s).
Proof.
  intros Hs. apply Forall_forall. intros c Hc.
  rewrite forallb_forall in Hs. apply list_elem_of_In in Hc.
  apply Hs. exact Hc.
Qed.

Lemma json_char_newline_indent n :
  Forall (λ c, json_char c = true) (Json.newline_indent n).
Proof.
  unfold Json.newline_indent. constructor; [reflexivity|].
  induction n as [|n IH]; cbn; [constructor|].
  repeat (constructor; [reflexivity|]). exact IH.
Qed.

Lemma json_char_dumps_entry e :
  Forall (λ c, json_char c = true) (Json.dumps_entry e).
Proof.
  unfold Json.dumps_entry.
  repeat first
    [ apply json_char_newline_indent
    | apply json_char_dumps_str
    | apply json_char_literal; reflexivity
    | apply json_char_join
    | apply Forall_app; split
    | apply Forall_cons; split
    | apply Forall_nil ].
  - unfold Json.dumps_optional_str. destruct (transcript_path e);
      [apply json_char_dumps_str|apply json_char_literal; reflexivity].
  - exact I.
Qed.

Lemma json_char_dumps_index index :
  Forall (λ c, json_char c = true) (Json.dumps_index index).
Proof.
  unfold Json.dumps_index. destruct index as [|e index].
  - apply json_char_literal. reflexivity.
  - repeat first
      [ apply json_char_newline_indent
      | apply json_char_literal; reflexivity
      | apply Forall_app; split ].
    apply json_char_join.
    + apply Forall_app. split;
        [apply json_char_literal; reflexivity|apply json_char_newline_indent].
    + apply Forall_forall. intros s Hs.
      apply list_elem_of_In, in_map_iff in Hs. destruct Hs as (e' & <- & _).
      apply json_char_dumps_entry.
Qed.

Lemma dumps_index_no_cr index : 13 ∉ Json.dumps_index index.
Proof.
  intros Hin. pose proof (json_char_dumps_index index) as Hall.
  rewrite Forall_forall in Hall. specialize (Hall 13 Hin). discriminate.
Qed.

(** ** The preloader as a whole *)

Section PreloadRun.
Context `{PyLib}.

(** Writing the index where it can be written. *)
Lemma write_index_effects index w :
  index_writable w →
  ∃ r w',
    write_text index_path (Json.dumps_index index) w = (Ok (), w')
    ∧ files w' !! Pathlib.str index_path
      = Some (File (Json.dumps_index index) r true)
    ∧ ((∀ c wr, files w !! Pathlib.str index_path ≠ Some (File c false wr))
       → r = true)
    ∧ same_transcripts w w'
    ∧ slept w' = slept w ∧ fetch_calls w' = fetch_calls w
    ∧ service_calls w' = service_calls w.
Proof.
  unfold index_writable, write_text, open_w, put_content, same_transcripts.
  unfold_M.
  rewrite (encode_ascii _ (dumps_index_ascii index)).
  destruct (files w !! Pathlib.str index_path) as [[c r []| |]|] eqn:E;
    try contradiction.
  - intros _. cbn. rewrite lookup_insert_eq. cbn.
    eexists _, _. split; [reflexivity|]. cbn.
    rewrite lookup_insert_eq. split; [reflexivity|]. split.
    + intros Hr. destruct r; [reflexivity|].
      exfalso. exact (Hr _ _ eq_refl).
    + repeat split; auto. intros q Hq.
      rewrite !lookup_insert_ne by congruence. reflexivity.
  - intros ->. cbn. rewrite lookup_insert_eq. cbn.
    eexists _, _. split; [reflexivity|]. cbn.
    rewrite lookup_insert_eq. repeat split; auto. intros q Hq.
    rewrite !lookup_insert_ne by congruence. reflexivity.
Qed.

(** The loops over a catalog whose entries can all be resolved. *)
Lemma preload_collections_effects curated_map fb delay w :
  Forall (resolvable w) (catalog_entries curated_map) →
  sleep_accepted w delay →
  ∃ index w',
    preload_collections curated_map fb delay [] w = (Ok index, w')
    ∧ Forall2 (λ e cv, entry_of cv e
                       ∧ (fb = false → transcript_source e ≠ py "youtube"))
        index (catalog_entries curated_map)
    ∧ slept w' = slept w ++ repeat delay (length (catalog_entries curated_map))
    ∧ (fb = false →
       files w' = files w ∧ fetch_calls w' = fetch_calls w
       ∧ service_calls w' = service_calls w)
    ∧ same_index w w'.
Proof.
  intros Hall Hs.
  destruct (preload_collections_inv fb delay w (resolvable w)
              (λ cv e, entry_of cv e
                       ∧ (fb = false → transcript_source e ≠ py "youtube"))
              (λ n w1 w2,
                 slept w2 = slept w1 ++ repeat delay n
                 ∧ (fb = false →
                    files w2 = files w1 ∧ fetch_calls w2 = fetch_calls w1
                    ∧ service_calls w2 = service_calls w1)
                 ∧ same_index w1 w2 ∧ same_platform w1 w2))
    with (curated_map := curated_map) (index := @nil IndexEntry) (w := w)
    as (es & w' & Hrun & Hq & Hz & Hoff & S1 & _).
  - intros w1. cbn. rewrite app_nil_r.
    repeat split; auto; apply same_platform_refl.
  - intros n m w1 w2 w3 (Hz1 & Ho1 & S12 & P12) (Hz2 & Ho2 & S23 & P23).
    split; [|split; [|split]].
    + rewrite Hz2, Hz1, repeat_app, app_assoc. reflexivity.
    + intros Hfb. destruct (Ho1 Hfb) as (? & ? & ?).
      destruct (Ho2 Hfb) as (? & ? & ?). repeat split; congruence.
    + apply (same_index_trans _ w2); assumption.
    + apply (same_platform_trans _ w2); assumption.
  - intros r w1. cbn. rewrite app_nil_r.
    repeat split; auto; apply same_platform_add_log.
  - intros n w1 w2 (_ & _ & _ & P12). exact P12.
  - intros collection v w1 Hw1 (u & vid & Hu & Hid & Hstat).
    destruct (preload_entry_effects collection v fb delay w1)
      as (e & w2 & He & Hof & Hsrc & Hz & Hoff & S12 & P12).
    { exists u, vid. split; [exact Hu|]. split; [exact Hid|].
      exact (same_platform_can_stat _ _ _ Hw1 Hstat). }
    { exact (same_platform_sleep _ _ _ Hw1 Hs). }
    exists e, w2. auto 10.
  - apply same_platform_refl.
  - exact Hall.
  - exists es, w'. auto.
Qed.

(** The preloader on such a catalog, where the index can be written. *)
Lemma preload_effects curated_map fb delay w :
  Forall (resolvable w) (catalog_entries curated_map) →
  sleep_accepted w delay →
  index_writable w →
  ∃ index w' r,
    preload_curated_transcripts curated_map fb delay w = (Ok index, w')
    ∧ Forall2 (λ e cv, entry_of cv e
                       ∧ (fb = false → transcript_source e ≠ py "youtube"))
        index (catalog_entries curated_map)
    ∧ slept w' = slept w ++ repeat delay (length (catalog_entries curated_map))
    ∧ files w' !! Pathlib.str index_path
      = Some (File (Json.dumps_index index) r true)
    ∧ ((∀ c wr, files w !! Pathlib.str index_path ≠ Some (File c false wr))
       → r = true)
    ∧ (fb = false →
       same_transcripts w w' ∧ fetch_calls w' = fetch_calls w
       ∧ service_calls w' = service_calls w).
Proof.
  intros Hall Hs Hw.
  destruct (preload_collections_effects curated_map fb delay w Hall Hs)
    as (index & w1 & Hloop & Hq & Hz & Hoff & [Hf1 Hc1]).
  assert (Hw1 : index_writable w1).
  { unfold index_writable in *. rewrite Hf1, Hc1. exact Hw. }
  destruct (write_index_effects index w1 Hw1)
    as (r & w2 & Hwr & Hfile & Hr & Hst & Hz2 & Hfc2 & Hsc2).
  exists index, (add_log (INFO_saved_index (length index)) w2), r.
  split.
  { unfold preload_curated_transcripts. unfold_M.
    rewrite Hloop, Hwr. reflexivity. }
  split; [exact Hq|]. cbn [slept files fetch_calls service_calls add_log].
  split; [congruence|]. split; [exact Hfile|]. split.
  - intros Hnr. apply Hr. intros c wr. rewrite Hf1. apply Hnr.
  - intros Hfb. destruct (Hoff Hfb) as (Hf & Hfc & Hsc).
    split; [|split; congruence].
    intros q Hq'. cbn [files add_log]. rewrite (Hst q Hq'), Hf.
    reflexivity.
Qed.

End PreloadRun.

(** ** Where the preloader stops *)

(** The loops stop at the first entry on which the loop body raises.
    [R n] relates the environment after [n] entries that went well to the
    one before; [w0] is the environment the preloader starts from. *)
Section StopAtFailure.
Context `{PyLib}.
Variable fb : bool.
Variable delay : pyfloat.
Variable w0 : world.
Variable e : exn.
Variables good_entry bad_entry : pystr * video → Prop.
Variable R : nat → world → world → Prop.
Hypothesis R_refl : ∀ w, R 0 w w.
Hypothesis R_trans :
  ∀ n m w1 w2 w3, R n w1 w2 → R m w2 w3 → R (n + m) w1 w3.
Hypothesis R_log : ∀ r w, R 0 w (add_log r w).
Hypothesis R_platform : ∀ n w w', R n w w' → same_platform w w'.
Hypothesis good_runs :
  ∀ collection v w, same_platform w0 w → good_entry (collection, v) →
    ∃ e' w', preload_entry collection v fb delay w = (Ok e', w')
             ∧ R 1 w w'.
Hypothesis bad_raises :
  ∀ collection v w, same_platform w0 w → bad_entry (collection, v) →
    ∃ w', preload_entry collection v fb delay w = (Raise e, w')
          ∧ R 0 w w'.

Lemma preload_videos_good collection videos index w :
  same_platform w0 w →
  Forall good_entry (List.map (pair collection) videos) →
  ∃ index' w',
    preload_videos collection videos fb delay index w = (Ok index', w')
    ∧ R (length videos) w w'.
Proof.
  revert index w.
  induction videos as [|v videos IH]; intros index w Hw Hall.
  - exists index, w. split; [reflexivity|apply R_refl].
  - cbn [List.map] in Hall. apply Forall_cons in Hall as [Hv Hall].
    destruct (good_runs collection v w Hw Hv) as (e' & w1 & He & R1).
    assert (Hw1 : same_platform w0 w1).
    { apply (same_platform_trans _ w); [exact Hw|].
      exact (R_platform _ _ _ R1). }
    destruct (IH (index ++ [e']) w1 Hw1 Hall) as (index' & w2 & Hrun & R2).
    exists index', w2. cbn [preload_videos]. unfold_M. rewrite He, Hrun.
    split; [reflexivity|].
    change (length (v :: videos)) with (1 + length videos)%nat.
    exact (R_trans _ _ _ _ _ R1 R2).
Qed.

Lemma preload_videos_stop collection videos index w good bad rest :
  same_platform w0 w →
  List.map (pair collection) videos = good ++ bad :: rest →
  Forall good_entry good → bad_entry bad →
  ∃ w', preload_videos collection videos fb delay index w = (Raise e, w')
        ∧ R (length good) w w'.
Proof.
  revert index w videos.
  induction good as [|g good IH];
    intros index w [|v videos] Hw Heq Hgood Hbad;
    cbn in Heq; try discriminate.
  - injection Heq as <- _.
    destruct (bad_raises collection v w Hw Hbad) as (w' & He & R1).
    exists w'. cbn [preload_videos]. unfold_M. rewrite He. auto.
  - injection Heq as <- Heq. apply Forall_cons in Hgood as [Hg Hgood].
    destruct (good_runs collection v w Hw Hg) as (e' & w1 & He & R1).
    assert (Hw1 : same_platform w0 w1).
    { apply (same_platform_trans _ w); [exact Hw|].
      exact (R_platform _ _ _ R1). }
    destruct (IH (index ++ [e']) w1 videos Hw1 Heq Hgood Hbad)
      as (w2 & Hrun & R2).
    exists w2. cbn [preload_videos]. unfold_M. rewrite He, Hrun.
    split; [reflexivity|].
    change (length ((collection, v) :: good)) with (1 + length good)%nat.
    exact (R_trans _ _ _ _ _ R1 R2).
Qed.

Lemma preload_collections_stop curated_map index w good bad rest :
  same_platform w0 w →
  catalog_entries curated_map = good ++ bad :: rest →
  Forall good_entry good → bad_entry bad →
  ∃ w', preload_collections curated_map fb delay index w = (Raise e, w')
        ∧ R (length good) w w'.
Proof.
  revert index w good.
  induction curated_map as [|[collection videos] items IH];
    intros index w good Hw Heq Hgood Hbad.
  { destruct good; discriminate. }
  cbn [catalog_entries flat_map] in Heq.
  set (w1 := add_log (INFO_processing collection (length videos)) w).
  assert (Hw1 : same_platform w0 w1).
  { apply (same_platform_trans _ w); [exact Hw|].
    apply same_platform_add_log. }
  assert (Hlater : ∀ good',
    Forall good_entry (List.map (pair collection) videos) →
    catalog_entries items = good' ++ bad :: rest →
    Forall good_entry good' →
    ∃ w', preload_collections ((collection, videos) :: items) fb delay
            index w = (Raise e, w')
          ∧ R (length videos + length good') w w').
  { intros good' Hvs Heq' Hgood'.
    destruct (preload_videos_good collection videos index w1 Hw1 Hvs)
      as (index' & w2 & Hrun & R12).
    assert (Hw2 : same_platform w0 w2).
    { apply (same_platform_trans _ w1); [exact Hw1|].
      exact (R_platform _ _ _ R12). }
    destruct (IH index' w2 good' Hw2 Heq' Hgood' Hbad)
      as (w3 & Hrest & R23).
    exists w3. cbn [preload_collections]. unfold_M. fold w1.
    rewrite Hrun, Hrest. split; [reflexivity|].
    exact (R_trans _ _ _ _ _
             (R_trans 0 _ _ _ _ (R_log _ w) R12) R23). }
  apply app_eq_inv in Heq as [(k & Hvs & Hk)|(k & -> & Hk)].
  - destruct k as [|x k].
    + rewrite app_nil_r in Hvs. cbn in Hk.
      destruct (Hlater []) as (w' & Hrun & Hr);
        [rewrite Hvs; exact Hgood|auto|constructor|].
      exists w'. split; [exact Hrun|].
      rewrite <- Hvs, length_map. cbn [length] in Hr.
      rewrite Nat.add_0_r in Hr. exact Hr.
    + cbn in Hk. injection Hk as <- _.
      destruct (preload_videos_stop collection videos index w1 good bad k
                  Hw1 Hvs Hgood Hbad) as (w2 & Hrun & R12).
      exists w2. cbn [preload_collections]. unfold_M. fold w1.
      rewrite Hrun. split; [reflexivity|].
      exact (R_trans 0 _ _ _ _ (R_log _ w) R12).
  - apply Forall_app in Hgood as [Hvs Hgood].
    destruct (Hlater k Hvs Hk Hgood) as (w' & Hrun & Hr).
    exists w'. split; [exact Hrun|].
    rewrite length_app, length_map. exact Hr.
Qed.

Lemma preload_stop curated_map good bad rest :
  catalog_entries curated_map = good ++ bad :: rest →
  Forall good_entry good → bad_entry bad →
  ∃ w', preload_curated_transcripts curated_map fb delay w0 = (Raise e, w')
        ∧ R (length good) w0 w'.
Proof.
  intros Heq Hgood Hbad.
  destruct (preload_collections_stop curated_map [] w0 good bad rest
              (same_platform_refl w0) Heq Hgood Hbad) as (w' & Hrun & R1).
  exists w'. unfold preload_curated_transcripts. unfold_M. rewrite Hrun.
  auto.
Qed.

End StopAtFailure.

(** ** The preloader, entry by entry *)


Section PreloadTheorems.
Context `{PyLib}.



(** The preloader up to the body of its loop on the first entry. *)
Lemma preload_collections_first curated_map fb delay index w collection v
    rest :
  catalog_entries curated_map = (collection, v) :: rest →
  ∃ wl, only_logged w wl
        ∧ ∀ e w', preload_entry collection v fb delay wl = (Raise e, w') →
                  preload_collections curated_map fb delay index w
                  = (Raise e, w').
Proof.
  revert index w.
  induction curated_map as [|[c videos] items IH]; intros index w Heq;
    [discriminate|].
  cbn [catalog_entries flat_map] in Heq.
  set (w1 := add_log (INFO_processing c (length videos)) w).
  assert (L1 : only_logged w w1) by (repeat split; reflexivity).
  destruct videos as [|v0 videos]; cbn in Heq.
  - destruct (IH index w1 Heq) as (wl & Hl & Hrun).
    exists wl. split.
    + destruct L1 as (? & ? & ? & ? & ? & ? & ? & ?).
      destruct Hl as (? & ? & ? & ? & ? & ? & ? & ?).
      repeat split; congruence.
    + intros e w' He. cbn [preload_collections preload_videos]. unfold_M.
      fold w1. exact (Hrun e w' He).
  - injection Heq as <- <- _. exists w1. split; [exact L1|].
    intros e w' He. cbn [preload_collections preload_videos]. unfold_M.
    fold w1. rewrite He. reflexivity.
Qed.

(** X20: on a catalog whose URLs all yield an identifier whose transcript
    path can be examined, with a delay that [time.sleep] accepts whenever
    it is asked and an index file that can be written, the preloader
    returns and has slept the delay exactly once per catalog entry, whether
    a transcript was found for it or not. *)
Theorem preload_sleeps_once_per_entry
    (curated_map : catalog) (use_youtube_fallback : bool)
    (delay_seconds : pyfloat) (w : world) :
  Forall (resolvable w) (catalog_entries curated_map) →
  sleep_accepted w delay_seconds →
  index_writable w →
  ∃ index w',
    preload_curated_transcripts curated_map use_youtube_fallback
      delay_seconds w = (Ok index, w')
    ∧ slept w' = slept w ++ repeat delay_seconds
                              (length (catalog_entries curated_map)).
Proof.
  intros Hall Hs Hw.
  destruct (preload_effects curated_map use_youtube_fallback delay_seconds w
              Hall Hs Hw) as (index & w' & r & Hrun & _ & Hz & _).
  exists index, w'. auto.
Qed.

(** X21: under the same conditions every index entry carries the
    identifier the extractor gives for the URL of its catalog entry, one
    of the sources none, local and youtube, and either no transcript path
    or the path of that identifier's transcript file; an entry whose
    source is local always has the path. *)
Theorem preload_entries_consistent
    (curated_map : catalog) (use_youtube_fallback : bool)
    (delay_seconds : pyfloat) (w : world) :
  Forall (resolvable w) (catalog_entries curated_map) →
  sleep_accepted w delay_seconds →
  index_writable w →
  ∃ index w',
    preload_curated_transcripts curated_map use_youtube_fallback
      delay_seconds w = (Ok index, w')
    ∧ Forall2 (λ e cv, entry_of cv e) index (catalog_entries curated_map).
Proof.
  intros Hall Hs Hw.
  destruct (preload_effects curated_map use_youtube_fallback delay_seconds w
              Hall Hs Hw) as (index & w' & r & Hrun & Hq & _).
  exists index, w'. split; [exact Hrun|].
  eapply Forall2_impl; [exact Hq|]. cbn. tauto.
Qed.

(** X22: under the same conditions and with the remote fallback disabled,
    a preload calls neither the Remote Fetcher nor the transcript service,
    changes no file but the index file, and gives no entry the source
    youtube. *)
Theorem offline_preload_keeps_transcripts
    (curated_map : catalog) (delay_seconds : pyfloat) (w : world) :
  Forall (resolvable w) (catalog_entries curated_map) →
  sleep_accepted w delay_seconds →
  index_writable w →
  ∃ index w',
    preload_curated_transcripts curated_map false delay_seconds w
      = (Ok index, w')
    ∧ same_transcripts w w'
    ∧ fetch_calls w' = fetch_calls w
    ∧ service_calls w' = service_calls w
    ∧ Forall (λ e, transcript_source e ≠ py "youtube") index.
Proof.
  intros Hall Hs Hw.
  destruct (preload_effects curated_map false delay_seconds w Hall Hs Hw)
    as (index & w' & r & Hrun & Hq & _ & _ & _ & Hoff).
  destruct (Hoff eq_refl) as (Hst & Hfc & Hsc).
  exists index, w'. repeat split; try assumption.
  clear -Hq. induction Hq as [|e cv index entries [_ He] _ IH];
    constructor; auto.
Qed.

(** X23: the preloader handles no exception of its loop body.  When the
    entries before it can be resolved and the delay is accepted, it raises
    [KeyError] at the first catalog entry that has no URL, and the
    exception of the extractor at the first whose URL makes the extractor
    raise.  The entries before it have been processed, the delay having
    been slept once for each, and the index file is not written. *)
Theorem preload_stops_at_bad_entry
    (curated_map : catalog) (use_youtube_fallback : bool)
    (delay_seconds : pyfloat) (w : world)
    (good rest : list (pystr * video)) (bad : pystr * video) (e : exn) :
  catalog_entries curated_map = good ++ bad :: rest →
  Forall (resolvable w) good →
  fails_with e bad →
  sleep_accepted w delay_seconds →
  ∃ w',
    preload_curated_transcripts curated_map use_youtube_fallback
      delay_seconds w = (Raise e, w')
    ∧ same_index w w'
    ∧ slept w' = slept w ++ repeat delay_seconds (length good).
Proof.
  intros Heq Hgood Hbad Hs.
  destruct (preload_stop use_youtube_fallback delay_seconds w e
              (resolvable w) (fails_with e)
              (λ n w1 w2,
                 same_index w1 w2 ∧ same_platform w1 w2
                 ∧ slept w2 = slept w1 ++ repeat delay_seconds n))
    with (curated_map := curated_map) (good := good) (bad := bad)
         (rest := rest) as (w' & Hrun & S1 & _ & Hz); try assumption.
  - intros w1. cbn. rewrite app_nil_r.
    split; [apply same_index_refl|]. split; [apply same_platform_refl|auto].
  - intros n m w1 w2 w3 (S12 & P12 & Hz1) (S23 & P23 & Hz2).
    split; [apply (same_index_trans _ w2); assumption|].
    split; [apply (same_platform_trans _ w2); assumption|].
    rewrite Hz2, Hz1, repeat_app, app_assoc. reflexivity.
  - intros r w1. cbn. rewrite app_nil_r.
    split; [apply same_index_add_log|].
    split; [apply same_platform_add_log|auto].
  - intros n w1 w2 (_ & P12 & _). exact P12.
  - intros collection v w1 Hw1 (u & vid & Hu & Hid & Hstat).
    destruct (preload_entry_effects collection v use_youtube_fallback
                delay_seconds w1)
      as (e' & w2 & He & _ & _ & Hz & _ & S12 & P12).
    { exists u, vid. split; [exact Hu|]. split; [exact Hid|].
      exact (same_platform_can_stat _ _ _ Hw1 Hstat). }
    { exact (same_platform_sleep _ _ _ Hw1 Hs). }
    exists e', w2. auto.
  - intros collection v w1 _ Hf. exists w1. split.
    + unfold fails_with in Hf. cbn [snd] in Hf.
      unfold preload_entry, get_or_create_transcript. unfold_M.
      destruct (v !! py "url") as [u|]; [|subst e; reflexivity].
      rewrite Hf. reflexivity.
    + cbn. rewrite app_nil_r.
      split; [apply same_index_refl|].
      split; [apply same_platform_refl|auto].
  - exists w'. auto.
Qed.

(** X24: a delay that [time.sleep] refuses makes the preloader raise the
    exception of [time.sleep] at the first entry, after that entry has
    been resolved: where the entry has no transcript file yet, the Remote
    Fetcher has been called for its identifier when the fallback is on,
    and not when it is off.  Nothing has been slept and the index file is
    not written. *)
Theorem preload_refused_delay
    (curated_map : catalog) (use_youtube_fallback : bool)
    (delay_seconds : pyfloat) (w : world)
    (collection : pystr) (v : video) (rest : list (pystr * video))
    (u vid : pystr) (e : exn) :
  catalog_entries curated_map = (collection, v) :: rest →
  v !! py "url" = Some u →
  extract_video_id u = Ok vid →
  files w !! Pathlib.str (transcript_file vid) = None →
  sleep_raises w delay_seconds e →
  ∃ w',
    preload_curated_transcripts curated_map use_youtube_fallback
      delay_seconds w = (Raise e, w')
    ∧ same_index w w'
    ∧ slept w' = slept w
    ∧ fetch_calls w'
      = fetch_calls w
        ++ (if use_youtube_fallback then [(vid, None)] else []).
Proof.
  intros Heq Hu Hid Hnone Hs.
  destruct (preload_collections_first curated_map use_youtube_fallback
              delay_seconds [] w collection v rest Heq)
    as (wl & (Lf & Lc & _ & _ & _ & Lfc & Lz & Lr) & Hfirst).
  assert (Hstat : can_stat wl (transcript_file vid)).
  { unfold can_stat. rewrite Lf, Hnone. discriminate. }
  assert (Hno : no_local_transcript vid wl).
  { intros content wr text. rewrite Lf, Hnone. discriminate. }
  destruct (resolver_effects u vid use_youtube_fallback None wl Hid Hstat)
    as (t & m & w1 & Hrun & Hm & Hz & _ & _ & Hoff & Hon & S1 & P1).
  assert (He : preload_entry collection v use_youtube_fallback
                 delay_seconds wl = (Raise e, w1)).
  { unfold preload_entry. unfold_M. rewrite Hu, Hrun. cbn. rewrite Hm.
    rewrite (path_exists_run _ w1 (same_platform_can_stat _ _ _ P1 Hstat)).
    unfold sleep. destruct P1 as (_ & Pr & _).
    rewrite Hz, Lz, Pr, Lr.
    destruct Hs as [Hs|(Hs & Hk & ->)]; rewrite Hs; [reflexivity|].
    rewrite Hk. reflexivity. }
  exists w1. split.
  { unfold preload_curated_transcripts. unfold_M.
    rewrite (Hfirst e w1 He). reflexivity. }
  split; [|split].
  - destruct S1 as [Sf Sc]. split; congruence.
  - congruence.
  - destruct use_youtube_fallback.
    + rewrite (Hon eq_refl Hno), Lfc. reflexivity.
    + destruct (Hoff eq_refl) as (_ & Hfc & _).
      rewrite Hfc, Lfc, app_nil_r. reflexivity.
Qed.

(** X25: a catalog without entries gives the empty index whatever the
    delay is, even one that [time.sleep] would refuse: nothing is slept or
    fetched, no other file changes, and the index file holds [[]]. *)
Theorem empty_catalog_preload
    (curated_map : catalog) (use_youtube_fallback : bool)
    (delay_seconds : pyfloat) (w : world) :
  catalog_entries curated_map = [] →
  index_writable w →
  ∃ w' r,
    preload_curated_transcripts curated_map use_youtube_fallback
      delay_seconds w = (Ok [], w')
    ∧ files w' !! Pathlib.str index_path = Some (File (py "[]") r true)
    ∧ same_transcripts w w'
    ∧ slept w' = slept w
    ∧ fetch_calls w' = fetch_calls w.
Proof.
  intros Hempty Hw.
  destruct (preload_collections_inv use_youtube_fallback delay_seconds w
              (λ _, False) (λ _ _, True)
              (λ _ w1 w2,
                 files w2 = files w1 ∧ creatable w2 = creatable w1
                 ∧ slept w2 = slept w1 ∧ fetch_calls w2 = fetch_calls w1
                 ∧ sleep_refused w2 = sleep_refused w1))
    with (curated_map := curated_map) (index := @nil IndexEntry) (w := w)
    as (es & w1 & Hloop & Hq & Hf1 & Hc1 & Hz1 & Hfc1 & _).
  - auto 10.
  - intros _ _ w1 w2 w3 (? & ? & ? & ? & ?) (? & ? & ? & ? & ?).
    repeat split; congruence.
  - intros r w0. cbn. auto 10.
  - intros _ w1 w2 (Hf & Hc & _ & _ & Hr).
    apply same_platform_files; assumption.
  - intros ? ? ? _ [].
  - apply same_platform_refl.
  - rewrite Hempty. constructor.
  - rewrite Hempty in Hq. apply Forall2_nil_inv_r in Hq. subst es.
    cbn [app] in Hloop.
    assert (Hw1 : index_writable w1).
    { unfold index_writable in *. rewrite Hf1, Hc1. exact Hw. }
    destruct (write_index_effects [] w1 Hw1)
      as (r & w2 & Hwr & Hfile & _ & Hst & Hz2 & Hfc2 & _).
    exists (add_log (INFO_saved_index 0) w2), r. split.
    { unfold preload_curated_transcripts. unfold_M.
      rewrite Hloop, Hwr. reflexivity. }
    cbn [files slept fetch_calls add_log].
    split; [exact Hfile|]. split; [|split; congruence].
    intros q Hq. cbn [files add_log]. rewrite (Hst q Hq), Hf1. reflexivity.
Qed.

(** X26: the Index Reader reads back what the Preloader wrote: after a
    preload that returned [index] under the conditions of X20, on an index
    file that is not unreadable, [load_curated_index] gives what
    [json.loads] gives for [json.dumps(index, indent=2)], the serialised
    text being ASCII without carriage returns. *)
Theorem preloaded_index_reads_back
    (curated_map : catalog) (use_youtube_fallback : bool)
    (delay_seconds : pyfloat) (w : world) :
  Forall (resolvable w) (catalog_entries curated_map) →
  sleep_accepted w delay_seconds →
  index_writable w →
  (∀ c wr, files w !! Pathlib.str index_path ≠ Some (File c false wr)) →
  ∃ index w',
    preload_curated_transcripts curated_map use_youtube_fallback
      delay_seconds w = (Ok index, w')
    ∧ load_curated_index w' = (json_loads (Json.dumps_index index), w').
Proof.
  intros Hall Hs Hw Hr.
  destruct (preload_effects curated_map use_youtube_fallback delay_seconds w
              Hall Hs Hw) as (index & w' & r & Hrun & _ & _ & Hfile & Hr' & _).
  rewrite (Hr' Hr) in Hfile.
  exists index, w'. split; [exact Hrun|].
  unfold load_curated_index, path_exists, read_text. unfold_M.
  rewrite Hfile. rewrite bool_decide_eq_true_2 by eauto. cbn [negb].
  rewrite Hfile.
  rewrite (decode_encode _ _ (encode_ascii _ (dumps_index_ascii index))).
  rewrite (universal_newlines_id _ (dumps_index_no_cr index)).
  reflexivity.
Qed.




End PreloadTheorems.

(** ** The preloader on sample catalogs *)

Lemma preload_sleeps_once_per_entry_witness :
  ∃ index w',
    @preload_curated_transcripts sample_library scenario_catalog true
      (FFinite (3 # 2)) (fresh_world (Ok [text_segment (py "hello")]))
    = (Ok index, w')
    ∧ slept w'
      = slept (fresh_world (Ok [text_segment (py "hello")]))
        ++ repeat (FFinite (3 # 2))
             (length (catalog_entries scenario_catalog)).
Proof.
  apply (@preload_sleeps_once_per_entry sample_library).
  - constructor; [|constructor].
    exists (py "abc123"), (py "abc123").
    split; [reflexivity|]. split; [vm_compute; reflexivity|].
    unfold can_stat. vm_compute. discriminate.
  - split; [reflexivity|]. intros n. reflexivity.
  - reflexivity.
Defined.

Lemma preload_entries_consistent_witness :
  ∃ index w',
    @preload_curated_transcripts sample_library scenario_catalog true
      (FFinite (3 # 2)) (fresh_world (Ok [text_segment (py "hello")]))
    = (Ok index, w')
    ∧ Forall2 (λ e cv, @entry_of sample_library cv e) index
        (catalog_entries scenario_catalog).
Proof.
  apply (@preload_entries_consistent sample_library).
  - constructor; [|constructor].
    exists (py "abc123"), (py "abc123").
    split; [reflexivity|]. split; [vm_compute; reflexivity|].
    unfold can_stat. vm_compute. discriminate.
  - split; [reflexivity|]. intros n. reflexivity.
  - reflexivity.
Defined.

Lemma offline_preload_keeps_transcripts_witness :
  ∃ index w',
    @preload_curated_transcripts sample_library scenario_catalog false
      (FFinite (3 # 2)) (stocked_world (py "hello"))
    = (Ok index, w')
    ∧ same_transcripts (stocked_world (py "hello")) w'
    ∧ fetch_calls w' = fetch_calls (stocked_world (py "hello"))
    ∧ service_calls w' = service_calls (stocked_world (py "hello"))
    ∧ Forall (λ e, transcript_source e ≠ py "youtube") index.
Proof.
  apply (@offline_preload_keeps_transcripts sample_library).
  - constructor; [|constructor].
    exists (py "abc123"), (py "abc123").
    split; [reflexivity|]. split; [vm_compute; reflexivity|].
    unfold can_stat. vm_compute. discriminate.
  - split; [reflexivity|]. intros n. reflexivity.
  - reflexivity.
Defined.

Lemma preload_stops_at_bad_entry_witness :
  ∃ w',
    @preload_curated_transcripts sample_library untitled_catalog true
      (FFinite (3 # 2)) (fresh_world (Ok [text_segment (py "hello")]))
    = (Raise KeyError, w')
    ∧ same_index (fresh_world (Ok [text_segment (py "hello")])) w'
    ∧ slept w'
      = slept (fresh_world (Ok [text_segment (py "hello")]))
        ++ repeat (FFinite (3 # 2)) 1.
Proof.
  apply (@preload_stops_at_bad_entry sample_library untitled_catalog true
           (FFinite (3 # 2)) (fresh_world (Ok [text_segment (py "hello")]))
           [(py "test", {[ py "title" := py "A"; py "url" := py "abc123" ]})]
           [] (py "test", {[ py "title" := py "B" ]}) KeyError).
  - reflexivity.
  - constructor; [|constructor].
    exists (py "abc123"), (py "abc123").
    split; [reflexivity|]. split; [vm_compute; reflexivity|].
    unfold can_stat. vm_compute. discriminate.
  - reflexivity.
  - split; [reflexivity|]. intros n. reflexivity.
Defined.

Lemma preload_refused_delay_witness :
  (∃ w',
     @preload_curated_transcripts sample_library scenario_catalog true
       (FFinite (-1 # 1)) (fresh_world (Ok [text_segment (py "hello")]))
     = (Raise ValueError, w')
     ∧ same_index (fresh_world (Ok [text_segment (py "hello")])) w'
     ∧ slept w' = slept (fresh_world (Ok [text_segment (py "hello")]))
     ∧ fetch_calls w'
       = fetch_calls (fresh_world (Ok [text_segment (py "hello")]))
         ++ [(py "abc123", None)])
  ∧ (∃ w',
       @preload_curated_transcripts sample_library scenario_catalog false
         (FFinite (9223372036 # 1)) (fresh_world (Ok []))
       = (Raise OSError, w')
       ∧ same_index (fresh_world (Ok [])) w'
       ∧ slept w' = slept (fresh_world (Ok []))
       ∧ fetch_calls w' = fetch_calls (fresh_world (Ok [])) ++ []).
Proof.
  split.
  - apply (@preload_refused_delay sample_library scenario_catalog true
             (FFinite (-1 # 1)) (fresh_world (Ok [text_segment (py "hello")]))
             (py "test") {[ py "title" := py "A"; py "url" := py "abc123" ]}
             [] (py "abc123") (py "abc123") ValueError).
    + reflexivity.
    + reflexivity.
    + vm_compute. reflexivity.
    + reflexivity.
    + left. reflexivity.
  - apply (@preload_refused_delay sample_library scenario_catalog false
             (FFinite (9223372036 # 1)) (fresh_world (Ok []))
             (py "test") {[ py "title" := py "A"; py "url" := py "abc123" ]}
             [] (py "abc123") (py "abc123") OSError).
    + reflexivity.
    + reflexivity.
    + vm_compute. reflexivity.
    + reflexivity.
    + right. split; [reflexivity|]. split; reflexivity.
Defined.

Lemma empty_catalog_preload_witness :
  ∃ w' r,
    @preload_curated_transcripts sample_library empty_catalog true FNaN
      (fresh_world (Ok []))
    = (Ok [], w')
    ∧ files w' !! Pathlib.str index_path
      = Some (File (py "[]") r true)
    ∧ same_transcripts (fresh_world (Ok [])) w'
    ∧ slept w' = slept (fresh_world (Ok []))
    ∧ fetch_calls w' = fetch_calls (fresh_world (Ok [])).
Proof.
  apply (@empty_catalog_preload sample_library).
  - reflexivity.
  - reflexivity.
Defined.

Lemma preloaded_index_reads_back_witness :
  (∃ index w',
     @preload_curated_transcripts scenario_library scenario_catalog true
       (FFinite (3 # 2)) (fresh_world (Ok [text_segment (py "hello")]))
     = (Ok index, w')
     ∧ @load_curated_index scenario_library w'
       = (@json_loads scenario_library (Json.dumps_index index), w'))
  ∧ fst (@load_curated_index scenario_library
           (snd (@preload_curated_transcripts scenario_library
                   scenario_catalog true (FFinite (3 # 2))
                   (fresh_world (Ok [text_segment (py "hello")])))))
    = Ok (JArr [entry_json scenario_entry]).
Proof.
  split; [|vm_compute; reflexivity].
  apply (@preloaded_index_reads_back scenario_library).
  - constructor; [|constructor].
    exists (py "abc123"), (py "abc123").
    split; [reflexivity|]. split; [vm_compute; reflexivity|].
    unfold can_stat. vm_compute. discriminate.
  - split; [reflexivity|]. intros n. reflexivity.
  - reflexivity.
  - intros c wr. vm_compute. discriminate.
Defined.


(** ** The index reader on a file it cannot read *)

Section IndexReader.
Context `{PyLib}.

(** X28: unlike the local transcript loader, the index reader handles no
    read error: when the index path exists but is not a readable file it
    raises [OSError], and when the file is not UTF-8 text it raises
    [ValueError] (a [UnicodeDecodeError]); in both cases [json.loads] is
    not reached and nothing is logged. *)
Theorem index_reader_propagates_read_errors (w : world) (nd : node) :
  files w !! Pathlib.str index_path = Some nd →
  (∀ c wr, nd = File c true wr → Utf8.decode c = None) →
  load_curated_index w
  = (Raise (match nd with File _ true _ => ValueError | _ => OSError end), w).
Proof.
  intros Hfile Hbad.
  unfold load_curated_index, path_exists, read_text. unfold_M.
  rewrite Hfile. rewrite bool_decide_eq_true_2 by eauto.
  destruct nd as [c [] wr| |]; cbn [negb]; rewrite ?Hfile;
    try reflexivity.
  rewrite (Hbad c wr eq_refl). reflexivity.
Qed.

End IndexReader.

Lemma index_reader_propagates_read_errors_witness :
  @load_curated_index sample_library (indexed_world [255])
  = (Raise ValueError, indexed_world [255]).
Proof.
  apply (@index_reader_propagates_read_errors sample_library
           (indexed_world [255]) (File [255] true true)).
  - reflexivity.
  - intros c wr [= <- _]. reflexivity.
Defined.
